(** * Neural style transfer: graph construction and optimisation driver

    A shallow embedding of [train.py]: [get_style_model_and_losses] (the
    graph builder), [get_input_optimizer] and [run_style_transfer] (the
    optimisation driver), with the properties of the specification stated
    and settled over it.

    Tensors are flat lists of floating-point values: shapes play no part in
    the control flow that is verified here.  A floating-point value is a
    rational, an infinity or NaN; rounding is outside the model.  What
    PyTorch and the sibling modules [loss] and [utils] provide is taken
    through the class [Torch]. *)

From Stdlib Require Import List String Ascii Bool Arith ZArith QArith Lia.
From Stdlib Require Import DecimalString DecimalNat.
Import ListNotations.

Local Close Scope Q_scope.
Local Open Scope string_scope.

(** ** Exceptions *)

Inductive exn : Type :=
| RuntimeError (msg : string)
| AttributeError (msg : string).

Inductive result (A : Type) : Type :=
| Ok (a : A)
| Raise (e : exn).

Arguments Ok {A} a.
Arguments Raise {A} e.

Definition bind {A B : Type} (r : result A) (k : A -> result B) : result B :=
  match r with
  | Ok a => k a
  | Raise e => Raise e
  end.

Notation "x <- r ;; k" := (bind r (fun x => k))
  (at level 61, r at next level, right associativity).
Notation "' p <- r ;; k" := (bind r (fun x => match x with p => k end))
  (at level 61, p pattern, r at next level, right associativity).

(** ** Floating-point values

    A value of a tensor or a Python float: a rational, which stands for a
    finite float, an infinity or NaN. *)

Inductive float : Type :=
| Finite (q : Q)
| PosInf
| NegInf
| NaN.

(** The infinity of the sign of [q], NaN for zero: [q * inf]. *)
Definition signed_inf (q : Q) : float :=
  match (q ?= 0)%Q with
  | Gt => PosInf
  | Lt => NegInf
  | Eq => NaN
  end.

Definition fadd (a b : float) : float :=
  match a, b with
  | Finite x, Finite y => Finite (x + y)
  | NaN, _ | _, NaN => NaN
  | PosInf, NegInf | NegInf, PosInf => NaN
  | PosInf, _ | _, PosInf => PosInf
  | NegInf, _ | _, NegInf => NegInf
  end.

Definition fmul (a b : float) : float :=
  match a, b with
  | Finite x, Finite y => Finite (x * y)
  | NaN, _ | _, NaN => NaN
  | Finite x, PosInf | PosInf, Finite x => signed_inf x
  | Finite x, NegInf | NegInf, Finite x => signed_inf (- x)
  | PosInf, PosInf | NegInf, NegInf => PosInf
  | PosInf, NegInf | NegInf, PosInf => NegInf
  end.

(** The same value; rationals are compared as numbers. *)
Definition feq (a b : float) : Prop :=
  match a, b with
  | Finite x, Finite y => (x == y)%Q
  | PosInf, PosInf | NegInf, NegInf | NaN, NaN => True
  | _, _ => False
  end.

(** ** Tensors, layers and modules *)

Definition Tensor : Type := list float.

(** A learned parameter of a layer, with its [requires_grad] flag. *)
Record parameter : Type := Param {
  data : Tensor;
  requires_grad : bool
}.

(** The class a child of the extractor is an instance of, as the chain of
    [isinstance] tests of the walk sees it; [Other] carries
    [layer.__class__.__name__]. *)
Inductive layer_class : Type :=
| Conv2d
| ReLU
| MaxPool2d
| BatchNorm2d
| Other (class_name : string).

Record layer : Type := Layer {
  cls : layer_class;
  inplace : bool;
  parameters : list parameter
}.

(** [nn.ReLU(inplace=False)] *)
Definition ReLU_out_of_place : layer :=
  {| cls := ReLU; inplace := false; parameters := [] |}.

(** The modules of the graph.  A loss module is an object: [oid] is its
    identity, under which its [loss] attribute lives in the heap, so that
    the module in the graph and the one in [content_losses] or
    [style_losses] are the same object. *)
Inductive module : Type :=
| Normalization (mean std : Tensor)
| Net (l : layer)
| ContentLoss (oid : nat) (target : Tensor)
| StyleLoss (oid : nat) (target : Tensor).

Definition is_loss (m : module) : bool :=
  match m with
  | ContentLoss _ _ | StyleLoss _ _ => true
  | _ => false
  end.

(** ** [nn.Sequential]

    A [Sequential] keeps its children in the ordered dictionary [_modules].
    [add_module name m] is [self._modules[name] = m]: a new key goes to the
    end, an existing key keeps its place and gets the new module. *)

Definition sequential : Type := list (string * module).

Fixpoint add_module (s : sequential) (name : string) (m : module) : sequential :=
  match s with
  | [] => [(name, m)]
  | (k, old) :: rest =>
      if String.eqb k name then (k, m) :: rest
      else (k, old) :: add_module rest name m
  end.

(** [nn.Sequential(m)] names its only child ["0"]. *)
Definition Sequential1 (m : module) : sequential := [("0", m)].

(** [s[i]] *)
Definition item (s : sequential) (i : nat) : option module :=
  option_map snd (nth_error s i).

(** [s._modules.get(name)] *)
Fixpoint get (s : sequential) (name : string) : option module :=
  match s with
  | [] => None
  | (k, m) :: rest => if String.eqb k name then Some m else get rest name
  end.

(** [s[:n]] *)
Definition slice_to (s : sequential) (n : nat) : sequential := firstn n s.

(** ['{}'.format(i)] *)
Definition format_int (i : nat) : string :=
  NilEmpty.string_of_uint (Nat.to_uint i).

(** [name in names] *)
Definition mem (name : string) (names : list string) : bool :=
  existsb (String.eqb name) names.

(** The heap of [loss] attributes, by object identity; the latest binding of
    an identity is the first one found. *)
Definition heap : Type := list (nat * float).

Fixpoint getattr_loss (h : heap) (o : nat) : option float :=
  match h with
  | [] => None
  | (o', v) :: rest => if Nat.eqb o' o then Some v else getattr_loss rest o
  end.

Definition setattr_loss (h : heap) (o : nat) (v : float) : heap := (o, v) :: h.

(** ** The module-level configuration *)

Definition content_layers_default : list string := ["conv_4"].
Definition style_layers_default : list string :=
  ["conv_1"; "conv_2"; "conv_3"; "conv_4"; "conv_5"].

(** ** PyTorch and the sibling modules

    What the program takes from outside [train.py]: the forward functions of
    the layers and of [utils.Normalization], the two numeric primitives of
    the module [loss], autograd, and the L-BFGS optimiser.

    One call of [LBFGS.step(closure)] evaluates the closure once and then,
    as it decides from the loss and the gradient, moves the parameter and
    evaluates the closure again, any finite number of times; its last
    update of the parameter, when the iterations of the step are used up,
    is followed by no evaluation.  A [plan] is what remains of a step after
    an evaluation: to end, leaving the parameter at [x], or to move the
    parameter to [x], evaluate and go on. *)

Inductive plan (S : Type) : Type :=
| Return (x : Tensor) (o : S)
| Evaluate (x : Tensor) (k : float -> Tensor -> plan S).

Arguments Return {S} x o.
Arguments Evaluate {S} x k.

Class Torch : Type := {
  (** the forward function of a layer of the extractor *)
  layer_forward : layer -> Tensor -> Tensor;
  (** [utils.Normalization(mean, std).forward] *)
  normalize : Tensor -> Tensor -> Tensor -> Tensor;
  (** the Gram-matrix summary of a feature map *)
  gram_matrix : Tensor -> Tensor;
  (** the discrepancy between two tensors *)
  mse_loss : Tensor -> Tensor -> float;
  (** the derivative of the total loss in the candidate image: the graph,
      the style and content probes, the two weights, the image *)
  autograd : sequential -> list module -> list module -> float -> float ->
             Tensor -> Tensor;
  (** [backward] on a total loss that has terms left from the construction,
      the losses of probes that are no children of the graph any more and
      so still carry the autograd graph of the forward pass that made them:
      from the number of evaluations before this one and those probes, an
      exception (the graph of such a term is freed by the first pass that
      goes through it), or the parameters that receive gradient through
      them *)
  backward_stale : Z -> list module -> result (list string);
  (** [optim.LBFGS]: its state, the state of a new optimiser, and what a
      step does after its first evaluation, from the parameter, the loss
      and the flat gradient *)
  lbfgs_state : Type;
  lbfgs_init : lbfgs_state;
  lbfgs : lbfgs_state -> Tensor -> float -> Tensor -> plan lbfgs_state
}.

Section Train.

Context {torch : Torch}.

(** Modelled from the spec: the classes [ContentLoss] and [StyleLoss] of the
    module [loss], which is not part of the sources at hand.  A probe keeps
    a frozen target; its forward pass stores, as its [loss] attribute, the
    discrepancy between the statistic of its input (the feature map itself,
    or its Gram matrix) and the target, and returns its input unchanged. *)
Definition ContentLoss_new (o : nat) (target : Tensor) : module :=
  ContentLoss o target.
Definition StyleLoss_new (o : nat) (target_feature : Tensor) : module :=
  StyleLoss o (gram_matrix target_feature).

Definition module_forward (m : module) (x : Tensor) (h : heap) : Tensor * heap :=
  match m with
  | Normalization mean std => (normalize mean std x, h)
  | Net l => (layer_forward l x, h)
  | ContentLoss o target => (x, setattr_loss h o (mse_loss x target))
  | StyleLoss o target => (x, setattr_loss h o (mse_loss (gram_matrix x) target))
  end.

(** [model(x)]: the children in order, each on the output of the one before. *)
Fixpoint forward (s : sequential) (x : Tensor) (h : heap) : Tensor * heap :=
  match s with
  | [] => (x, h)
  | (_, m) :: rest =>
      let (y, h') := module_forward m x h in forward rest y h'
  end.

(** *** [get_style_model_and_losses] *)

(** Lines 46-57: the name of a child, the counter after it and the module
    that goes into the graph. *)
Definition name_layer (i : nat) (l : layer) : result (nat * string * layer) :=
  match cls l with
  | Conv2d => Ok (S i, "conv_" ++ format_int (S i), l)
  | ReLU => Ok (i, "relu_" ++ format_int i, ReLU_out_of_place)
  | MaxPool2d => Ok (i, "pool_" ++ format_int i, l)
  | BatchNorm2d => Ok (i, "bn_" ++ format_int i, l)
  | Other c => Raise (RuntimeError ("Unrecognized layer: " ++ c))
  end.

(** The local variables of the function while it walks the extractor. *)
Record builder : Type := Builder {
  model : sequential;
  content_losses : list module;
  style_losses : list module;
  counter : nat;
  attrs : heap
}.

(** The identity of the next object to be created. *)
Definition fresh (b : builder) : nat :=
  List.length (content_losses b) + List.length (style_losses b).

(** Lines 61-66. *)
Definition attach_content (content_img : Tensor) (b : builder) : builder :=
  let (target, h) := forward (model b) content_img (attrs b) in
  let content_loss := ContentLoss_new (fresh b) target in
  {| model := add_module (model b) ("content_loss_" ++ format_int (counter b)) content_loss;
     content_losses := (content_losses b ++ [content_loss])%list;
     style_losses := style_losses b;
     counter := counter b;
     attrs := h |}.

(** Lines 68-73. *)
Definition attach_style (style_img : Tensor) (b : builder) : builder :=
  let (target_feature, h) := forward (model b) style_img (attrs b) in
  let style_loss := StyleLoss_new (fresh b) target_feature in
  {| model := add_module (model b) ("style_loss_" ++ format_int (counter b)) style_loss;
     content_losses := content_losses b;
     style_losses := (style_losses b ++ [style_loss])%list;
     counter := counter b;
     attrs := h |}.

(** Lines 46-73: the body of the walk. *)
Definition visit (style_img content_img : Tensor)
    (content_layers style_layers : list string)
    (b : builder) (l : layer) : result builder :=
  '(i, name, l') <- name_layer (counter b) l ;;
  let b0 := {| model := add_module (model b) name (Net l');
               content_losses := content_losses b;
               style_losses := style_losses b;
               counter := i;
               attrs := attrs b |} in
  let b1 := if mem name content_layers then attach_content content_img b0 else b0 in
  let b2 := if mem name style_layers then attach_style style_img b1 else b1 in
  Ok b2.

(** Lines 45-73: [for layer in cnn.children()]. *)
Fixpoint walk (style_img content_img : Tensor)
    (content_layers style_layers : list string)
    (cnn : list layer) (b : builder) : result builder :=
  match cnn with
  | [] => Ok b
  | l :: rest =>
      b' <- visit style_img content_img content_layers style_layers b l ;;
      walk style_img content_img content_layers style_layers rest b'
  end.

(** Lines 76-78: the value of [i] when the loop over
    [range(j, -1, -1)] is left, at the first loss module or at 0 ([j] is
    an index of the graph, so that [s[j]] is there). *)
Fixpoint scan_down (s : sequential) (j : nat) : nat :=
  match item s j with
  | Some m => if is_loss m then j else match j with 0 => 0 | S j' => scan_down s j' end
  | None => match j with 0 => 0 | S j' => scan_down s j' end
  end.

(** The range is empty for an empty graph, and [i] keeps its value then. *)
Definition trim_index (s : sequential) (i : nat) : nat :=
  match List.length s with
  | 0 => i
  | S j => scan_down s j
  end.

(** Lines 36-43: the locals before the walk. *)
Definition start (normalization_mean normalization_std : Tensor) : builder :=
  let normalization := Normalization normalization_mean normalization_std in
  {| model := Sequential1 normalization;
     content_losses := []; style_losses := [];
     counter := 0; attrs := [] |}.

(** What the function returns, with the heap that holds the [loss]
    attributes of the loss modules it created. *)
Record built : Type := Built {
  graph : sequential;
  style_probes : list module;
  content_probes : list module;
  probe_attrs : heap
}.

Definition get_style_model_and_losses (cnn : list layer)
    (normalization_mean normalization_std : Tensor)
    (style_img content_img : Tensor)
    (content_layers style_layers : list string) : result built :=
  let b0 := start normalization_mean normalization_std in
  b <- walk style_img content_img content_layers style_layers cnn b0 ;;
  let i := trim_index (model b) (counter b) in
  Ok {| graph := slice_to (model b) (i + 1);
        style_probes := style_losses b;
        content_probes := content_losses b;
        probe_attrs := attrs b |}.

(** *** The values of the optimisation loop *)

(** [t.clamp_(lo, hi)], elementwise: [min(max(v, lo), hi)] for [lo <= hi];
    an infinity goes to the bound on its side, and NaN stays NaN. *)
Definition Qclamp (lo hi v : Q) : Q :=
  if Qle_bool v lo then lo else if Qle_bool hi v then hi else v.

Definition fclamp (lo hi : Q) (v : float) : float :=
  match v with
  | Finite q => Finite (Qclamp lo hi q)
  | PosInf => Finite hi
  | NegInf => Finite lo
  | NaN => NaN
  end.

Definition clamp_ (lo hi : Q) (t : Tensor) : Tensor := map (fclamp lo hi) t.

(** A Python number, as the two weights are: an [int] or a [float]. *)
Inductive pynum : Type :=
| PInt (z : Z)
| PFloat (f : float).

Definition num_value (w : pynum) : float :=
  match w with
  | PInt z => Finite (inject_Z z)
  | PFloat f => f
  end.

(** A score of the closure: the Python [int] it starts as, the [float] it
    becomes when multiplied by a float, or a scalar tensor once a [loss]
    attribute was added to it. *)
Inductive pyval : Type :=
| PyInt (z : Z)
| PyFloat (f : float)
| PyTensor (f : float).

Definition py_float (v : pyval) : float :=
  match v with
  | PyInt z => Finite (inject_Z z)
  | PyFloat f | PyTensor f => f
  end.

Definition py_add (a b : pyval) : pyval :=
  match a, b with
  | PyInt x, PyInt y => PyInt (x + y)
  | PyTensor _, _ | _, PyTensor _ => PyTensor (fadd (py_float a) (py_float b))
  | _, _ => PyFloat (fadd (py_float a) (py_float b))
  end.

(** [v *= w] for a Python number [w]. *)
Definition py_mul (v : pyval) (w : pynum) : pyval :=
  match v, w with
  | PyInt x, PInt y => PyInt (x * y)
  | PyTensor x, _ => PyTensor (fmul x (num_value w))
  | _, _ => PyFloat (fmul (py_float v) (num_value w))
  end.

(** [type(v).__name__] *)
Definition type_name (v : pyval) : string :=
  match v with
  | PyInt _ => "int"
  | PyFloat _ => "float"
  | PyTensor _ => "Tensor"
  end.

(** The exception of an attribute that an object of a type does not have. *)
Definition no_attribute (type attr : string) : exn :=
  AttributeError ("'" ++ type ++ "' object has no attribute '" ++ attr ++ "'").

(** [v.item()]: a method of tensors only. *)
Definition py_item (v : pyval) : result float :=
  match v with
  | PyTensor x => Ok x
  | _ => Raise (no_attribute (type_name v) "item")
  end.

(** [m.loss] *)
Definition loss_of (h : heap) (m : module) : result pyval :=
  match m with
  | ContentLoss o _ =>
      match getattr_loss h o with
      | Some v => Ok (PyTensor v)
      | None => Raise (AttributeError "'ContentLoss' object has no attribute 'loss'")
      end
  | StyleLoss o _ =>
      match getattr_loss h o with
      | Some v => Ok (PyTensor v)
      | None => Raise (AttributeError "'StyleLoss' object has no attribute 'loss'")
      end
  | Normalization _ _ =>
      Raise (AttributeError "'Normalization' object has no attribute 'loss'")
  | Net _ =>
      Raise (AttributeError "object has no attribute 'loss'")
  end.

(** [for m in probes: score += m.loss] *)
Fixpoint accumulate (h : heap) (probes : list module) (score : pyval) : result pyval :=
  match probes with
  | [] => Ok score
  | m :: rest => v <- loss_of h m ;; accumulate h rest (py_add score v)
  end.

(** A line of the console: a text, or the progress report of a run. *)
Inductive line : Type :=
| Text (s : string)
| Report (run : Z) (style_score content_score : float).

(** The state the loop works on.  [param_grads], [input_grads],
    [forwarded] and [outer_steps] are ghost: the parameters that received
    gradient in an evaluation so far; what each evaluation left in
    [input_img.grad], latest first; the tensors [model] was called on by
    the closure, latest first; and the number of calls of
    [optimizer.step]. *)
Record env : Type := Env {
  input_img : Tensor;
  input_requires_grad : bool;
  input_grad : option Tensor;
  param_grads : list string;
  input_grads : list (option Tensor);
  run : Z;
  loss_attrs : heap;
  stdout : list line;
  forwarded : list Tensor;
  outer_steps : nat
}.

(** [module.requires_grad_(flag)] *)
Definition requires_grad_ (flag : bool) (s : sequential) : sequential :=
  map (fun km : string * module =>
         match snd km with
         | Net l =>
             (fst km,
              Net {| cls := cls l; inplace := inplace l;
                     parameters := map (fun p => {| data := data p; requires_grad := flag |})
                                       (parameters l) |})
         | m => (fst km, m)
         end) s.

(** The children of the graph one of whose parameters requires gradient. *)
Definition trainable (s : sequential) : list string :=
  map fst
    (filter (fun km : string * module =>
               match snd km with
               | Net l => existsb requires_grad (parameters l)
               | _ => false
               end) s).

(** The module [m] is the object [p]. *)
Definition same_object (m p : module) : bool :=
  match m, p with
  | ContentLoss o _, ContentLoss o' _ | StyleLoss o _, StyleLoss o' _ => Nat.eqb o o'
  | _, _ => false
  end.

(** The probes that are no children of the graph: a forward pass of the
    graph does not reach them, and their [loss] is the one that the
    construction left. *)
Definition stale (model : sequential) (probes : list module) : list module :=
  filter (fun p => negb (existsb (fun km : string * module => same_object (snd km) p)
                                 model)) probes.

(** [loss.backward()]: a method of tensors only; the leaves that require
    gradient receive it.  With a loss left from the construction among the
    terms, the outcome is the library's. *)
Definition backward (model : sequential) (style_losses content_losses : list module)
    (style_weight content_weight : pynum) (loss : pyval) (e : env)
    : result (option Tensor * list string) :=
  match loss with
  | PyTensor _ =>
      let g := if input_requires_grad e
               then Some (autograd model style_losses content_losses
                                   (num_value style_weight) (num_value content_weight)
                                   (input_img e))
               else input_grad e in
      match stale model (style_losses ++ content_losses) with
      | [] =>
          if input_requires_grad e || negb (Nat.eqb (List.length (trainable model)) 0)
          then Ok (g, (param_grads e ++ trainable model)%list)
          else Raise (RuntimeError "element 0 of tensors does not require grad and does not have a grad_fn")
      | left_over =>
          through <- backward_stale (run e) left_over ;;
          Ok (g, (param_grads e ++ trainable model ++ through)%list)
      end
  | _ => Raise (no_attribute (type_name loss) "backward")
  end.

(** Lines 135-164: one evaluation of [closure]. *)
Definition closure (model : sequential) (style_losses content_losses : list module)
    (style_weight content_weight : pynum) (e : env) : result (env * pyval) :=
  (* with torch.no_grad(): input_img.clamp_(0, 1) *)
  let x := clamp_ 0 1 (input_img e) in
  (* optimizer.zero_grad(); model(input_img) *)
  let (_, h) := forward model x (loss_attrs e) in
  style_score <- accumulate h style_losses (PyInt 0) ;;
  content_score <- accumulate h content_losses (PyInt 0) ;;
  let style_score := py_mul style_score style_weight in
  let content_score := py_mul content_score content_weight in
  let loss := py_add style_score content_score in
  let e1 := {| input_img := x; input_requires_grad := input_requires_grad e;
               input_grad := None; param_grads := param_grads e;
               input_grads := input_grads e;
               run := run e; loss_attrs := h; stdout := stdout e;
               forwarded := x :: forwarded e; outer_steps := outer_steps e |} in
  '(g, pg) <- backward model style_losses content_losses style_weight content_weight loss e1 ;;
  let run' := (run e + 1)%Z in
  out <- (if (run' mod 50 =? 0)%Z
          then s <- py_item style_score ;;
               c <- py_item content_score ;;
               Ok (stdout e ++ [Report run' s c])%list
          else Ok (stdout e)) ;;
  Ok ({| input_img := x; input_requires_grad := input_requires_grad e;
         input_grad := g; param_grads := pg;
         input_grads := g :: input_grads e;
         run := run'; loss_attrs := h; stdout := out;
         forwarded := x :: forwarded e; outer_steps := outer_steps e |},
      py_add style_score content_score).

(** *** [optim.LBFGS] *)

(** Lines 84-96: [optim.LBFGS([input_img])].  The one parameter of the
    optimiser is the image that the state of the loop holds. *)
Definition get_input_optimizer (input_img : Tensor) : lbfgs_state := lbfgs_init.

Definition flat_grad (e : env) : Tensor :=
  match input_grad e with
  | Some g => g
  | None => map (fun _ => Finite 0) (input_img e)
  end.

Definition set_input (e : env) (x : Tensor) : env :=
  {| input_img := x; input_requires_grad := input_requires_grad e;
     input_grad := input_grad e; param_grads := param_grads e;
     input_grads := input_grads e;
     run := run e; loss_attrs := loss_attrs e; stdout := stdout e;
     forwarded := forwarded e; outer_steps := outer_steps e |}.

Fixpoint follow (cl : env -> result (env * pyval)) (p : plan lbfgs_state) (e : env)
    : result (env * lbfgs_state) :=
  match p with
  | Return x o => Ok (set_input e x, o)
  | Evaluate x k =>
      '(e', loss) <- cl (set_input e x) ;;
      follow cl (k (py_float loss) (flat_grad e')) e'
  end.

(** [optimizer.step(closure)] *)
Definition LBFGS_step (cl : env -> result (env * pyval)) (o : lbfgs_state) (e : env)
    : result (env * lbfgs_state) :=
  '(e1, orig_loss) <- cl e ;;
  follow cl (lbfgs o (input_img e1) (py_float orig_loss) (flat_grad e1)) e1.

(** *** [run_style_transfer] *)

Definition count_step (e : env) : env :=
  {| input_img := input_img e; input_requires_grad := input_requires_grad e;
     input_grad := input_grad e; param_grads := param_grads e;
     input_grads := input_grads e;
     run := run e; loss_attrs := loss_attrs e; stdout := stdout e;
     forwarded := forwarded e; outer_steps := S (outer_steps e) |}.

(** Lines 133-166: [while run[0] <= num_steps: optimizer.step(closure)].
    [None] is for a loop that is still running when the fuel is spent. *)
Fixpoint while_loop (fuel : nat) (cl : env -> result (env * pyval)) (num_steps : Z)
    (o : lbfgs_state) (e : env) : option (result env) :=
  match fuel with
  | O => None
  | S fuel' =>
      if (run e <=? num_steps)%Z then
        match LBFGS_step cl o (count_step e) with
        | Ok (e', o') => while_loop fuel' cl num_steps o' e'
        | Raise x => Some (Raise x)
        end
      else Some (Ok e)
  end.

(** Lines 124-171, on what the builder returned. *)
Definition optimize (fuel : nat) (b : built) (input : Tensor)
    (num_steps : Z) (style_weight content_weight : pynum) : option (result env) :=
  (* input_img.requires_grad_(True); model.eval(); model.requires_grad_(False) *)
  let model := requires_grad_ false (graph b) in
  let optimizer := get_input_optimizer input in
  let e0 := {| input_img := input; input_requires_grad := true;
               input_grad := None; param_grads := []; input_grads := [];
               run := 0; loss_attrs := probe_attrs b;
               stdout := [Text "Building the style transfer model.."; Text "Optimizing.."];
               forwarded := []; outer_steps := 0 |} in
  match while_loop fuel (closure model (style_probes b) (content_probes b)
                                 style_weight content_weight)
                   num_steps optimizer e0 with
  | None => None
  | Some (Raise x) => Some (Raise x)
  | Some (Ok e) =>
      (* with torch.no_grad(): input_img.clamp_(0, 1) *)
      Some (Ok (set_input e (clamp_ 0 1 (input_img e))))
  end.

(** The function with the configured layer names made explicit: the call of
    line 121 leaves them to the defaults.  The result is the state at the
    [return], whose [input_img] is the image returned. *)
Definition run_style_transfer_with (content_layers style_layers : list string)
    (fuel : nat) (cnn : list layer) (normalization_mean normalization_std : Tensor)
    (content_img style_img input_img : Tensor)
    (num_steps : Z) (style_weight content_weight : pynum) : option (result env) :=
  match get_style_model_and_losses cnn normalization_mean normalization_std
          style_img content_img content_layers style_layers with
  | Raise x => Some (Raise x)
  | Ok b => optimize fuel b input_img num_steps style_weight content_weight
  end.

Definition run_style_transfer :=
  run_style_transfer_with content_layers_default style_layers_default.

End Train.

(** ** Notions of the specification *)

(** The layer kinds the walk recognises. *)
Definition recognized (l : layer) : bool :=
  match cls l with
  | Other _ => false
  | _ => true
  end.

Definition is_conv (l : layer) : bool :=
  match cls l with
  | Conv2d => true
  | _ => false
  end.

(** The number of convolutions among the layers [ls]. *)
Definition count_conv (ls : list layer) : nat := List.length (filter is_conv ls).

Definition kind_prefix (c : layer_class) : string :=
  match c with
  | Conv2d => "conv_"
  | ReLU => "relu_"
  | MaxPool2d => "pool_"
  | BatchNorm2d => "bn_"
  | Other _ => ""
  end.

(** The module that stands for a layer in the graph: the layer itself, or a
    new out-of-place activation. *)
Definition installed (l : layer) : module :=
  match cls l with
  | ReLU => Net ReLU_out_of_place
  | _ => Net l
  end.

(** The names the walk generates for the layers [cnn], the counter being
    [i] before the first of them. *)
Fixpoint layer_names (i : nat) (cnn : list layer) : list string :=
  match cnn with
  | [] => []
  | l :: rest =>
      match name_layer i l with
      | Ok (i', name, _) => name :: layer_names i' rest
      | Raise _ => []
      end
  end.

(** No configured name is among the generated ones. *)
Definition absent (names configured : list string) : bool :=
  forallb (fun name => negb (mem name configured)) names.

(** A name of the content set or of the style set. *)
Definition configured (content_layers style_layers : list string) (name : string) : bool :=
  mem name content_layers || mem name style_layers.

(** The node count of the specification: the length of the extractor
    prefix that ends at the last layer whose generated name is configured,
    one normalisation stage, and one probe for each layer named in the
    content set and for each layer named in the style set. *)
Fixpoint prefix_to_last_probe_layer (content_layers style_layers names : list string) : nat :=
  match names with
  | [] => 0
  | name :: rest =>
      match prefix_to_last_probe_layer content_layers style_layers rest with
      | 0 => if configured content_layers style_layers name then 1 else 0
      | S k => S (S k)
      end
  end.

Definition probes_inserted (content_layers style_layers names : list string) : nat :=
  List.length (filter (fun name => mem name content_layers) names) +
  List.length (filter (fun name => mem name style_layers) names).

Definition specified_node_count (content_layers style_layers names : list string) : nat :=
  prefix_to_last_probe_layer content_layers style_layers names + 1 +
  probes_inserted content_layers style_layers names.

(** The names under which the visit of a layer called [name], with the
    counter at [i], registers modules: the layer, then its probes. *)
Definition entry_names (content_layers style_layers : list string)
    (i : nat) (name : string) : list string :=
  (name ::
   (if mem name content_layers then [("content_loss_" ++ format_int i)%string] else []) ++
   (if mem name style_layers then [("style_loss_" ++ format_int i)%string] else []))%list.

(** All the names under which the walk of [cnn] registers modules. *)
Fixpoint module_names (content_layers style_layers : list string)
    (i : nat) (cnn : list layer) : list string :=
  match cnn with
  | [] => []
  | l :: rest =>
      match name_layer i l with
      | Ok (i', name, _) =>
          (entry_names content_layers style_layers i' name ++
           module_names content_layers style_layers i' rest)%list
      | Raise _ => []
      end
  end.

(** Which children of a graph are loss modules, and the same for what the
    visit of a layer called [name] adds when no name clashes. *)
Definition flags (s : sequential) : list bool :=
  map (fun km : string * module => is_loss (snd km)) s.

Definition entry_flags (content_layers style_layers : list string)
    (name : string) : list bool :=
  (false ::
   (if mem name content_layers then [true] else []) ++
   (if mem name style_layers then [true] else []))%list.

(** The length of the prefix that ends at the last [true], 0 without one. *)
Fixpoint cut (bs : list bool) : nat :=
  match bs with
  | [] => 0
  | b :: rest =>
      match cut rest with
      | 0 => if b then 1 else 0
      | S k => S (S k)
      end
  end.

(** All the names are names of convolutions, as the shipped ones are. *)
Definition conv_names (names : list string) : bool :=
  forallb (String.prefix "conv_") names.

(** One of the generated names is configured. *)
Definition hits (configured names : list string) : bool :=
  existsb (fun name => mem name configured) names.

(** The name of a probe made while the counter was [n]. *)
Definition probe_key (k : string) (n : nat) : Prop :=
  k = "content_loss_" ++ format_int n \/ k = "style_loss_" ++ format_int n.

(** The probes [ps] are children of the graph [s], and the loss modules of
    the graph have the names of probes made before the counter was
    [bound]. *)
Definition registered (s : sequential) (ps : list module) (bound : nat) : Prop :=
  (forall p, In p ps -> is_loss p = true /\ exists k, In (k, p) s) /\
  (forall k p, In (k, p) s -> is_loss p = true ->
               exists n, n < bound /\ probe_key k n).

Definition probes_registered (b : builder) : Prop :=
  registered (model b) (content_losses b ++ style_losses b) (S (counter b)).

(** The position of a child in the graph. *)
Fixpoint index_of (s : sequential) (name : string) : option nat :=
  match s with
  | [] => None
  | (k, _) :: rest =>
      if String.eqb k name then Some 0 else option_map S (index_of rest name)
  end.

(** No child of the graph is a loss module. *)
Definition no_probe (s : sequential) : bool :=
  forallb (fun km : string * module => negb (is_loss (snd km))) s.

Definition unit_interval (v : float) : Prop :=
  match v with
  | Finite q => (0 <= q /\ q <= 1)%Q
  | _ => False
  end.

(** What a pixel is after the clamp: a number of [0,1], or NaN. *)
Definition clamped (v : float) : Prop := v = NaN \/ unit_interval v.

(** The pixel [c] is the pixel [v] clamped to [0,1], as the
    documentation of [torch.clamp] has it: [min(max(v, 0), 1)], where NaN
    stays NaN. *)
Definition clamp_of (v c : float) : Prop :=
  match v with
  | NaN => c = NaN
  | PosInf => c = Finite 1
  | NegInf => c = Finite 0
  | Finite q =>
      ((q < 0)%Q -> c = Finite 0) /\
      ((1 < q)%Q -> c = Finite 1) /\
      ((0 <= q)%Q -> (q <= 1)%Q -> feq c v)
  end.

(** The sum of the discrepancies that the probes hold in the heap [h]. *)
Definition discrepancy (h : heap) (m : module) : float :=
  match m with
  | ContentLoss o _ | StyleLoss o _ =>
      match getattr_loss h o with Some v => v | None => Finite 0 end
  | _ => Finite 0
  end.

Definition total_discrepancy (h : heap) (probes : list module) : float :=
  fold_right fadd (Finite 0) (map (discrepancy h) probes).

Definition is_tensor (v : pyval) : bool :=
  match v with
  | PyTensor _ => true
  | _ => false
  end.

Definition is_int (w : pynum) : bool :=
  match w with
  | PInt _ => true
  | PFloat _ => false
  end.

(** The type of [0 * w]. *)
Definition zero_times (w : pynum) : string :=
  if is_int w then "int" else "float".

(** Every forward pass so far read a clamped image, and each evaluation
    counted by [run] made one. *)
Definition recorded (e : env) : Prop :=
  Forall (Forall clamped) (forwarded e) /\
  Z.of_nat (List.length (forwarded e)) = run e.

(** ** A small instance, to run the definitions *)

(** The fraction of a finite value in lowest terms. *)
Definition fred (v : float) : float :=
  match v with
  | Finite q => Finite (Qred q)
  | _ => v
  end.

Definition toy_layer_forward (l : layer) (x : Tensor) : Tensor :=
  match cls l with
  | Conv2d => map (fun v => fred (fadd (fmul v (Finite 2)) (Finite 1))) x
  | _ => x
  end.

Fixpoint toy_mse (a b : Tensor) : float :=
  match a, b with
  | x :: a', y :: b' =>
      let d := fadd x (fmul (Finite (-1)) y) in
      fred (fadd (fmul d d) (toy_mse a' b'))
  | _, _ => Finite 0
  end.

(** The first pass through a loss left from the construction frees its
    graph; the next one fails. *)
Definition toy_backward_stale (n : Z) (left_over : list module) : result (list string) :=
  if (n =? 0)%Z then Ok []
  else Raise (RuntimeError "Trying to backward through the graph a second time").

(** An optimiser that stops after the first evaluation of each step. *)
Definition toy : Torch := {|
  layer_forward := toy_layer_forward;
  normalize := fun _ _ x => x;
  gram_matrix := fun x => x;
  mse_loss := toy_mse;
  autograd := fun _ _ _ _ _ x => map (fun _ => Finite 0) x;
  backward_stale := toy_backward_stale;
  lbfgs_state := unit;
  lbfgs_init := tt;
  lbfgs := fun _ x _ _ => Return x tt
|}.

(** An optimiser that, in each step, moves the image, evaluates once more
    and ends with a last move. *)
Definition toy_search : Torch := {|
  layer_forward := toy_layer_forward;
  normalize := fun _ _ x => x;
  gram_matrix := fun x => x;
  mse_loss := toy_mse;
  autograd := fun _ _ _ _ _ x => map (fun _ => Finite 1) x;
  backward_stale := toy_backward_stale;
  lbfgs_state := unit;
  lbfgs_init := tt;
  lbfgs := fun _ x _ g =>
             Evaluate (map (fun v => fred (fadd v (Finite 2))) x)
                      (fun _ _ => Return (map (fun v => fred (fadd v (Finite 3))) x) tt)
|}.

Definition conv : layer :=
  {| cls := Conv2d; inplace := false;
     parameters := [ {| data := [Finite 1]; requires_grad := true |} ] |}.
Definition relu : layer :=
  {| cls := ReLU; inplace := true; parameters := [] |}.
Definition pool : layer :=
  {| cls := MaxPool2d; inplace := false; parameters := [] |}.
Definition dropout : layer :=
  {| cls := Other "Dropout"; inplace := false; parameters := [] |}.

(** A graph with one probe of each kind after a convolution, and a state of
    the loop on it. *)
Definition toy_model : sequential :=
  [("0", Normalization [] []);
   ("conv_1", Net conv);
   ("content_loss_1", ContentLoss 0 [Finite 3]);
   ("style_loss_1", StyleLoss 1 [Finite 2])].

Definition toy_env : env :=
  {| input_img := [Finite (3 # 2); Finite (1 # 2)]; input_requires_grad := true;
     input_grad := None; param_grads := []; input_grads := [];
     run := 0; loss_attrs := []; stdout := [];
     forwarded := []; outer_steps := 0 |}.

(** ** Further notions *)

(** A child that is a normalisation stage. *)
Definition is_normalization (m : module) : bool :=
  match m with
  | Normalization _ _ => true
  | _ => false
  end.

Definition is_content_loss (m : module) : bool :=
  match m with
  | ContentLoss _ _ => true
  | _ => false
  end.

Definition is_style_loss (m : module) : bool :=
  match m with
  | StyleLoss _ _ => true
  | _ => false
  end.

(** The strings of a list are pairwise distinct. *)
Fixpoint distinct (names : list string) : bool :=
  match names with
  | [] => true
  | name :: rest => negb (mem name rest) && distinct rest
  end.

(** The runs of the progress reports of a console, in order. *)
Fixpoint report_runs (out : list line) : list Z :=
  match out with
  | [] => []
  | Text _ :: rest => report_runs rest
  | Report r _ _ :: rest => r :: report_runs rest
  end.

(** The multiples of 50 from 50 up to [r]. *)
Definition fifties (r : Z) : list Z :=
  map (fun k => (50 * Z.of_nat k)%Z) (seq 1 (Z.to_nat (r / 50))).

(** The target of every probe of the graph [s] is the statistic of its own
    image at the place of the probe: the features of the content image, or
    the Gram matrix of the features of the style image, that the children
    before the probe compute. *)
Definition targets_in_place {torch : Torch} (content_img style_img : Tensor)
    (s : sequential) : Prop :=
  forall j k o t,
    (nth_error s j = Some (k, ContentLoss o t) ->
     t = fst (forward (firstn j s) content_img [])) /\
    (nth_error s j = Some (k, StyleLoss o t) ->
     t = gram_matrix (fst (forward (firstn j s) style_img []))).

(** The name of a layer that is no convolution, made while the counter is
    [i]: the only names under which the walk can still replace a child. *)
Definition current_key (i : nat) (k : string) : Prop :=
  exists l, recognized l = true /\ is_conv l = false /\
            k = kind_prefix (cls l) ++ format_int i.

(** The names that no later layer or probe takes once the counter is [i]. *)
Definition settled_key (i : nat) (k : string) : Prop :=
  k = "0" \/
  (exists n, n <= i /\ probe_key k n) \/
  (exists n, n <= i /\ k = "conv_" ++ format_int n) \/
  (exists n, n < i /\ current_key n k).

(** The names in the graph right after the visit of the convolution that
    moves the counter to [S i] has added the layer, and the same with the
    name of its content probe. *)
Definition layer_added_key (i : nat) (k : string) : Prop :=
  settled_key i k \/ current_key i k \/ k = "conv_" ++ format_int (S i).

Definition content_added_key (i : nat) (k : string) : Prop :=
  layer_added_key i k \/ k = "content_loss_" ++ format_int (S i).

(** The graph under construction is made of children that no later step
    replaces, the probes with their targets in place among them, followed
    by layers that are no convolution, named with the current counter. *)
Definition probes_settled {torch : Torch} (content_img style_img : Tensor)
    (b : builder) : Prop :=
  exists front back,
    model b = (front ++ back)%list /\
    (forall k, In k (map fst front) -> settled_key (counter b) k) /\
    (forall k m, In (k, m) back -> is_loss m = false /\ current_key (counter b) k) /\
    targets_in_place content_img style_img front.

(** ** The graph builder *)

Section Builder_properties.

Context {torch : Torch}.

Variables (style_img content_img : Tensor).
Variables (content_layers style_layers : list string).

Lemma name_layer_recognized (i : nat) (l : layer) :
  recognized l = true ->
  name_layer i l =
    Ok ((if is_conv l then S i else i),
        kind_prefix (cls l) ++ format_int (if is_conv l then S i else i),
        match installed l with Net l' => l' | _ => l end).
Proof.
  unfold recognized, name_layer, is_conv, installed.
  destruct (cls l); intros E; try reflexivity; discriminate E.
Qed.

Lemma name_layer_unrecognized (i : nat) (l : layer) (c : string) :
  cls l = Other c ->
  name_layer i l = Raise (RuntimeError ("Unrecognized layer: " ++ c)).
Proof. unfold name_layer. intros ->. reflexivity. Qed.

Lemma visit_recognized (b : builder) (l : layer) :
  recognized l = true ->
  exists b', visit style_img content_img content_layers style_layers b l = Ok b'.
Proof.
  intros R. unfold visit. rewrite (name_layer_recognized _ _ R). simpl.
  eexists. reflexivity.
Qed.

Lemma walk_recognized (cnn : list layer) :
  forallb recognized cnn = true ->
  forall b, exists b', walk style_img content_img content_layers style_layers cnn b = Ok b'.
Proof.
  induction cnn as [|l rest IH]; simpl; intros R b.
  - eexists. reflexivity.
  - apply andb_true_iff in R. destruct R as [Rl Rrest].
    destruct (visit_recognized b l Rl) as [b1 E1]. rewrite E1. simpl.
    apply IH, Rrest.
Qed.

Lemma walk_app (pre post : list layer) (b : builder) :
  walk style_img content_img content_layers style_layers (pre ++ post) b =
  bind (walk style_img content_img content_layers style_layers pre b)
       (walk style_img content_img content_layers style_layers post).
Proof.
  revert b. induction pre as [|l rest IH]; simpl; intros b.
  - reflexivity.
  - destruct (visit style_img content_img content_layers style_layers b l) as [b1|x]; simpl.
    + apply IH.
    + reflexivity.
Qed.

Lemma first_unrecognized (cnn : list layer) :
  forallb recognized cnn = false ->
  exists pre l post c,
    cnn = (pre ++ l :: post)%list /\ forallb recognized pre = true /\ cls l = Other c.
Proof.
  induction cnn as [|l rest IH]; simpl; intros E.
  - discriminate E.
  - destruct (recognized l) eqn:R; simpl in E.
    + destruct (IH E) as (pre & l0 & post & c & -> & P & C).
      exists (l :: pre), l0, post, c. simpl. rewrite R, P. auto.
    + unfold recognized in R. destruct (cls l) as [| | | |c] eqn:C; try discriminate R.
      exists [], l, rest, c. auto.
Qed.

(** C4.  An extractor with a layer of an unrecognised kind makes the
    construction fail at the first such layer: the layers before it were
    walked, the visit of that layer raises the error that names its class
    before anything is added for it, and the caller gets this error and no
    graph, whatever comes after the layer. *)
Theorem unrecognized_layer_aborts
    (cnn : list layer) (normalization_mean normalization_std : Tensor) :
  forallb recognized cnn = false ->
  exists pre l post c b,
    cnn = (pre ++ l :: post)%list /\
    forallb recognized pre = true /\
    cls l = Other c /\
    walk style_img content_img content_layers style_layers pre
         (start normalization_mean normalization_std) = Ok b /\
    visit style_img content_img content_layers style_layers b l =
      Raise (RuntimeError ("Unrecognized layer: " ++ c)) /\
    get_style_model_and_losses cnn normalization_mean normalization_std
        style_img content_img content_layers style_layers =
      Raise (RuntimeError ("Unrecognized layer: " ++ c)).
Proof.
  intros E.
  destruct (first_unrecognized cnn E) as (pre & l & post & c & -> & P & C).
  destruct (walk_recognized pre P (start normalization_mean normalization_std)) as [b W].
  assert (V : visit style_img content_img content_layers style_layers b l =
              Raise (RuntimeError ("Unrecognized layer: " ++ c))).
  { unfold visit. rewrite (name_layer_unrecognized _ l c C). reflexivity. }
  exists pre, l, post, c, b. repeat split; auto.
  unfold get_style_model_and_losses. rewrite walk_app, W. simpl. rewrite V. reflexivity.
Qed.

Lemma get_add_module_same (s : sequential) (name : string) (m : module) :
  get (add_module s name m) name = Some m.
Proof.
  induction s as [|[k old] rest IH]; simpl.
  - rewrite String.eqb_refl. reflexivity.
  - destruct (String.eqb k name) eqn:E; simpl; rewrite E; auto.
Qed.

Lemma get_add_module_other (s : sequential) (name' name : string) (m : module) :
  String.eqb name' name = false ->
  get (add_module s name' m) name = get s name.
Proof.
  intros N. induction s as [|[k old] rest IH]; simpl.
  - rewrite N. reflexivity.
  - destruct (String.eqb k name') eqn:E; simpl.
    + apply String.eqb_eq in E. subst k. rewrite N. reflexivity.
    + rewrite IH. reflexivity.
Qed.

Lemma probe_name_not_layer_name (l : layer) (a b : string) :
  recognized l = true ->
  String.eqb ("content_loss_" ++ a) (kind_prefix (cls l) ++ b) = false /\
  String.eqb ("style_loss_" ++ a) (kind_prefix (cls l) ++ b) = false.
Proof.
  unfold recognized. destruct (cls l); simpl; intros R; try (split; reflexivity).
  discriminate R.
Qed.

Lemma get_attach_content (b : builder) (l : layer) (k : string) :
  recognized l = true ->
  get (model (attach_content content_img b)) (kind_prefix (cls l) ++ k) =
  get (model b) (kind_prefix (cls l) ++ k).
Proof.
  intros R. unfold attach_content.
  destruct (forward (model b) content_img (attrs b)) as [t h]. simpl.
  apply get_add_module_other, probe_name_not_layer_name, R.
Qed.

Lemma get_attach_style (b : builder) (l : layer) (k : string) :
  recognized l = true ->
  get (model (attach_style style_img b)) (kind_prefix (cls l) ++ k) =
  get (model b) (kind_prefix (cls l) ++ k).
Proof.
  intros R. unfold attach_style.
  destruct (forward (model b) style_img (attrs b)) as [t h]. simpl.
  apply get_add_module_other, probe_name_not_layer_name, R.
Qed.

Lemma counter_attach_content (b : builder) :
  counter (attach_content content_img b) = counter b.
Proof.
  unfold attach_content.
  destruct (forward (model b) content_img (attrs b)); reflexivity.
Qed.

Lemma counter_attach_style (b : builder) :
  counter (attach_style style_img b) = counter b.
Proof.
  unfold attach_style.
  destruct (forward (model b) style_img (attrs b)); reflexivity.
Qed.

Lemma count_conv_app (pre post : list layer) :
  count_conv (pre ++ post) = count_conv pre + count_conv post.
Proof. unfold count_conv. rewrite filter_app, length_app. reflexivity. Qed.

Lemma count_conv_cons (l : layer) (rest : list layer) :
  count_conv (l :: rest) = (if is_conv l then 1 else 0) + count_conv rest.
Proof. unfold count_conv. simpl. destruct (is_conv l); reflexivity. Qed.

Lemma visit_counter (b b' : builder) (l : layer) :
  visit style_img content_img content_layers style_layers b l = Ok b' ->
  counter b' = (if is_conv l then S (counter b) else counter b).
Proof.
  unfold visit, name_layer, is_conv.
  destruct (cls l); simpl; intros E; try discriminate E;
    injection E as <-;
    repeat match goal with
           | |- context [if ?c then _ else _] => destruct c
           end;
    rewrite ?counter_attach_style, ?counter_attach_content; reflexivity.
Qed.

Lemma walk_counter (cnn : list layer) :
  forall b b',
    walk style_img content_img content_layers style_layers cnn b = Ok b' ->
    counter b' = counter b + count_conv cnn.
Proof.
  induction cnn as [|l rest IH]; simpl; intros b b' W.
  - injection W as <-. unfold count_conv. simpl. lia.
  - destruct (visit style_img content_img content_layers style_layers b l) as [b1|x] eqn:V;
      simpl in W; [|discriminate W].
    rewrite (IH _ _ W), (visit_counter _ _ _ V), count_conv_cons.
    destruct (is_conv l); lia.
Qed.

(** C6.  Walking the extractor in its order, the layer that follows the
    layers [pre] is entered in the graph under the name made of its kind
    and of the counter, which is the number of convolutions seen so far,
    that layer included: the counter grows by one at a convolution and
    keeps its value at every other layer. *)
Theorem layers_named_by_convolution_count
    (pre : list layer) (l : layer) (post : list layer)
    (normalization_mean normalization_std : Tensor) :
  forallb recognized (pre ++ l :: post) = true ->
  exists b b',
    walk style_img content_img content_layers style_layers pre
         (start normalization_mean normalization_std) = Ok b /\
    visit style_img content_img content_layers style_layers b l = Ok b' /\
    counter b = count_conv pre /\
    counter b' = (if is_conv l then S (counter b) else counter b) /\
    counter b' = count_conv (pre ++ [l]) /\
    get (model b') (kind_prefix (cls l) ++ format_int (counter b')) = Some (installed l).
Proof.
  intros R. rewrite forallb_app in R. apply andb_true_iff in R. destruct R as [Rpre R].
  simpl in R. apply andb_true_iff in R. destruct R as [Rl _].
  destruct (walk_recognized pre Rpre (start normalization_mean normalization_std)) as [b W].
  destruct (visit_recognized b l Rl) as [b' V].
  pose proof (walk_counter _ _ _ W) as Cb. simpl in Cb.
  pose proof (visit_counter _ _ _ V) as Cb'.
  exists b, b'. repeat split; auto.
  - rewrite Cb', count_conv_app, Cb, count_conv_cons.
    change (count_conv []) with 0. destruct (is_conv l); lia.
  - rewrite Cb'. revert V. unfold visit.
    rewrite (name_layer_recognized _ _ Rl). simpl. intros V. injection V as <-.
    assert (E : installed l = Net (match installed l with Net l' => l' | _ => l end)).
    { unfold installed. destruct (cls l); reflexivity. }
    rewrite <- E.
    repeat match goal with
           | |- context [if mem ?n ?ns then _ else _] => destruct (mem n ns)
           end;
      rewrite ?(get_attach_style _ l _ Rl), ?(get_attach_content _ l _ Rl); simpl;
      apply get_add_module_same.
Qed.

Lemma no_probe_add_module (s : sequential) (name : string) (m : module) :
  no_probe s = true -> is_loss m = false -> no_probe (add_module s name m) = true.
Proof.
  unfold no_probe. intros NP M. induction s as [|[k old] rest IH]; simpl in *.
  - rewrite M. reflexivity.
  - apply andb_true_iff in NP. destruct NP as [S1 S2].
    destruct (String.eqb k name); simpl.
    + rewrite M, S2. reflexivity.
    + rewrite S1, (IH S2). reflexivity.
Qed.

Lemma scan_down_no_probe (s : sequential) (j : nat) :
  no_probe s = true -> scan_down s j = 0.
Proof.
  intros NP.
  assert (N : forall k m, item s k = Some m -> is_loss m = false).
  { intros k m. unfold item. destruct (nth_error s k) as [[key m']|] eqn:E; simpl; intros I;
      [|discriminate I].
    injection I as <-. apply nth_error_In in E.
    unfold no_probe in NP. rewrite forallb_forall in NP.
    specialize (NP _ E). simpl in NP. destruct (is_loss m'); [discriminate NP|reflexivity]. }
  induction j as [|j IH]; simpl.
  - destruct (item s 0) as [m|] eqn:I; [rewrite (N _ _ I)|]; reflexivity.
  - destruct (item s (S j)) as [m|] eqn:I; [rewrite (N _ _ I)|]; exact IH.
Qed.

Lemma walk_without_probe (normalization_mean normalization_std : Tensor)
    (cnn : list layer) :
  forall b tail,
    forallb recognized cnn = true ->
    absent (layer_names (counter b) cnn) content_layers = true ->
    absent (layer_names (counter b) cnn) style_layers = true ->
    model b = ("0", Normalization normalization_mean normalization_std) :: tail ->
    no_probe tail = true ->
    content_losses b = [] -> style_losses b = [] -> attrs b = [] ->
    exists b' tail',
      walk style_img content_img content_layers style_layers cnn b = Ok b' /\
      model b' = ("0", Normalization normalization_mean normalization_std) :: tail' /\
      no_probe tail' = true /\
      content_losses b' = [] /\ style_losses b' = [] /\ attrs b' = [].
Proof.
  induction cnn as [|l rest IH]; simpl; intros b tail R AC AS M T CL SL AT.
  - exists b, tail. repeat split; assumption.
  - apply andb_true_iff in R. destruct R as [Rl Rrest].
    unfold visit. rewrite (name_layer_recognized _ _ Rl) in *. simpl in *.
    apply andb_true_iff in AC. destruct AC as [AC1 AC2].
    apply andb_true_iff in AS. destruct AS as [AS1 AS2].
    apply negb_true_iff in AC1. apply negb_true_iff in AS1.
    rewrite AC1, AS1.
    eapply IH with (tail := add_module tail _ _); simpl; eauto.
    + rewrite M. cbn [add_module].
      assert (N : String.eqb "0" (kind_prefix (cls l) ++
                    format_int (if is_conv l then S (counter b) else counter b)) = false).
      { unfold recognized in Rl. destruct (cls l); try reflexivity. discriminate Rl. }
      rewrite N. reflexivity.
    + apply no_probe_add_module; auto.
Qed.

(** C10.  When no generated layer name is configured as a content or a
    style layer, no probe is ever inserted, the backward scan ends at index
    0 and the construction returns the graph whose only node is the
    normalisation stage, with empty probe lists. *)
Theorem graph_without_probes_is_normalization
    (cnn : list layer) (normalization_mean normalization_std : Tensor) :
  forallb recognized cnn = true ->
  absent (layer_names 0 cnn) content_layers = true ->
  absent (layer_names 0 cnn) style_layers = true ->
  get_style_model_and_losses cnn normalization_mean normalization_std
      style_img content_img content_layers style_layers =
    Ok {| graph := [("0", Normalization normalization_mean normalization_std)];
          style_probes := []; content_probes := []; probe_attrs := [] |}.
Proof.
  intros R AC AS.
  destruct (walk_without_probe normalization_mean normalization_std cnn
              (start normalization_mean normalization_std) [] R AC AS
              eq_refl eq_refl eq_refl eq_refl eq_refl)
    as (b & tail & W & M & T & CL & SL & AT).
  unfold get_style_model_and_losses. rewrite W. simpl.
  rewrite CL, SL, AT, M. unfold trim_index. cbn [List.length].
  rewrite scan_down_no_probe; [reflexivity|].
  unfold no_probe in *. simpl. exact T.
Qed.

End Builder_properties.

(** ** Floating-point values *)

Section Float_properties.

Lemma feq_refl (a : float) : feq a a.
Proof. destruct a; simpl; auto. reflexivity. Qed.

Lemma feq_sym (a b : float) : feq a b -> feq b a.
Proof. destruct a, b; simpl; auto. intros E. symmetry. exact E. Qed.

Lemma feq_trans (a b c : float) : feq a b -> feq b c -> feq a c.
Proof. destruct a, b, c; simpl; try tauto. intros E F. rewrite E. exact F. Qed.

Lemma signed_inf_comp (x y : Q) : (x == y)%Q -> signed_inf x = signed_inf y.
Proof. intros E. unfold signed_inf. rewrite E. reflexivity. Qed.

Lemma fadd_feq (a a' b b' : float) :
  feq a a' -> feq b b' -> feq (fadd a b) (fadd a' b').
Proof.
  destruct a, a', b, b'; simpl; try tauto. intros E F. rewrite E, F. reflexivity.
Qed.

Lemma fmul_feq (a a' b b' : float) :
  feq a a' -> feq b b' -> feq (fmul a b) (fmul a' b').
Proof.
  destruct a, a', b, b'; simpl; try tauto; intros E F;
    try (rewrite E, F; reflexivity);
    try (rewrite (signed_inf_comp _ _ E); apply feq_refl);
    try (rewrite (signed_inf_comp _ _ F); apply feq_refl);
    try (rewrite (signed_inf_comp (- q) (- q0)); [apply feq_refl|]; rewrite E; reflexivity);
    rewrite (signed_inf_comp (- q) (- q0)); [apply feq_refl|]; rewrite F; reflexivity.
Qed.

Lemma fadd_0_l (a : float) : feq (fadd (Finite 0) a) a.
Proof. destruct a; simpl; auto. ring. Qed.

Lemma fadd_0_r (a : float) : feq (fadd a (Finite 0)) a.
Proof. destruct a; simpl; auto. ring. Qed.

Lemma fadd_assoc (a b c : float) : feq (fadd (fadd a b) c) (fadd a (fadd b c)).
Proof. destruct a, b, c; simpl; auto. ring. Qed.

Lemma fmul_comm (a b : float) : feq (fmul a b) (fmul b a).
Proof. destruct a, b; simpl; auto; try apply feq_refl. ring. Qed.

End Float_properties.

(** ** The closure *)

Section Closure_properties.

Context {torch : Torch}.

Lemma Qclamp_unit (v : Q) : (0 <= Qclamp 0 1 v /\ Qclamp 0 1 v <= 1)%Q.
Proof.
  unfold Qclamp.
  destruct (Qle_bool v 0) eqn:A.
  - split; [apply Qle_refl | discriminate].
  - destruct (Qle_bool 1 v) eqn:B.
    + split; [discriminate | apply Qle_refl].
    + split; apply Qlt_le_weak, Qnot_le_lt; intros L;
        apply Qle_bool_iff in L; congruence.
Qed.

Lemma fclamp_clamped (v : float) : clamped (fclamp 0 1 v).
Proof.
  destruct v as [q| | |]; simpl.
  - right. apply Qclamp_unit.
  - right. simpl. split; discriminate.
  - right. simpl. split; discriminate.
  - left. reflexivity.
Qed.

Lemma clamp_unit (t : Tensor) : Forall clamped (clamp_ 0 1 t).
Proof.
  unfold clamp_. apply Forall_forall. intros q I.
  apply in_map_iff in I. destruct I as (v & <- & _). apply fclamp_clamped.
Qed.

(** The clamp, pixel by pixel. *)
Lemma fclamp_of (v : float) : clamp_of v (fclamp 0 1 v).
Proof.
  destruct v as [q| | |]; simpl; try reflexivity. unfold Qclamp.
  destruct (Qle_bool q 0) eqn:A.
  - apply Qle_bool_iff in A. split; [reflexivity|]. split.
    + intros L. exfalso. apply (Qlt_irrefl 0).
      apply Qlt_trans with (y := 1%Q); [reflexivity|].
      apply Qlt_le_trans with (y := q); assumption.
    + intros L _. simpl. apply Qle_antisym; assumption.
  - assert (P : (0 < q)%Q).
    { apply Qnot_le_lt. intros L. apply Qle_bool_iff in L. congruence. }
    destruct (Qle_bool 1 q) eqn:B.
    + apply Qle_bool_iff in B. split.
      * intros L. exfalso. apply (Qlt_irrefl q). apply Qlt_trans with (y := 0%Q); assumption.
      * split; [reflexivity|]. intros _ L. simpl. apply Qle_antisym; assumption.
    + assert (U : (q < 1)%Q).
      { apply Qnot_le_lt. intros L. apply Qle_bool_iff in L. congruence. }
      split.
      * intros L. exfalso. apply (Qlt_irrefl q). apply Qlt_trans with (y := 0%Q); assumption.
      * split; [|intros _ _; simpl; reflexivity].
        intros L. exfalso. apply (Qlt_irrefl q). apply Qlt_trans with (y := 1%Q); assumption.
Qed.

Lemma clamp_pixelwise (t : Tensor) :
  List.length (clamp_ 0 1 t) = List.length t /\
  forall i v, nth_error t i = Some v ->
              exists c, nth_error (clamp_ 0 1 t) i = Some c /\ clamp_of v c.
Proof.
  unfold clamp_. split; [apply length_map|].
  intros i v E. exists (fclamp 0 1 v). split; [|apply fclamp_of].
  rewrite nth_error_map, E. reflexivity.
Qed.

Lemma loss_of_discrepancy (h : heap) (m : module) (v : pyval) :
  loss_of h m = Ok v -> v = PyTensor (discrepancy h m).
Proof.
  destruct m as [mean std|l|o t|o t]; simpl; try discriminate;
    destruct (getattr_loss h o); intros E; try discriminate E;
    injection E as <-; reflexivity.
Qed.

Lemma py_float_add (a b : pyval) :
  feq (py_float (py_add a b)) (fadd (py_float a) (py_float b)).
Proof.
  destruct a, b; try apply feq_refl.
  change (inject_Z (z + z0) == inject_Z z + inject_Z z0)%Q.
  rewrite inject_Z_plus. reflexivity.
Qed.

Lemma py_float_mul (v : pyval) (w : pynum) :
  feq (py_float (py_mul v w)) (fmul (py_float v) (num_value w)).
Proof.
  destruct v, w; apply feq_refl.
Qed.

Lemma accumulate_total (h : heap) (probes : list module) :
  forall score v,
    accumulate h probes score = Ok v ->
    feq (py_float v) (fadd (py_float score) (total_discrepancy h probes)) /\
    is_tensor v = is_tensor score || negb (Nat.eqb (List.length probes) 0).
Proof.
  induction probes as [|m rest IH]; simpl; intros score v E.
  - injection E as <-. split.
    + unfold total_discrepancy. simpl. apply feq_sym, fadd_0_r.
    + rewrite orb_false_r. reflexivity.
  - destruct (loss_of h m) as [x|] eqn:L; simpl in E; [|discriminate E].
    apply loss_of_discrepancy in L. subst x.
    destruct (IH _ _ E) as [V T]. split.
    + apply (feq_trans _ _ _ V). unfold total_discrepancy. simpl.
      fold (total_discrepancy h rest).
      apply feq_trans
        with (b := fadd (fadd (py_float score) (discrepancy h m)) (total_discrepancy h rest)).
      * apply fadd_feq; [|apply feq_refl]. destruct score; apply feq_refl.
      * apply fadd_assoc.
    + rewrite T. destruct score; simpl; rewrite ?orb_true_r; reflexivity.
Qed.

(** The total loss of the closure, as a number. *)
Lemma weighted_sum (h : heap) (style_losses content_losses : list module)
    (style_weight content_weight : pynum) (s c : pyval) :
  accumulate h style_losses (PyInt 0) = Ok s ->
  accumulate h content_losses (PyInt 0) = Ok c ->
  feq (py_float (py_mul s style_weight))
      (fmul (num_value style_weight) (total_discrepancy h style_losses)) /\
  feq (py_float (py_mul c content_weight))
      (fmul (num_value content_weight) (total_discrepancy h content_losses)) /\
  feq (py_float (py_add (py_mul s style_weight) (py_mul c content_weight)))
      (fadd (fmul (num_value style_weight) (total_discrepancy h style_losses))
            (fmul (num_value content_weight) (total_discrepancy h content_losses))).
Proof.
  intros As Ac.
  assert (M : forall probes v w,
             accumulate h probes (PyInt 0) = Ok v ->
             feq (py_float (py_mul v w))
                 (fmul (num_value w) (total_discrepancy h probes))).
  { intros probes v w A. destruct (accumulate_total _ _ _ _ A) as [V _].
    apply (feq_trans _ _ _ (py_float_mul v w)).
    apply (feq_trans _ _ _ (fmul_comm _ _)).
    apply fmul_feq; [apply feq_refl|].
    apply (feq_trans _ _ _ V). apply fadd_0_l. }
  split; [apply M, As|]. split; [apply M, Ac|].
  apply (feq_trans _ _ _ (py_float_add _ _)).
  apply fadd_feq; [apply M, As | apply M, Ac].
Qed.

Lemma same_object_refl (p : module) : is_loss p = true -> same_object p p = true.
Proof.
  destruct p as [mean std|l|o t|o t]; simpl; try discriminate;
    intros _; apply Nat.eqb_refl.
Qed.

(** The probes that are children of the graph are not stale. *)
Lemma no_stale (model : sequential) (probes : list module) :
  (forall p, In p probes -> is_loss p = true /\ In p (map snd model)) ->
  stale model probes = [].
Proof.
  unfold stale. induction probes as [|p rest IH]; simpl; intros P; [reflexivity|].
  destruct (P p (or_introl eq_refl)) as [L I].
  replace (existsb (fun km : string * module => same_object (snd km) p) model) with true.
  - simpl. apply IH. intros q Iq. apply P. right. exact Iq.
  - symmetry. apply existsb_exists. apply in_map_iff in I.
    destruct I as (km & E & I). exists km. split; [exact I|].
    rewrite E. apply same_object_refl, L.
Qed.

Lemma closure_returns (model : sequential) (style_losses content_losses : list module)
    (style_weight content_weight : pynum) (e e' : env) (v : pyval) :
  closure model style_losses content_losses style_weight content_weight e = Ok (e', v) ->
  input_img e' = clamp_ 0 1 (input_img e) /\
  forwarded e' = clamp_ 0 1 (input_img e) :: forwarded e /\
  run e' = (run e + 1)%Z /\
  outer_steps e' = outer_steps e /\
  input_requires_grad e' = input_requires_grad e /\
  loss_attrs e' = snd (forward model (clamp_ 0 1 (input_img e)) (loss_attrs e)) /\
  (exists q, v = PyTensor q /\
             feq q (fadd (fmul (num_value style_weight)
                               (total_discrepancy (loss_attrs e') style_losses))
                         (fmul (num_value content_weight)
                               (total_discrepancy (loss_attrs e') content_losses)))) /\
  (input_requires_grad e = true ->
   input_grad e' = Some (autograd model style_losses content_losses
                                  (num_value style_weight) (num_value content_weight)
                                  (input_img e'))) /\
  (stale model (style_losses ++ content_losses) = [] ->
   param_grads e' = (param_grads e ++ trainable model)%list) /\
  input_grads e' = input_grad e' :: input_grads e.
Proof.
  unfold closure.
  destruct (forward model (clamp_ 0 1 (input_img e)) (loss_attrs e)) as [y h].
  destruct (accumulate h style_losses (PyInt 0)) as [s|] eqn:As; simpl; [|discriminate].
  destruct (accumulate h content_losses (PyInt 0)) as [c|] eqn:Ac; simpl; [|discriminate].
  destruct (weighted_sum _ _ _ style_weight content_weight _ _ As Ac) as (_ & _ & W).
  unfold backward. cbn [input_requires_grad input_grad input_img param_grads run].
  destruct (py_add (py_mul s style_weight) (py_mul c content_weight)) as [n|f|q] eqn:L;
    [simpl; discriminate|simpl; discriminate|].
  simpl in W.
  assert (Out : forall g pg r,
             (out <- (if ((run e + 1) mod 50 =? 0)%Z
                      then s0 <- py_item (py_mul s style_weight) ;;
                           c0 <- py_item (py_mul c content_weight) ;;
                           Ok (stdout e ++ [Report (run e + 1) s0 c0])%list
                      else Ok (stdout e)) ;;
              Ok ({| input_img := clamp_ 0 1 (input_img e);
                     input_requires_grad := input_requires_grad e;
                     input_grad := g; param_grads := pg;
                     input_grads := g :: input_grads e;
                     run := (run e + 1)%Z; loss_attrs := h; stdout := out;
                     forwarded := clamp_ 0 1 (input_img e) :: forwarded e;
                     outer_steps := outer_steps e |}, r)) = Ok (e', v) ->
             r = v /\ input_img e' = clamp_ 0 1 (input_img e) /\
             forwarded e' = clamp_ 0 1 (input_img e) :: forwarded e /\
             run e' = (run e + 1)%Z /\ outer_steps e' = outer_steps e /\
             input_requires_grad e' = input_requires_grad e /\
             loss_attrs e' = h /\ input_grad e' = g /\ param_grads e' = pg /\
             input_grads e' = g :: input_grads e).
  { intros g pg r. destruct (((run e + 1) mod 50 =? 0)%Z).
    - destruct (py_item (py_mul s style_weight)) as [si|]; simpl; [|discriminate].
      destruct (py_item (py_mul c content_weight)) as [ci|]; simpl; [|discriminate].
      intros E. injection E as <- <-. simpl. auto 12.
    - simpl. intros E. injection E as <- <-. simpl. auto 12. }
  destruct (stale model (style_losses ++ content_losses)) as [|p0 left_over] eqn:St.
  - destruct (input_requires_grad e || negb (Nat.eqb (List.length (trainable model)) 0)) eqn:G;
      [|simpl; discriminate].
    unfold bind at 1. cbv beta iota. intros E.
    destruct (Out _ _ _ E) as (<- & I & F & R & O & Rq & H & Ig & Pg & Igs).
    rewrite I, H. split; [reflexivity|]. split; [exact F|]. split; [exact R|].
    split; [exact O|]. split; [exact Rq|]. split; [reflexivity|].
    split; [exists q; split; [reflexivity|exact W]|].
    split; [intros T; rewrite Ig, T; reflexivity|].
    split; [intros _; exact Pg|]. rewrite Igs, Ig. reflexivity.
  - destruct (backward_stale (run e) (p0 :: left_over)) as [through|x];
      [|simpl; discriminate].
    unfold bind at 1. unfold bind at 1. cbv beta iota. intros E.
    destruct (Out _ _ _ E) as (<- & I & F & R & O & Rq & H & Ig & Pg & Igs).
    rewrite I, H. split; [reflexivity|]. split; [exact F|]. split; [exact R|].
    split; [exact O|]. split; [exact Rq|]. split; [reflexivity|].
    split; [exists q; split; [reflexivity|exact W]|].
    split; [intros T; rewrite Ig, T; reflexivity|].
    split; [intros D; discriminate D|]. rewrite Igs, Ig. reflexivity.
Qed.

Lemma module_forward_keeps_loss (m : module) (x : Tensor) (h : heap) (o : nat) :
  (exists q, getattr_loss h o = Some q) ->
  exists q, getattr_loss (snd (module_forward m x h)) o = Some q.
Proof.
  intros [q G]. destruct m as [mean std|l|o' t|o' t]; simpl; eauto;
    destruct (Nat.eqb o' o); eauto.
Qed.

Lemma forward_keeps_loss (s : sequential) (o : nat) :
  forall x h,
    (exists q, getattr_loss h o = Some q) ->
    exists q, getattr_loss (snd (forward s x h)) o = Some q.
Proof.
  induction s as [|[k m] rest IH]; simpl; intros x h G.
  - exact G.
  - pose proof (module_forward_keeps_loss m x h o G) as G'.
    destruct (module_forward m x h) as [y h']. apply IH, G'.
Qed.

Lemma forward_sets_loss (s : sequential) (p : module) :
  In p (map snd s) -> is_loss p = true ->
  forall x h, exists q, loss_of (snd (forward s x h)) p = Ok (PyTensor q).
Proof.
  intros I L.
  assert (G : forall x h o, (exists t, p = ContentLoss o t \/ p = StyleLoss o t) ->
                            exists q, getattr_loss (snd (forward s x h)) o = Some q).
  { induction s as [|[k m] rest IH]; simpl in *; intros x h o P.
    - contradiction.
    - destruct I as [<-|I].
      + assert (S0 : exists q, getattr_loss (snd (module_forward m x h)) o = Some q).
        { destruct P as [t [-> | ->]]; simpl; rewrite Nat.eqb_refl; eauto. }
        destruct (module_forward m x h) as [y h']. apply forward_keeps_loss, S0.
      + destruct (module_forward m x h) as [y h']. apply IH; auto. }
  intros x h. destruct p as [mean std|l|o t|o t]; try discriminate L; simpl.
  - destruct (G x h o) as [q ->]; eauto.
  - destruct (G x h o) as [q ->]; eauto.
Qed.

Lemma accumulate_defined (h : heap) (probes : list module) :
  (forall p, In p probes -> exists q, loss_of h p = Ok (PyTensor q)) ->
  forall score, exists v, accumulate h probes score = Ok v.
Proof.
  induction probes as [|m rest IH]; simpl; intros D score.
  - eauto.
  - destruct (D m (or_introl eq_refl)) as [q ->]. simpl. apply IH. auto.
Qed.

Lemma requires_grad_keeps_probe (flag : bool) (s : sequential) (p : module) :
  is_loss p = true -> In p (map snd s) -> In p (map snd (requires_grad_ flag s)).
Proof.
  intros L. unfold requires_grad_. rewrite map_map.
  induction s as [|[k m] rest IH]; simpl; intros I.
  - exact I.
  - destruct I as [<-|I]; [left|right; auto].
    destruct m; try discriminate L; reflexivity.
Qed.

Lemma trainable_frozen (s : sequential) : trainable (requires_grad_ false s) = [].
Proof.
  unfold trainable, requires_grad_.
  induction s as [|[k m] rest IH]; simpl.
  - reflexivity.
  - destruct m as [mean std|l|o t|o t]; simpl; auto.
    replace (existsb requires_grad
               (map (fun p => {| data := data p; requires_grad := false |}) (parameters l)))
      with false; [exact IH|].
    induction (parameters l) as [|p ps IHp]; simpl; auto.
Qed.

(** The scores after the sums and the scaling: tensors for the lists that
    hold a probe, each of them a child of the graph. *)
Lemma scores_defined (model : sequential) (style_losses content_losses : list module)
    (x : Tensor) (h0 : heap) :
  (forall p, In p (style_losses ++ content_losses) ->
             is_loss p = true /\ In p (map snd model)) ->
  exists s c,
    accumulate (snd (forward model x h0)) style_losses (PyInt 0) = Ok s /\
    accumulate (snd (forward model x h0)) content_losses (PyInt 0) = Ok c /\
    is_tensor s = negb (Nat.eqb (List.length style_losses) 0) /\
    is_tensor c = negb (Nat.eqb (List.length content_losses) 0).
Proof.
  intros P.
  destruct (accumulate_defined (snd (forward model x h0)) style_losses)
    with (score := PyInt 0) as [s As].
  { intros p I. destruct (P p) as [L M]; [apply in_or_app; auto|].
    apply forward_sets_loss; auto. }
  destruct (accumulate_defined (snd (forward model x h0)) content_losses)
    with (score := PyInt 0) as [c Ac].
  { intros p I. destruct (P p) as [L M]; [apply in_or_app; auto|].
    apply forward_sets_loss; auto. }
  exists s, c. split; [exact As|]. split; [exact Ac|].
  destruct (accumulate_total _ _ _ _ As) as [_ Ts].
  destruct (accumulate_total _ _ _ _ Ac) as [_ Tc].
  auto.
Qed.

Lemma closure_defined (model : sequential) (style_losses content_losses : list module)
    (style_weight content_weight : pynum) (e : env) :
  input_requires_grad e = true ->
  style_losses <> [] -> content_losses <> [] ->
  (forall p, In p (style_losses ++ content_losses) ->
             is_loss p = true /\ In p (map snd model)) ->
  exists e' v,
    closure model style_losses content_losses style_weight content_weight e = Ok (e', v).
Proof.
  intros G Ns Nc P. unfold closure.
  destruct (scores_defined model style_losses content_losses
              (clamp_ 0 1 (input_img e)) (loss_attrs e) P) as (s & c & As & Ac & Ts & Tc).
  destruct (forward model (clamp_ 0 1 (input_img e)) (loss_attrs e)) as [y h].
  simpl in As, Ac. rewrite As, Ac. unfold bind at 1. unfold bind at 1. cbv beta iota.
  pose proof (no_stale _ _ P) as St.
  assert (Ts' : is_tensor s = true).
  { rewrite Ts. destruct style_losses; [contradiction|reflexivity]. }
  assert (Tc' : is_tensor c = true).
  { rewrite Tc. destruct content_losses; [contradiction|reflexivity]. }
  destruct s as [zs|fs|qs]; try discriminate Ts'.
  destruct c as [zc|fc|qc]; try discriminate Tc'.
  unfold backward. cbn [py_mul py_add py_float input_requires_grad].
  rewrite St, G. cbn [orb bind py_item].
  destruct (((run e + 1) mod 50 =? 0)%Z); cbn [bind]; eauto.
Qed.

End Closure_properties.

(** ** The optimisation loop *)

Section Loop_properties.

Context {torch : Torch}.

(** The closure the loop runs, and what an evaluation that returns does to
    the counters, the image and the record of forward passes. *)
Variable cl : env -> result (env * pyval).

Hypothesis cl_returns :
  forall e e' v,
    cl e = Ok (e', v) ->
    input_img e' = clamp_ 0 1 (input_img e) /\
    forwarded e' = clamp_ 0 1 (input_img e) :: forwarded e /\
    run e' = (run e + 1)%Z /\
    outer_steps e' = outer_steps e.

Lemma cl_recorded (e e' : env) (v : pyval) :
  cl e = Ok (e', v) -> recorded e -> recorded e'.
Proof.
  intros E [F L]. destruct (cl_returns _ _ _ E) as (_ & Fw & R & _).
  unfold recorded. rewrite Fw, R. split.
  - constructor; [apply clamp_unit | exact F].
  - simpl List.length. lia.
Qed.

Lemma follow_returns (p : plan lbfgs_state) :
  forall e e' o,
    follow cl p e = Ok (e', o) ->
    (run e <= run e')%Z /\
    outer_steps e' = outer_steps e /\
    (recorded e -> recorded e') /\
    ((exists x' o', p = Return x' o') -> run e' = run e).
Proof.
  induction p as [x0 o0|x k IH]; simpl; intros e e' o E.
  - injection E as <- <-. split; [simpl; lia|]. split; [reflexivity|]. split; auto.
  - destruct (cl (set_input e x)) as [[e1 loss]|] eqn:C; simpl in E; [|discriminate E].
    destruct (cl_returns _ _ _ C) as (_ & _ & R & S1).
    destruct (IH _ _ _ _ _ E) as (R' & S' & Rec & _).
    simpl in R, S1. split; [lia|]. split; [congruence|]. split.
    + intros Re. apply Rec. apply (cl_recorded _ _ _ C). exact Re.
    + intros (x' & o' & D). discriminate D.
Qed.

Lemma LBFGS_step_returns (o o' : lbfgs_state) (e e' : env) :
  LBFGS_step cl o e = Ok (e', o') ->
  (run e + 1 <= run e')%Z /\
  outer_steps e' = outer_steps e /\
  (recorded e -> recorded e') /\
  ((forall o x l g, exists x' o', lbfgs o x l g = Return x' o') -> run e' = (run e + 1)%Z).
Proof.
  unfold LBFGS_step.
  destruct (cl e) as [[e1 loss]|] eqn:C; simpl; [|discriminate].
  intros E. destruct (cl_returns _ _ _ C) as (_ & _ & R & S1).
  destruct (follow_returns _ _ _ _ E) as (R' & S' & Rec & One).
  split; [lia|]. split; [congruence|]. split.
  - intros Re. apply Rec. apply (cl_recorded _ _ _ C). exact Re.
  - intros Single. rewrite (One (Single _ _ _ _)). exact R.
Qed.

Lemma while_loop_terminates (num_steps : Z) (fuel : nat) :
  forall o e,
    (Z.to_nat (num_steps + 1 - run e) < fuel)%nat ->
    exists r,
      while_loop fuel cl num_steps o e = Some r /\
      forall e',
        r = Ok e' ->
        (num_steps < run e')%Z /\
        (outer_steps e' - outer_steps e <= Z.to_nat (num_steps + 1 - run e))%nat /\
        (outer_steps e <= outer_steps e')%nat /\
        (Z.of_nat (outer_steps e' - outer_steps e) <= run e' - run e)%Z /\
        (recorded e -> recorded e') /\
        ((forall o x l g, exists x' o', lbfgs o x l g = Return x' o') ->
         outer_steps e' - outer_steps e = Z.to_nat (num_steps + 1 - run e) /\
         (run e' - run e = Z.max 0 (num_steps + 1 - run e))%Z).
Proof.
  induction fuel as [|fuel IH]; intros o e F.
  - lia.
  - simpl. destruct (run e <=? num_steps)%Z eqn:Le.
    + apply Z.leb_le in Le.
      destruct (LBFGS_step cl o (count_step e)) as [[e1 o1]|x] eqn:St.
      * destruct (LBFGS_step_returns _ _ _ _ St) as (R1 & S1 & Rec1 & One1).
        simpl in R1, S1.
        destruct (IH o1 e1) as (r & W & P); [lia|].
        exists r. split; [exact W|]. intros e' Er.
        destruct (P e' Er) as (A & B & B' & C & D & E0).
        split; [lia|]. split; [lia|]. split; [lia|]. split; [lia|]. split.
        -- intros Re. apply D, Rec1. exact Re.
        -- intros Single. destruct (E0 Single) as [E1 E2].
           specialize (One1 Single). simpl in One1. lia.
      * exists (Raise x). split; [reflexivity|]. intros e' D. discriminate D.
    + apply Z.leb_gt in Le. exists (Ok e). split; [reflexivity|].
      intros e' D. injection D as <-.
      split; [lia|]. split; [lia|]. split; [lia|]. split; [lia|]. split; [auto|].
      intros _. lia.
Qed.

End Loop_properties.

(** ** The driver *)

Section Driver_properties.

Context {torch : Torch}.

Lemma closure_counts (model : sequential) (style_losses content_losses : list module)
    (style_weight content_weight : pynum) (e e' : env) (v : pyval) :
  closure model style_losses content_losses style_weight content_weight e = Ok (e', v) ->
  input_img e' = clamp_ 0 1 (input_img e) /\
  forwarded e' = clamp_ 0 1 (input_img e) :: forwarded e /\
  run e' = (run e + 1)%Z /\
  outer_steps e' = outer_steps e.
Proof.
  intros E. destruct (closure_returns _ _ _ _ _ _ _ _ E) as (A & B & C & D & _).
  auto.
Qed.

Lemma optimize_terminates (b : built) (input : Tensor) (num_steps : Z)
    (style_weight content_weight : pynum) (fuel : nat) :
  (Z.to_nat (num_steps + 1) < fuel)%nat ->
  exists r,
    optimize fuel b input num_steps style_weight content_weight = Some r /\
    forall e,
      r = Ok e ->
      (num_steps < run e)%Z /\
      (outer_steps e <= Z.to_nat (num_steps + 1))%nat /\
      (Z.of_nat (outer_steps e) <= run e)%Z /\
      recorded e /\
      Forall clamped (input_img e) /\
      ((forall o x l g, exists x' o', lbfgs o x l g = Return x' o') ->
       outer_steps e = Z.to_nat (num_steps + 1) /\
       run e = Z.max 0 (num_steps + 1)).
Proof.
  intros F. unfold optimize.
  match goal with
  | |- context [while_loop fuel ?c num_steps ?o ?e0] =>
      destruct (while_loop_terminates c
                  (closure_counts _ _ _ _ _) num_steps fuel o e0)
        as (r & W & P); [simpl; rewrite Z.sub_0_r; exact F|]; rewrite W
  end.
  destruct r as [e1|x].
  - eexists. split; [reflexivity|]. intros e E. injection E as <-.
    destruct (P e1 eq_refl) as (A & B & _ & C & D & E0). simpl in *.
    rewrite Z.sub_0_r in *. rewrite Nat.sub_0_r in *.
    split; [lia|]. split; [lia|]. split; [lia|]. split.
    + apply D. split; [constructor | reflexivity].
    + split; [apply clamp_unit|]. intros Single. destruct (E0 Single). lia.
  - eexists. split; [reflexivity|]. intros e E. discriminate E.
Qed.

(** C7.  For a step budget [num_steps >= 0] the loop ends: [num_steps + 2]
    tests of its condition, so at most [num_steps + 1] calls of
    [optimizer.step], are enough whatever the optimiser does.  At a normal
    end the counter of evaluations has passed the budget, it is at least
    [num_steps + 1] and at least the number of outer steps, for a step may
    evaluate the closure several times; with an optimiser that evaluates it
    once in each step, there are exactly [num_steps + 1] steps and
    [num_steps + 1] counted evaluations. *)
Theorem loop_ends_within_step_budget
    (content_layers style_layers : list string) (fuel : nat) (cnn : list layer)
    (normalization_mean normalization_std content_img style_img input_img : Tensor)
    (num_steps : Z) (style_weight content_weight : pynum) :
  (0 <= num_steps)%Z ->
  (Z.to_nat num_steps + 2 <= fuel)%nat ->
  exists r,
    run_style_transfer_with content_layers style_layers fuel cnn
      normalization_mean normalization_std content_img style_img input_img
      num_steps style_weight content_weight = Some r /\
    forall e,
      r = Ok e ->
      (outer_steps e <= Z.to_nat num_steps + 1)%nat /\
      (num_steps + 1 <= run e)%Z /\
      (Z.of_nat (outer_steps e) <= run e)%Z /\
      ((forall o x l g, exists x' o', lbfgs o x l g = Return x' o') ->
       outer_steps e = (Z.to_nat num_steps + 1)%nat /\
       run e = (num_steps + 1)%Z).
Proof.
  intros N F. unfold run_style_transfer_with.
  destruct (get_style_model_and_losses cnn normalization_mean normalization_std
              style_img content_img content_layers style_layers) as [b|x].
  - destruct (optimize_terminates b input_img num_steps style_weight content_weight fuel)
      as (r & O & P); [lia|].
    exists r. split; [exact O|]. intros e E.
    destruct (P e E) as (A & B & C & _ & _ & D).
    split; [lia|]. split; [lia|]. split; [lia|].
    intros Single. destruct (D Single). lia.
  - exists (Raise x). split; [reflexivity|]. intros e E. discriminate E.
Qed.

(** Each evaluation of the closure clamps the candidate image and runs the
    forward pass on the clamped image; a run that returns has recorded one
    clamped image for each counted evaluation and returns a clamped image. *)
Lemma clamped_when_returned
    (content_layers style_layers : list string) (fuel : nat) (cnn : list layer)
    (normalization_mean normalization_std content_img style_img input : Tensor)
    (num_steps : Z) (style_weight content_weight : pynum) :
  (forall model style_losses content_losses e e' v,
     closure model style_losses content_losses style_weight content_weight e = Ok (e', v) ->
     forwarded e' = clamp_ 0 1 (input_img e) :: forwarded e /\
     Forall clamped (clamp_ 0 1 (input_img e)) /\
     input_img e' = clamp_ 0 1 (input_img e) /\
     loss_attrs e' = snd (forward model (clamp_ 0 1 (input_img e)) (loss_attrs e))) /\
  (forall e,
     run_style_transfer_with content_layers style_layers fuel cnn
       normalization_mean normalization_std content_img style_img input
       num_steps style_weight content_weight = Some (Ok e) ->
     Forall (Forall clamped) (forwarded e) /\
     Z.of_nat (List.length (forwarded e)) = run e /\
     Forall clamped (input_img e) /\
     exists last, input_img e = clamp_ 0 1 last).
Proof.
  split.
  - intros model sl cl e e' v E.
    destruct (closure_returns _ _ _ _ _ _ _ _ E) as (I & F & _ & _ & _ & A & _).
    split; [exact F|]. split; [apply clamp_unit|]. split; [exact I | exact A].
  - intros e. unfold run_style_transfer_with.
    destruct (get_style_model_and_losses cnn normalization_mean normalization_std
                style_img content_img content_layers style_layers) as [b|x];
      [|discriminate].
    unfold optimize.
    match goal with
    | |- context [while_loop fuel ?c num_steps ?o ?e0] =>
        destruct (while_loop fuel c num_steps o e0) as [[e1|x]|] eqn:W;
          try discriminate;
          assert (R : recorded e0 -> recorded e1)
    end.
    { clear - W. revert W.
      match goal with
      | |- while_loop fuel ?c num_steps ?o ?e0 = _ -> _ =>
          generalize o, e0
      end.
      induction fuel as [|f IH]; simpl; intros o e0 W; [discriminate W|].
      destruct (run e0 <=? num_steps)%Z.
      - match type of W with
        | context [LBFGS_step ?c o (count_step e0)] =>
            destruct (LBFGS_step c o (count_step e0)) as [[e2 o2]|x] eqn:St;
              [|discriminate W];
              destruct (LBFGS_step_returns c (closure_counts _ _ _ _ _) _ _ _ _ St)
                as (_ & _ & Rec & _)
        end.
        intros Re. apply (IH _ _ W), Rec. exact Re.
      - injection W as <-. auto. }
    intros E. injection E as <-. simpl.
    destruct R as [Fw Len]; [split; [constructor|reflexivity]|].
    split; [exact Fw|]. split; [exact Len|]. split; [apply clamp_unit|].
    exists (input_img e1). reflexivity.
Qed.

End Driver_properties.

(** ** Empty probe lists *)

Section Empty_probe_lists.

Context {torch : Torch}.

(** With no probe at all, the total loss is the Python number [0 * w1 + 0 *
    w2], an [int] for two [int] weights and a [float] otherwise, which has
    no method [backward]. *)
Lemma closure_without_probes (model : sequential) (style_weight content_weight : pynum)
    (e : env) :
  closure model [] [] style_weight content_weight e =
    Raise (no_attribute (if is_int style_weight && is_int content_weight
                         then "int" else "float") "backward").
Proof.
  unfold closure.
  destruct (forward model (clamp_ 0 1 (input_img e)) (loss_attrs e)) as [y h].
  destruct style_weight, content_weight; reflexivity.
Qed.

Lemma optimize_without_probes (b : built) (input : Tensor) (num_steps : Z)
    (style_weight content_weight : pynum) (fuel : nat) :
  style_probes b = [] -> content_probes b = [] -> (0 <= num_steps)%Z ->
  optimize (S fuel) b input num_steps style_weight content_weight =
    Some (Raise (no_attribute (if is_int style_weight && is_int content_weight
                               then "int" else "float") "backward")).
Proof.
  intros S0 C0 N. unfold optimize. rewrite S0, C0. simpl.
  destruct (0 <=? num_steps)%Z eqn:Le; [|apply Z.leb_gt in Le; lia].
  unfold LBFGS_step. rewrite closure_without_probes. reflexivity.
Qed.

(** With probes of one category only, the score of the other category is
    still a Python number, [0 * w], when the progress report asks for its
    [item]; the style score is asked first. *)
Lemma closure_one_category (model : sequential)
    (style_losses content_losses : list module)
    (style_weight content_weight : pynum) (e : env) :
  input_requires_grad e = true ->
  (style_losses = [] /\ content_losses <> []) \/
  (style_losses <> [] /\ content_losses = []) ->
  (forall p, In p (style_losses ++ content_losses) ->
             is_loss p = true /\ In p (map snd model)) ->
  (((run e + 1) mod 50 = 0)%Z ->
   closure model style_losses content_losses style_weight content_weight e =
     Raise (no_attribute (zero_times (match style_losses with
                                      | [] => style_weight
                                      | _ => content_weight
                                      end)) "item")) /\
  (((run e + 1) mod 50 <> 0)%Z ->
   exists e' v,
     closure model style_losses content_losses style_weight content_weight e =
       Ok (e', v)).
Proof.
  intros G One P. unfold closure.
  destruct (scores_defined model style_losses content_losses
              (clamp_ 0 1 (input_img e)) (loss_attrs e) P) as (s & c & As & Ac & Ts & Tc).
  destruct (forward model (clamp_ 0 1 (input_img e)) (loss_attrs e)) as [y h].
  simpl in As, Ac. rewrite As, Ac. unfold bind at 1. unfold bind at 1. cbv beta iota.
  pose proof (no_stale _ _ P) as St. unfold backward.
  destruct One as [[-> Nc]|[Ns ->]].
  - assert (Tc' : is_tensor c = true).
    { rewrite Tc. destruct content_losses; [contradiction|reflexivity]. }
    simpl in As. injection As as <-.
    destruct c as [zc|fc|qc]; try discriminate Tc'.
    assert (L : exists q, py_add (py_mul (PyInt 0) style_weight)
                                 (py_mul (PyTensor qc) content_weight) = PyTensor q).
    { destruct style_weight; simpl; eauto. }
    destruct L as [q L]. rewrite L.
    cbn [input_requires_grad]. rewrite St, G. cbn [orb bind].
    split; intros M.
    + apply Z.eqb_eq in M. rewrite M.
      destruct style_weight; reflexivity.
    + apply Z.eqb_neq in M. rewrite M.
      destruct style_weight; do 2 eexists; reflexivity.
  - assert (Ts' : is_tensor s = true).
    { rewrite Ts. destruct style_losses; [contradiction|reflexivity]. }
    simpl in Ac. injection Ac as <-.
    destruct s as [zs|fs|qs]; try discriminate Ts'.
    assert (L : exists q, py_add (py_mul (PyTensor qs) style_weight)
                                 (py_mul (PyInt 0) content_weight) = PyTensor q).
    { destruct content_weight; simpl; eauto. }
    destruct L as [q L]. rewrite L.
    cbn [input_requires_grad]. rewrite St, G. cbn [orb bind].
    split; intros M.
    + apply Z.eqb_eq in M. rewrite M.
      destruct style_losses; [contradiction|].
      destruct content_weight; reflexivity.
    + apply Z.eqb_neq in M. rewrite M.
      destruct content_weight; do 2 eexists; reflexivity.
Qed.

End Empty_probe_lists.

(** *** A closure that fails at its fiftieth evaluation

    Whatever the optimiser does with its steps, a loop whose budget lets
    the counter reach 50 ends with the exception of that evaluation. *)

Section Fiftieth_evaluation.

Context {torch : Torch}.

Variable cl : env -> result (env * pyval).
Variable x : exn.

Hypothesis cl_before :
  forall e,
    input_requires_grad e = true -> ((run e + 1) mod 50 <> 0)%Z ->
    exists e' v,
      cl e = Ok (e', v) /\ run e' = (run e + 1)%Z /\ input_requires_grad e' = true.

Hypothesis cl_fiftieth :
  forall e,
    input_requires_grad e = true -> ((run e + 1) mod 50 = 0)%Z -> cl e = Raise x.

Lemma cl_below_fifty (e : env) :
  input_requires_grad e = true -> (0 <= run e < 50)%Z ->
  cl e = Raise x \/
  exists e' v,
    cl e = Ok (e', v) /\ run e' = (run e + 1)%Z /\ (run e' < 50)%Z /\
    input_requires_grad e' = true.
Proof.
  intros G R. destruct (Z.eq_dec (run e) 49) as [E|E].
  - left. apply cl_fiftieth; [exact G|]. rewrite E. reflexivity.
  - right. destruct (cl_before e G) as (e' & v & C & R' & G').
    + rewrite Z.mod_small; lia.
    + exists e', v. repeat split; auto. lia.
Qed.

Lemma follow_below_fifty (p : plan lbfgs_state) :
  forall e,
    input_requires_grad e = true -> (0 <= run e < 50)%Z ->
    follow cl p e = Raise x \/
    exists e' o,
      follow cl p e = Ok (e', o) /\ (run e <= run e' < 50)%Z /\
      input_requires_grad e' = true.
Proof.
  induction p as [x0 o0|t k IH]; simpl; intros e G R.
  - right. exists (set_input e x0), o0. repeat split; auto; simpl; lia.
  - destruct (cl_below_fifty (set_input e t) G R) as [C|(e1 & v & C & R1 & R2 & G1)];
      rewrite C; simpl; [left; reflexivity|].
    simpl in R1.
    destruct (IH (py_float v) (flat_grad e1) e1 G1) as [F|(e' & o & F & R' & G')];
      [lia|left; exact F|].
    right. exists e', o. repeat split; auto; lia.
Qed.

Lemma while_loop_fiftieth (num_steps : Z) (fuel : nat) :
  forall o e,
    input_requires_grad e = true -> (0 <= run e < 50)%Z -> (49 <= num_steps)%Z ->
    (Z.to_nat (50 - run e) <= fuel)%nat ->
    while_loop fuel cl num_steps o e = Some (Raise x).
Proof.
  induction fuel as [|fuel IH]; intros o e G R N F.
  - lia.
  - simpl. destruct (run e <=? num_steps)%Z eqn:Le; [|apply Z.leb_gt in Le; lia].
    unfold LBFGS_step.
    destruct (cl_below_fifty (count_step e) G R) as [C|(e1 & v & C & R1 & R2 & G1)];
      rewrite C; simpl; [reflexivity|].
    simpl in R1.
    destruct (follow_below_fifty
                (lbfgs o (input_img e1) (py_float v) (flat_grad e1)) e1 G1)
      as [Fo|(e' & o' & Fo & R' & G')]; [lia| |]; rewrite Fo; [reflexivity|].
    apply IH; auto; lia.
Qed.

End Fiftieth_evaluation.

Section Degraded_runs.

Context {torch : Torch}.

Lemma optimize_one_category (b : built) (input : Tensor) (num_steps : Z)
    (style_weight content_weight : pynum) (fuel : nat) :
  (style_probes b = [] /\ content_probes b <> []) \/
  (style_probes b <> [] /\ content_probes b = []) ->
  (forall p, In p (style_probes b ++ content_probes b) ->
             is_loss p = true /\ In p (map snd (graph b))) ->
  (49 <= num_steps)%Z -> (50 <= fuel)%nat ->
  optimize fuel b input num_steps style_weight content_weight =
    Some (Raise (no_attribute (zero_times (match style_probes b with
                                           | [] => style_weight
                                           | _ => content_weight
                                           end)) "item")).
Proof.
  intros One P N F. unfold optimize.
  assert (P' : forall p, In p (style_probes b ++ content_probes b) ->
                         is_loss p = true /\
                         In p (map snd (requires_grad_ false (graph b)))).
  { intros p I. destruct (P p I) as [L M]. split; auto.
    apply requires_grad_keeps_probe; auto. }
  rewrite while_loop_fiftieth
    with (x := no_attribute (zero_times (match style_probes b with
                                         | [] => style_weight
                                         | _ => content_weight
                                         end)) "item");
    auto; try (simpl; lia).
  - intros e G M.
    destruct (closure_one_category (requires_grad_ false (graph b))
                (style_probes b) (content_probes b) style_weight content_weight
                e G One P') as [_ Before].
    destruct (Before M) as (e' & v & C).
    destruct (closure_returns _ _ _ _ _ _ _ _ C) as (_ & _ & R & _ & G' & _).
    exists e', v. repeat split; auto. congruence.
  - intros e G M.
    apply (closure_one_category (requires_grad_ false (graph b))
             (style_probes b) (content_probes b) style_weight content_weight
             e G One P'); exact M.
Qed.

(** C3.  With no configured layer name, so that no probe is created, the
    first evaluation of the closure computes the total loss as the Python
    number 0, an [int] with two [int] weights as the shipped ones are and a
    [float] otherwise, and calls [backward] on it: the run ends with an
    attribute error for every step budget, and so does a run with the
    shipped names on an extractor without convolution.  The defect is the
    one of C8: the scores start as Python numbers. *)
Theorem run_without_probes_raises
    (normalization_mean normalization_std content_img style_img input : Tensor)
    (style_weight content_weight : pynum) (fuel budget : nat) :
  run_style_transfer_with [] [] (S fuel) [conv; relu]
    normalization_mean normalization_std content_img style_img input
    (Z.of_nat budget) style_weight content_weight =
    Some (Raise (AttributeError
                   (if is_int style_weight && is_int content_weight
                    then "'int' object has no attribute 'backward'"
                    else "'float' object has no attribute 'backward'"))) /\
  run_style_transfer (S fuel) [relu; pool]
    normalization_mean normalization_std content_img style_img input
    (Z.of_nat budget) style_weight content_weight =
    Some (Raise (AttributeError
                   (if is_int style_weight && is_int content_weight
                    then "'int' object has no attribute 'backward'"
                    else "'float' object has no attribute 'backward'"))).
Proof.
  split; unfold run_style_transfer, run_style_transfer_with;
    match goal with
    | |- match ?g with _ => _ end = _ =>
        let r := eval cbv in g in change g with r
    end;
    cbv iota; rewrite optimize_without_probes; auto; try lia;
    destruct (is_int style_weight && is_int content_weight); reflexivity.
Qed.

(** C8.  With the shipped names and an extractor of one convolution, the
    construction succeeds with one style probe and an empty list of content
    probes; but the content score of the closure is then the Python number
    0, an [int] with an [int] content weight as the shipped one is and a
    [float] otherwise, and the fiftieth evaluation, which reports it
    through [item], raises an attribute error: no run whose budget reaches
    49 completes, the default budget of 150 among them. *)
Theorem run_with_one_category_raises
    (normalization_mean normalization_std content_img style_img input : Tensor)
    (style_weight content_weight : pynum) (fuel budget : nat) :
  (exists b,
     get_style_model_and_losses [conv] normalization_mean normalization_std
       style_img content_img content_layers_default style_layers_default = Ok b /\
     content_probes b = [] /\
     List.length (style_probes b) = 1 /\
     map fst (graph b) = ["0"; "conv_1"; "style_loss_1"]) /\
  run_style_transfer (50 + fuel) [conv]
    normalization_mean normalization_std content_img style_img input
    (49 + Z.of_nat budget) style_weight content_weight =
    Some (Raise (AttributeError
                   (if is_int content_weight
                    then "'int' object has no attribute 'item'"
                    else "'float' object has no attribute 'item'"))).
Proof.
  split.
  - eexists. split; [reflexivity|]. repeat split.
  - unfold run_style_transfer, run_style_transfer_with.
    match goal with
    | |- match ?g with _ => _ end = _ =>
        let r := eval cbv in g in change g with r
    end.
    cbv iota.
    rewrite optimize_one_category; try lia.
    + cbn [style_probes]. destruct content_weight; reflexivity.
    + right. split; [discriminate | reflexivity].
    + intros p [<-|[]]. split; [reflexivity|]. simpl. auto.
Qed.

End Degraded_runs.

(** ** Names that do not clash

    When the walk never registers two modules under one name, the graph is
    the one the specification counts. *)

Section Distinct_names.

Context {torch : Torch}.

Variables (style_img content_img : Tensor).
Variables (content_layers style_layers : list string).

Lemma add_module_fresh (s : sequential) (name : string) (m : module) :
  ~ In name (map fst s) -> add_module s name m = (s ++ [(name, m)])%list.
Proof.
  induction s as [|[k old] rest IH]; simpl; intros N.
  - reflexivity.
  - destruct (String.eqb k name) eqn:E.
    + apply String.eqb_eq in E. tauto.
    + rewrite IH; tauto.
Qed.

Lemma NoDup_next (ks : list string) (k : string) (rest : list string) :
  NoDup (ks ++ k :: rest) -> ~ In k ks /\ NoDup ((ks ++ [k]) ++ rest).
Proof.
  intros D. split.
  - apply NoDup_remove_2 in D. intros I. apply D, in_or_app. auto.
  - rewrite <- app_assoc. exact D.
Qed.

Lemma attach_content_fresh (b : builder) :
  ~ In ("content_loss_" ++ format_int (counter b)) (map fst (model b)) ->
  map fst (model (attach_content content_img b)) =
    (map fst (model b) ++ [("content_loss_" ++ format_int (counter b))%string])%list /\
  flags (model (attach_content content_img b)) = (flags (model b) ++ [true])%list /\
  counter (attach_content content_img b) = counter b.
Proof.
  intros N. unfold attach_content.
  destruct (forward (model b) content_img (attrs b)) as [t h]. simpl.
  rewrite (add_module_fresh _ _ _ N). unfold flags. rewrite !map_app. auto.
Qed.

Lemma attach_style_fresh (b : builder) :
  ~ In ("style_loss_" ++ format_int (counter b)) (map fst (model b)) ->
  map fst (model (attach_style style_img b)) =
    (map fst (model b) ++ [("style_loss_" ++ format_int (counter b))%string])%list /\
  flags (model (attach_style style_img b)) = (flags (model b) ++ [true])%list /\
  counter (attach_style style_img b) = counter b.
Proof.
  intros N. unfold attach_style.
  destruct (forward (model b) style_img (attrs b)) as [t h]. simpl.
  rewrite (add_module_fresh _ _ _ N). unfold flags. rewrite !map_app. auto.
Qed.

Lemma register_fresh (b : builder) (name : string) (i : nat) (m : module) :
  is_loss m = false ->
  NoDup (map fst (model b) ++ entry_names content_layers style_layers i name) ->
  let b0 := {| model := add_module (model b) name m;
               content_losses := content_losses b;
               style_losses := style_losses b;
               counter := i;
               attrs := attrs b |} in
  let b1 := if mem name content_layers then attach_content content_img b0 else b0 in
  let b2 := if mem name style_layers then attach_style style_img b1 else b1 in
  map fst (model b2) =
    (map fst (model b) ++ entry_names content_layers style_layers i name)%list /\
  flags (model b2) =
    (flags (model b) ++ entry_flags content_layers style_layers name)%list /\
  counter b2 = i.
Proof.
  intros L D b0 b1 b2. unfold entry_names, entry_flags in *.
  apply NoDup_next in D. destruct D as [N0 D].
  assert (K0 : map fst (model b0) = (map fst (model b) ++ [name])%list).
  { unfold b0. cbn [model]. rewrite (add_module_fresh _ _ _ N0), map_app. reflexivity. }
  assert (F0 : flags (model b0) = (flags (model b) ++ [false])%list).
  { unfold b0. cbn [model]. rewrite (add_module_fresh _ _ _ N0). unfold flags.
    rewrite map_app. simpl. rewrite L. reflexivity. }
  assert (C0 : counter b0 = i) by reflexivity.
  rewrite <- K0 in D. clearbody b0.
  assert (S1 : exists ks fs,
             map fst (model b1) = (map fst (model b0) ++ ks)%list /\
             flags (model b1) = (flags (model b0) ++ fs)%list /\
             counter b1 = i /\
             ks = (if mem name content_layers
                   then [("content_loss_" ++ format_int i)%string] else []) /\
             fs = (if mem name content_layers then [true] else [])).
  { unfold b1. destruct (mem name content_layers).
    - apply NoDup_next in D. destruct D as [N1 _]. rewrite <- C0 in N1.
      destruct (attach_content_fresh b0 N1) as (A1 & A2 & A3).
      rewrite C0 in A1. rewrite A1, A2, A3. eauto 10.
    - exists [], []. rewrite !app_nil_r. auto. }
  destruct S1 as (ks & fs & K1 & F1 & C1 & -> & ->). clearbody b1.
  rewrite app_assoc in D. rewrite <- K1 in D.
  unfold b2. destruct (mem name style_layers).
  - apply NoDup_next in D. destruct D as [N2 _]. rewrite <- C1 in N2.
    destruct (attach_style_fresh b1 N2) as (A1 & A2 & A3).
    rewrite C1 in A1. rewrite A1, A2, A3, K1, F1, K0, F0.
    rewrite <- !app_assoc. simpl. auto.
  - rewrite K1, F1, K0, F0. rewrite <- !app_assoc, !app_nil_r. simpl. auto.
Qed.

Lemma visit_fresh (b : builder) (l : layer) :
  recognized l = true ->
  NoDup (map fst (model b) ++
         entry_names content_layers style_layers
           (if is_conv l then S (counter b) else counter b)
           (kind_prefix (cls l) ++
            format_int (if is_conv l then S (counter b) else counter b))) ->
  exists b',
    visit style_img content_img content_layers style_layers b l = Ok b' /\
    map fst (model b') =
      (map fst (model b) ++
       entry_names content_layers style_layers
         (if is_conv l then S (counter b) else counter b)
         (kind_prefix (cls l) ++
          format_int (if is_conv l then S (counter b) else counter b)))%list /\
    flags (model b') =
      (flags (model b) ++
       entry_flags content_layers style_layers
         (kind_prefix (cls l) ++
          format_int (if is_conv l then S (counter b) else counter b)))%list /\
    counter b' = (if is_conv l then S (counter b) else counter b).
Proof.
  intros R D. unfold visit. rewrite (name_layer_recognized _ _ R).
  unfold bind. cbv beta iota.
  eexists. split; [reflexivity|].
  apply register_fresh; [reflexivity | exact D].
Qed.

Lemma walk_fresh (cnn : list layer) :
  forall b,
    forallb recognized cnn = true ->
    NoDup (map fst (model b) ++
           module_names content_layers style_layers (counter b) cnn) ->
    exists b',
      walk style_img content_img content_layers style_layers cnn b = Ok b' /\
      map fst (model b') =
        (map fst (model b) ++
         module_names content_layers style_layers (counter b) cnn)%list /\
      flags (model b') =
        (flags (model b) ++
         flat_map (entry_flags content_layers style_layers)
                  (layer_names (counter b) cnn))%list.
Proof.
  induction cnn as [|l rest IH]; intros b R D.
  - exists b. cbn. rewrite !app_nil_r. auto.
  - cbn [forallb] in R. apply andb_true_iff in R. destruct R as [Rl Rrest].
    cbn [module_names layer_names walk flat_map] in *.
    rewrite (name_layer_recognized _ _ Rl) in *.
    rewrite app_assoc in D.
    destruct (visit_fresh b l Rl) as (b1 & V & K1 & F1 & C1).
    { apply NoDup_app_remove_r in D. exact D. }
    rewrite V. unfold bind. rewrite <- K1, <- C1 in D.
    destruct (IH b1 Rrest D) as (b' & W & K & F).
    exists b'. split; [exact W|]. rewrite K, F, K1, F1, C1, <- !app_assoc. auto.
Qed.

Lemma item_app (s t : sequential) (j : nat) :
  j < List.length s -> item (s ++ t)%list j = item s j.
Proof. intros L. unfold item. rewrite nth_error_app1; auto. Qed.

Lemma scan_down_unfold (s : sequential) (j : nat) :
  scan_down s j =
    match item s j with
    | Some m =>
        if is_loss m then j else match j with 0 => 0 | S j' => scan_down s j' end
    | None => match j with 0 => 0 | S j' => scan_down s j' end
    end.
Proof. destruct j; reflexivity. Qed.

Lemma scan_down_app (s t : sequential) (j : nat) :
  j < List.length s -> scan_down (s ++ t)%list j = scan_down s j.
Proof.
  induction j as [|j IH]; intros L; rewrite (scan_down_unfold (s ++ t)%list), (scan_down_unfold s);
    rewrite item_app by exact L; [reflexivity|].
  rewrite IH by lia. reflexivity.
Qed.

Lemma scan_down_snoc (s : sequential) (k : string) (m : module) :
  scan_down (s ++ [(k, m)])%list (List.length s) =
    if is_loss m then List.length s
    else match List.length s with 0 => 0 | S j => scan_down s j end.
Proof.
  rewrite scan_down_unfold.
  assert (I : item (s ++ [(k, m)])%list (List.length s) = Some m).
  { unfold item. rewrite nth_error_app2, Nat.sub_diag by lia. reflexivity. }
  rewrite I. destruct (is_loss m); [reflexivity|].
  destruct (List.length s) as [|j] eqn:E; [reflexivity|].
  apply scan_down_app. lia.
Qed.

Lemma cut_app (a b : list bool) :
  cut (a ++ b)%list = match cut b with 0 => cut a | S k => List.length a + S k end.
Proof.
  induction a as [|x a IH]; simpl.
  - destruct (cut b); reflexivity.
  - rewrite IH. destruct (cut b); [reflexivity|].
    rewrite Nat.add_succ_r. reflexivity.
Qed.

Lemma cut_le (bs : list bool) : cut bs <= List.length bs.
Proof.
  induction bs as [|b rest IH]; simpl; [lia|].
  destruct (cut rest); [destruct b|]; lia.
Qed.

Lemma cut_true (bs : list bool) :
  forall k, cut bs = S k -> nth_error bs k = Some true.
Proof.
  induction bs as [|b rest IH]; simpl; intros k C; [discriminate C|].
  destruct (cut rest) as [|k'] eqn:E.
  - destruct b; [|discriminate C]. injection C as <-. reflexivity.
  - injection C as <-. simpl. apply IH. reflexivity.
Qed.

Lemma length_flags (s : sequential) : List.length (flags s) = List.length s.
Proof. unfold flags. apply length_map. Qed.

Lemma trim_index_cut (s : sequential) :
  forall i, s <> [] -> trim_index s i + 1 = Nat.max 1 (cut (flags s)).
Proof.
  induction s as [|[k m] s IH] using rev_ind; intros i N; [contradiction|].
  unfold trim_index. rewrite length_app. cbn [List.length].
  replace (List.length s + 1) with (S (List.length s)) by lia.
  rewrite scan_down_snoc. unfold flags. rewrite map_app. fold (flags s).
  rewrite cut_app. cbn [map snd]. rewrite length_flags.
  destruct (is_loss m); cbn [cut].
  - lia.
  - destruct s as [|x s'] eqn:E; [reflexivity|]. rewrite <- E in *.
    assert (N' : s <> []) by (rewrite E; discriminate).
    specialize (IH i N'). unfold trim_index in IH.
    destruct (List.length s) as [|j] eqn:L; [rewrite E in L; discriminate L|].
    exact IH.
Qed.

Lemma no_module_named_0 (cnn : list layer) :
  forall i, ~ In "0" (module_names content_layers style_layers i cnn).
Proof.
  induction cnn as [|l rest IH]; intros i I; [exact I|].
  cbn [module_names] in I. unfold name_layer in I.
  destruct (cls l); try exact I;
    apply in_app_or in I; destruct I as [I|I]; try (eapply IH; exact I);
    unfold entry_names in I;
    repeat match type of I with
           | context [if ?c then _ else _] => destruct c
           end;
    simpl in I; repeat (destruct I as [I|I]; try discriminate I); exact I.
Qed.

Lemma cut_shape (names : list string) :
  cut (flat_map (entry_flags content_layers style_layers) names) =
    match prefix_to_last_probe_layer content_layers style_layers names with
    | 0 => 0
    | S p => S p + probes_inserted content_layers style_layers names
    end /\
  (prefix_to_last_probe_layer content_layers style_layers names = 0 ->
   probes_inserted content_layers style_layers names = 0).
Proof.
  induction names as [|n rest [IH Z0]]; [split; reflexivity|].
  cbn [flat_map prefix_to_last_probe_layer]. rewrite cut_app, IH.
  unfold probes_inserted in *. cbn [filter]. unfold entry_flags, configured.
  destruct (prefix_to_last_probe_layer content_layers style_layers rest) as [|p].
  - specialize (Z0 eq_refl).
    destruct (mem n content_layers), (mem n style_layers); simpl; split; lia.
  - destruct (mem n content_layers), (mem n style_layers); simpl; split; lia.
Qed.

Lemma prefix_of_configured (names : list string) :
  existsb (configured content_layers style_layers) names = true ->
  prefix_to_last_probe_layer content_layers style_layers names <> 0.
Proof.
  induction names as [|n rest IH]; simpl; intros E; [discriminate E|].
  destruct (prefix_to_last_probe_layer content_layers style_layers rest);
    [|discriminate].
  destruct (configured content_layers style_layers n); [discriminate|].
  apply IH. exact E.
Qed.

(** On an extractor of recognised layers for which the walk registers no
    two modules under one name, the construction returns a graph with the
    node count of the specification, which ends at a probe when a
    configured name is generated. *)
Theorem node_count_without_name_clash
    (cnn : list layer) (normalization_mean normalization_std : Tensor) :
  forallb recognized cnn = true ->
  NoDup (module_names content_layers style_layers 0 cnn) ->
  exists r,
    get_style_model_and_losses cnn normalization_mean normalization_std
      style_img content_img content_layers style_layers = Ok r /\
    List.length (graph r) =
      specified_node_count content_layers style_layers (layer_names 0 cnn) /\
    (existsb (configured content_layers style_layers) (layer_names 0 cnn) = true ->
     exists m, item (graph r) (List.length (graph r) - 1) = Some m /\ is_loss m = true).
Proof.
  intros R D.
  destruct (walk_fresh cnn (start normalization_mean normalization_std) R)
    as (b & W & _ & F).
  { simpl. constructor; [apply no_module_named_0 | exact D]. }
  unfold get_style_model_and_losses. rewrite W. unfold bind.
  eexists. split; [reflexivity|]. cbn [graph].
  change (flags (model (start normalization_mean normalization_std))) with [false] in F.
  change (counter (start normalization_mean normalization_std)) with 0 in F.
  assert (NE : model b <> []).
  { intros E. rewrite E in F. discriminate F. }
  pose proof (trim_index_cut (model b) (counter b) NE) as T.
  pose proof (cut_le (flags (model b))) as Le. rewrite length_flags in Le.
  assert (L1 : 1 <= List.length (model b)).
  { destruct (model b); [contradiction|simpl; lia]. }
  set (t := trim_index (model b) (counter b)) in *.
  assert (Len : List.length (slice_to (model b) (t + 1)) = t + 1).
  { unfold slice_to. apply firstn_length_le. lia. }
  rewrite Len.
  destruct (cut_shape (layer_names 0 cnn)) as [CS Z0].
  assert (C : cut (flags (model b)) =
              match cut (flat_map (entry_flags content_layers style_layers)
                                  (layer_names 0 cnn)) with
              | 0 => 0
              | S k => S (S k)
              end).
  { rewrite F. reflexivity. }
  rewrite CS in C. unfold specified_node_count. split.
  - destruct (prefix_to_last_probe_layer content_layers style_layers (layer_names 0 cnn));
      [rewrite (Z0 eq_refl)|]; cbn [Nat.add] in C; lia.
  - intros E. apply prefix_of_configured in E.
    destruct (prefix_to_last_probe_layer content_layers style_layers (layer_names 0 cnn))
      as [|p]; [contradiction|].
    cbn [Nat.add] in C.
    assert (Ct : cut (flags (model b)) = S t) by lia.
    apply cut_true in Ct. unfold flags in Ct. rewrite nth_error_map in Ct.
    unfold item, slice_to. rewrite nth_error_firstn.
    replace (t + 1 - 1 <? t + 1)%nat with true by (symmetry; apply Nat.ltb_lt; lia).
    replace (t + 1 - 1) with t by lia.
    destruct (nth_error (model b) t) as [[k m]|]; [|discriminate Ct].
    simpl in Ct. injection Ct as Ct. exists m. auto.
Qed.

(** For a layer whose name is in both sets and is registered, like the
    names of its two probes, for the first time, the visit puts the layer,
    the content probe and the style probe, in this order, at the end of the
    graph, and the style target is the Gram matrix of the style image's
    features through the graph that already has the content probe. *)
Theorem probes_follow_layer_without_name_clash (b : builder) (l : layer) :
  let i := if is_conv l then S (counter b) else counter b in
  let name := kind_prefix (cls l) ++ format_int i in
  recognized l = true ->
  mem name content_layers = true ->
  mem name style_layers = true ->
  NoDup (map fst (model b) ++ entry_names content_layers style_layers i name) ->
  exists b' o1 o2 target,
    visit style_img content_img content_layers style_layers b l = Ok b' /\
    let with_layer := (model b ++ [(name, installed l)])%list in
    let content_probe :=
      ContentLoss o1 (fst (forward with_layer content_img (attrs b))) in
    let with_content :=
      (with_layer ++ [(("content_loss_" ++ format_int i)%string, content_probe)])%list in
    target =
      gram_matrix
        (fst (forward with_content style_img
                (snd (forward with_layer content_img (attrs b))))) /\
    model b' =
      (with_content ++ [(("style_loss_" ++ format_int i)%string, StyleLoss o2 target)])%list /\
    content_losses b' = (content_losses b ++ [content_probe])%list /\
    style_losses b' = (style_losses b ++ [StyleLoss o2 target])%list.
Proof.
  intros i name R Mc Ms D. unfold visit. rewrite (name_layer_recognized _ _ R).
  unfold bind. cbv beta iota. fold i. fold name. rewrite Mc, Ms.
  unfold entry_names in D. rewrite Mc, Ms in D.
  apply NoDup_next in D. destruct D as [N0 D].
  apply NoDup_next in D. destruct D as [N1 D].
  apply NoDup_next in D. destruct D as [N2 _].
  assert (E : Net match installed l with Net l' => l' | _ => l end = installed l).
  { unfold installed. destruct (cls l); reflexivity. }
  rewrite E. rewrite (add_module_fresh _ _ _ N0).
  unfold attach_content. cbn [model attrs counter content_losses style_losses].
  match goal with
  | |- context [forward ?s content_img (attrs b)] =>
      destruct (forward s content_img (attrs b)) as [t1 h1] eqn:F1
  end.
  unfold attach_style. cbn [model attrs counter content_losses style_losses].
  unfold ContentLoss_new, StyleLoss_new.
  rewrite add_module_fresh by (rewrite map_app; exact N1).
  match goal with
  | |- context [forward ?s style_img h1] =>
      destruct (forward s style_img h1) as [t2 h2] eqn:F2
  end.
  rewrite add_module_fresh by (rewrite !map_app; exact N2).
  do 4 eexists. split; [reflexivity|]. cbn zeta. cbn [fst snd].
  rewrite F2. cbn [fst].
  split; [reflexivity|]. split; [reflexivity|]. split; reflexivity.
Qed.

End Distinct_names.

(** ** Convolutions as probe layers

    When only convolutions are configured, as with the shipped names, every
    probe gets a name of its own, whatever the names of the layers: the
    probes of the two lists are all in the graph that is returned. *)

Section Configured_convolutions.

Context {torch : Torch}.

Variables (style_img content_img : Tensor).
Variables (content_layers style_layers : list string).

Hypothesis content_conv : conv_names content_layers = true.
Hypothesis style_conv : conv_names style_layers = true.

Lemma format_int_inj (i j : nat) : format_int i = format_int j -> i = j.
Proof.
  unfold format_int. intros E.
  apply (f_equal NilEmpty.uint_of_string) in E. rewrite !NilEmpty.usu in E.
  injection E as E. apply (f_equal Nat.of_uint) in E.
  rewrite !DecimalNat.Unsigned.of_to in E. exact E.
Qed.

Lemma mem_conv_names (names : list string) (l : layer) (k : string) :
  conv_names names = true -> recognized l = true -> is_conv l = false ->
  mem (kind_prefix (cls l) ++ k) names = false.
Proof.
  unfold conv_names, mem, recognized, is_conv. intros C R N.
  induction names as [|a rest IH]; simpl in *; [reflexivity|].
  apply andb_true_iff in C. destruct C as [Ca Crest]. rewrite (IH Crest), orb_false_r.
  destruct (String.eqb (kind_prefix (cls l) ++ k) a) eqn:E; [|reflexivity].
  apply String.eqb_eq in E. subst a.
  destruct (cls l); try discriminate; simpl in Ca; discriminate Ca.
Qed.

Lemma In_add_module_new (s : sequential) (k : string) (m : module) :
  In (k, m) (add_module s k m).
Proof.
  induction s as [|[k' old] rest IH]; simpl; [auto|].
  destruct (String.eqb k' k) eqn:E; simpl; auto.
  apply String.eqb_eq in E. subst k'. auto.
Qed.

Lemma In_add_module_other (s : sequential) (k k' : string) (m m' : module) :
  In (k', m') s -> k' <> k -> In (k', m') (add_module s k m).
Proof.
  intros I N. induction s as [|[k0 old] rest IH]; simpl in *; [contradiction|].
  destruct (String.eqb k0 k) eqn:E; simpl.
  - apply String.eqb_eq in E. subst k0.
    destruct I as [I|I]; [injection I as -> _; contradiction | auto].
  - destruct I as [I|I]; auto.
Qed.

Lemma In_add_module_inv (s : sequential) (k k' : string) (m m' : module) :
  In (k', m') (add_module s k m) -> (k', m') = (k, m) \/ In (k', m') s.
Proof.
  induction s as [|[k0 old] rest IH]; simpl.
  - intros [I|[]]; auto.
  - destruct (String.eqb k0 k) eqn:E; simpl.
    + apply String.eqb_eq in E. subst k0. intros [I|I]; auto.
    + intros [I|I]; auto. destruct (IH I); auto.
Qed.

Lemma append_inj (p a b : string) : p ++ a = p ++ b -> a = b.
Proof.
  induction p as [|c p IH]; simpl; intros E; [exact E|].
  injection E as E. apply IH, E.
Qed.

Lemma probe_key_fresh (k key : string) (n m : nat) :
  probe_key k n -> n < m -> probe_key key m -> k <> key.
Proof.
  intros [K|K] L [M|M] E; subst k key.
  - apply append_inj, format_int_inj in E. lia.
  - discriminate E.
  - discriminate E.
  - apply append_inj, format_int_inj in E. lia.
Qed.

Lemma probe_key_not_layer (k x : string) (n : nat) (l : layer) :
  probe_key k n -> recognized l = true -> k <> kind_prefix (cls l) ++ x.
Proof.
  intros [K|K] R E; subst k;
    destruct (probe_name_not_layer_name l (format_int n) x R) as [C S0];
    apply String.eqb_eq in E; congruence.
Qed.

Lemma registered_add_layer (s : sequential) (ps : list module) (bound : nat)
    (name : string) (m : module) :
  registered s ps bound -> is_loss m = false ->
  (forall k n, probe_key k n -> k <> name) ->
  registered (add_module s name m) ps bound.
Proof.
  intros [A B] L N. split.
  - intros p I. destruct (A p I) as (Lp & k & Ik). split; [exact Lp|].
    exists k. apply In_add_module_other; [exact Ik|].
    destruct (B k p Ik Lp) as (n & _ & K). exact (N k n K).
  - intros k p I Lp. apply In_add_module_inv in I. destruct I as [I|I].
    + injection I as -> ->. congruence.
    + exact (B k p I Lp).
Qed.

Lemma registered_add_probe (s : sequential) (ps ps' : list module) (bound bound' : nat)
    (key : string) (p : module) (n : nat) :
  registered s ps bound -> is_loss p = true ->
  probe_key key n -> n < bound' -> bound <= bound' ->
  (forall k q, In (k, q) s -> is_loss q = true -> k <> key) ->
  (forall q, In q ps' -> In q ps \/ q = p) ->
  registered (add_module s key p) ps' bound'.
Proof.
  intros [A B] L K Ln Lb F Sub. split.
  - intros q I. destruct (Sub q I) as [I'| ->].
    + destruct (A q I') as (Lq & k & Ik). split; [exact Lq|].
      exists k. apply In_add_module_other; [exact Ik|]. exact (F k q Ik Lq).
    + split; [exact L|]. exists key. apply In_add_module_new.
  - intros k q I Lq. apply In_add_module_inv in I. destruct I as [I|I].
    + injection I as -> ->. exists n. auto.
    + destruct (B k q I Lq) as (n' & Ln' & K'). exists n'. split; [lia | exact K'].
Qed.

Lemma attach_content_registered (b : builder) (bound : nat) :
  registered (model b) (content_losses b ++ style_losses b) bound ->
  bound <= S (counter b) ->
  (forall k q, In (k, q) (model b) -> is_loss q = true ->
               k <> "content_loss_" ++ format_int (counter b)) ->
  probes_registered (attach_content content_img b) /\
  counter (attach_content content_img b) = counter b /\
  content_losses (attach_content content_img b) <> [] /\
  style_losses (attach_content content_img b) = style_losses b /\
  (forall k q, In (k, q) (model (attach_content content_img b)) -> is_loss q = true ->
               k = "content_loss_" ++ format_int (counter b) \/ In (k, q) (model b)).
Proof.
  intros Reg Le F. unfold probes_registered, attach_content.
  destruct (forward (model b) content_img (attrs b)) as [t h].
  cbn [model content_losses style_losses counter].
  split; [|split; [reflexivity|split; [|split; [reflexivity|]]]].
  - eapply registered_add_probe with (n := counter b); eauto.
    + left. reflexivity.
    + intros q I. apply in_app_or in I. destruct I as [I|I].
      * apply in_app_or in I. destruct I as [I|[<-|[]]]; auto.
        left. apply in_or_app. auto.
      * left. apply in_or_app. auto.
  - destruct (content_losses b); discriminate.
  - intros k q I _. apply In_add_module_inv in I. destruct I as [I|I]; auto.
    injection I as -> _. auto.
Qed.

Lemma attach_style_registered (b : builder) (bound : nat) :
  registered (model b) (content_losses b ++ style_losses b) bound ->
  bound <= S (counter b) ->
  (forall k q, In (k, q) (model b) -> is_loss q = true ->
               k <> "style_loss_" ++ format_int (counter b)) ->
  probes_registered (attach_style style_img b) /\
  counter (attach_style style_img b) = counter b /\
  style_losses (attach_style style_img b) <> [] /\
  content_losses (attach_style style_img b) = content_losses b.
Proof.
  intros Reg Le F. unfold probes_registered, attach_style.
  destruct (forward (model b) style_img (attrs b)) as [t h].
  cbn [model content_losses style_losses counter].
  split; [|split; [reflexivity|split; [|reflexivity]]].
  - eapply registered_add_probe with (n := counter b); eauto.
    + right. reflexivity.
    + intros q I. apply in_app_or in I. destruct I as [I|I].
      * left. apply in_or_app. auto.
      * apply in_app_or in I. destruct I as [I|[<-|[]]]; auto.
        left. apply in_or_app. auto.
  - destruct (style_losses b); discriminate.
Qed.

Lemma visit_registered (b : builder) (l : layer) :
  recognized l = true -> probes_registered b ->
  exists b',
    visit style_img content_img content_layers style_layers b l = Ok b' /\
    probes_registered b' /\
    counter b' = (if is_conv l then S (counter b) else counter b) /\
    (content_losses b <> [] -> content_losses b' <> []) /\
    (style_losses b <> [] -> style_losses b' <> []) /\
    (mem (kind_prefix (cls l) ++
          format_int (if is_conv l then S (counter b) else counter b))
         content_layers = true ->
     content_losses b' <> []) /\
    (mem (kind_prefix (cls l) ++
          format_int (if is_conv l then S (counter b) else counter b))
         style_layers = true ->
     style_losses b' <> []).
Proof.
  intros R Reg. unfold visit. rewrite (name_layer_recognized _ _ R).
  unfold bind. cbv beta iota.
  set (i := if is_conv l then S (counter b) else counter b).
  set (name := kind_prefix (cls l) ++ format_int i).
  set (b0 := {| model := add_module (model b) name
                           (Net match installed l with Net l' => l' | _ => l end);
                content_losses := content_losses b;
                style_losses := style_losses b;
                counter := i;
                attrs := attrs b |}).
  assert (Reg0 : registered (model b0) (content_losses b0 ++ style_losses b0)
                            (S (counter b))).
  { apply registered_add_layer; [exact Reg | reflexivity |].
    intros k n K. apply probe_key_not_layer with (n := n); assumption. }
  assert (Li : counter b <= i) by (unfold i; destruct (is_conv l); lia).
  destruct (is_conv l) eqn:C.
  - assert (Fresh : forall key, probe_key key i ->
                      forall k q, In (k, q) (model b0) -> is_loss q = true -> k <> key).
    { intros key Kk k q I Lq. destruct Reg0 as [_ B].
      destruct (B k q I Lq) as (n & Ln & Kn).
      apply probe_key_fresh with (n := n) (m := i); auto. }
    destruct (mem name content_layers) eqn:Mc.
    + destruct (attach_content_registered b0 _ Reg0) as (Reg1 & C1 & N1 & S1 & In1).
      { unfold b0, i. cbn [counter]. lia. }
      { apply Fresh. left. reflexivity. }
      destruct (mem name style_layers) eqn:Ms.
      * destruct (attach_style_registered (attach_content content_img b0) _ Reg1)
          as (Reg2 & C2 & N2 & S2).
        { lia. }
        { intros k q I Lq. destruct (In1 k q I Lq) as [-> | I0].
          - discriminate.
          - rewrite C1. apply (Fresh _ (or_intror eq_refl) k q I0 Lq). }
        eexists. split; [reflexivity|]. split; [exact Reg2|].
        rewrite C2, C1, S2.
        split; [reflexivity|]. split; [auto|]. split; [auto|]. split; auto.
      * eexists. split; [reflexivity|]. split; [exact Reg1|].
        rewrite C1, S1.
        split; [reflexivity|]. split; [auto|]. split; [auto|]. split; [auto|].
        discriminate.
    + destruct (mem name style_layers) eqn:Ms.
      * destruct (attach_style_registered b0 _ Reg0) as (Reg2 & C2 & N2 & S2).
        { unfold b0, i. cbn [counter]. lia. }
        { apply Fresh. right. reflexivity. }
        eexists. split; [reflexivity|]. split; [exact Reg2|].
        rewrite C2, S2.
        split; [reflexivity|]. split; [auto|]. split; [auto|]. split; [|auto].
        discriminate.
      * eexists. split; [reflexivity|].
        split; [|split; [reflexivity|]; split; [auto|]; split; [auto|];
                 split; discriminate].
        unfold probes_registered.
        destruct Reg0 as [A B]. split; [exact A|].
        intros k q I Lq. destruct (B k q I Lq) as (n & Ln & K).
        exists n. split; [cbn [counter b0]; lia | exact K].
  - unfold name. rewrite !mem_conv_names by assumption.
    eexists. split; [reflexivity|].
    split; [exact Reg0|].
    split; [reflexivity|]. split; [auto|]. split; [auto|]. split; discriminate.
Qed.

Lemma walk_registered (cnn : list layer) :
  forall b,
    forallb recognized cnn = true -> probes_registered b ->
    exists b',
      walk style_img content_img content_layers style_layers cnn b = Ok b' /\
      probes_registered b' /\
      (content_losses b <> [] \/
       hits content_layers (layer_names (counter b) cnn) = true ->
       content_losses b' <> []) /\
      (style_losses b <> [] \/
       hits style_layers (layer_names (counter b) cnn) = true ->
       style_losses b' <> []).
Proof.
  induction cnn as [|l rest IH]; intros b R Reg.
  - exists b. split; [reflexivity|]. split; [exact Reg|].
    split; (intros [N|Hit]; [exact N | discriminate Hit]).
  - cbn [forallb] in R. apply andb_true_iff in R. destruct R as [Rl Rrest].
    destruct (visit_registered b l Rl Reg) as (b1 & V & Reg1 & C1 & Kc & Ks & Mc & Ms).
    destruct (IH b1 Rrest Reg1) as (b' & W & Reg' & Nc & Ns).
    exists b'. cbn [walk]. rewrite V. unfold bind.
    split; [exact W|]. split; [exact Reg'|].
    cbn [layer_names]. rewrite (name_layer_recognized _ _ Rl).
    unfold hits in *. cbn [existsb]. rewrite C1 in *.
    split.
    + intros [N|Hit]; [apply Nc; left; auto|].
      apply orb_true_iff in Hit. destruct Hit as [Hit|Hit]; apply Nc; auto.
    + intros [N|Hit]; [apply Ns; left; auto|].
      apply orb_true_iff in Hit. destruct Hit as [Hit|Hit]; apply Ns; auto.
Qed.

Lemma true_before_cut (bs : list bool) :
  forall t, nth_error bs t = Some true -> t < cut bs.
Proof.
  induction bs as [|b rest IH]; intros [|t] E; simpl in *; try discriminate E.
  - injection E as ->. destruct (cut rest); lia.
  - specialize (IH t E). destruct (cut rest); lia.
Qed.

Lemma slice_keeps_probes (s : sequential) (i : nat) (k : string) (p : module) :
  In (k, p) s -> is_loss p = true ->
  In (k, p) (slice_to s (trim_index s i + 1)).
Proof.
  intros I L. assert (NE : s <> []) by (intros ->; exact I).
  apply In_nth_error in I. destruct I as [t E].
  assert (F : nth_error (flags s) t = Some true).
  { unfold flags. rewrite nth_error_map, E. simpl. rewrite L. reflexivity. }
  apply true_before_cut in F.
  pose proof (trim_index_cut s i NE) as T.
  apply nth_error_In with (n := t). unfold slice_to. rewrite nth_error_firstn.
  replace (t <? trim_index s i + 1)%nat with true; [exact E|].
  symmetry. apply Nat.ltb_lt. lia.
Qed.

(** With convolutions only as configured layers, the construction on a
    recognised extractor returns a graph that holds every probe of the two
    lists, and a list is not empty when one of its names is generated. *)
Theorem probes_of_convolutions_in_graph
    (cnn : list layer) (normalization_mean normalization_std : Tensor) :
  forallb recognized cnn = true ->
  exists r,
    get_style_model_and_losses cnn normalization_mean normalization_std
      style_img content_img content_layers style_layers = Ok r /\
    (forall p, In p (style_probes r ++ content_probes r) ->
               is_loss p = true /\ In p (map snd (graph r))) /\
    (hits content_layers (layer_names 0 cnn) = true -> content_probes r <> []) /\
    (hits style_layers (layer_names 0 cnn) = true -> style_probes r <> []).
Proof.
  intros R.
  destruct (walk_registered cnn (start normalization_mean normalization_std) R)
    as (b & W & [A _] & Nc & Ns).
  { split.
    - intros p [].
    - intros k p [I|[]] L. injection I as _ <-. discriminate L. }
  unfold get_style_model_and_losses. rewrite W. unfold bind.
  eexists. split; [reflexivity|]. cbn [graph style_probes content_probes].
  split; [|split; auto].
  intros p I. destruct (A p) as (L & k & Ik).
  { apply in_app_or in I. apply in_or_app. tauto. }
  split; [exact L|].
  apply in_map_iff. exists (k, p). split; [reflexivity|].
  apply slice_keeps_probes; assumption.
Qed.

End Configured_convolutions.

(** ** Runs that return *)

Section Returning_closure.

Context {torch : Torch}.

(** A closure that returns on every state whose image requires gradient. *)
Variable cl : env -> result (env * pyval).

Hypothesis cl_total :
  forall e,
    input_requires_grad e = true ->
    exists e' v,
      cl e = Ok (e', v) /\ input_requires_grad e' = true /\ run e' = (run e + 1)%Z.

Lemma follow_total (p : plan lbfgs_state) :
  forall e,
    input_requires_grad e = true ->
    exists e' o,
      follow cl p e = Ok (e', o) /\ input_requires_grad e' = true /\
      (run e <= run e')%Z.
Proof.
  induction p as [x0 o0|x k IH]; simpl; intros e G.
  - exists (set_input e x0), o0. split; [reflexivity|]. split; [exact G | simpl; lia].
  - destruct (cl_total (set_input e x) G) as (e1 & v & C & G1 & R1).
    rewrite C. simpl.
    destruct (IH (py_float v) (flat_grad e1) e1 G1) as (e' & o & F & G' & R').
    exists e', o. split; [exact F|]. split; [exact G'|]. simpl in R1. lia.
Qed.

Lemma while_loop_returns (num_steps : Z) (fuel : nat) :
  forall o e,
    input_requires_grad e = true ->
    (Z.to_nat (num_steps + 1 - run e) < fuel)%nat ->
    exists e', while_loop fuel cl num_steps o e = Some (Ok e').
Proof.
  induction fuel as [|fuel IH]; intros o e G F; [lia|].
  simpl. destruct (run e <=? num_steps)%Z eqn:Le; [|eauto].
  apply Z.leb_le in Le. unfold LBFGS_step.
  destruct (cl_total (count_step e) G) as (e1 & v & C & G1 & R1).
  rewrite C. simpl.
  destruct (follow_total (lbfgs o (input_img e1) (py_float v) (flat_grad e1)) e1 G1)
    as (e2 & o2 & Fo & G2 & R2).
  rewrite Fo. apply IH; [exact G2|]. simpl in R1. lia.
Qed.

End Returning_closure.

Section Returning_runs.

Context {torch : Torch}.

(** With convolutions only as configured layers, a name of each set among
    the generated ones and a recognised extractor, as for the shipped names
    on a network of four convolutions or more, the run returns an image
    whatever the optimiser does, once the fuel covers the step budget. *)
Theorem run_style_transfer_returns
    (content_layers style_layers : list string) (fuel : nat) (cnn : list layer)
    (normalization_mean normalization_std content_img style_img input : Tensor)
    (num_steps : Z) (style_weight content_weight : pynum) :
  conv_names content_layers = true ->
  conv_names style_layers = true ->
  forallb recognized cnn = true ->
  hits content_layers (layer_names 0 cnn) = true ->
  hits style_layers (layer_names 0 cnn) = true ->
  (Z.to_nat (num_steps + 1) < fuel)%nat ->
  exists e,
    run_style_transfer_with content_layers style_layers fuel cnn
      normalization_mean normalization_std content_img style_img input
      num_steps style_weight content_weight = Some (Ok e).
Proof.
  intros Cc Cs R Hc Hs F. unfold run_style_transfer_with.
  destruct (probes_of_convolutions_in_graph style_img content_img
              content_layers style_layers Cc Cs cnn
              normalization_mean normalization_std R)
    as (r & B & P & Nc & Ns).
  rewrite B. unfold optimize.
  match goal with
  | |- context [while_loop fuel ?c num_steps ?opt ?e0] =>
      assert (Total : forall e, input_requires_grad e = true ->
                exists e' v, c e = Ok (e', v) /\ input_requires_grad e' = true /\
                             run e' = (run e + 1)%Z);
        [|destruct (while_loop_returns c Total num_steps fuel opt e0) as [e W]]
  end.
  - intros e G.
    destruct (closure_defined (requires_grad_ false (graph r))
                (style_probes r) (content_probes r) style_weight content_weight e G)
      as (e' & v & C); auto.
    { intros p I. destruct (P p I) as [L M]. split; [exact L|].
      apply requires_grad_keeps_probe; assumption. }
    exists e', v. split; [exact C|].
    destruct (closure_returns _ _ _ _ _ _ _ _ C) as (_ & _ & Rn & _ & G' & _).
    split; [congruence | exact Rn].
  - reflexivity.
  - simpl. rewrite Z.sub_0_r. exact F.
  - rewrite W. eauto.
Qed.

(** C5.  Each evaluation of the closure clamps the candidate image to
    [0,1] and runs the forward pass on the clamped image, and the image is
    clamped once more after the loop, which a step of the optimiser may
    leave with an update that no evaluation follows.  The clamp keeps the
    length of the image and works pixel by pixel: a number below 0 becomes
    0, a number above 1 becomes 1, a number of [0,1] keeps its value, and
    NaN stays NaN.  So in a run that returns, every pixel that a forward
    pass of the loop read, one pass for each counted evaluation, and every
    pixel of the image returned is a number of [0,1] or NaN.  The run does
    return such an image when convolutions only are configured, a name of
    each set is generated and the extractor is recognised. *)
Theorem pixels_clamped_to_unit_interval
    (content_layers style_layers : list string) (fuel : nat) (cnn : list layer)
    (normalization_mean normalization_std content_img style_img input : Tensor)
    (num_steps : Z) (style_weight content_weight : pynum) :
  (forall t,
     List.length (clamp_ 0 1 t) = List.length t /\
     forall i v, nth_error t i = Some v ->
                 exists c, nth_error (clamp_ 0 1 t) i = Some c /\ clamp_of v c) /\
  (forall model style_losses content_losses e e' v,
     closure model style_losses content_losses style_weight content_weight e = Ok (e', v) ->
     forwarded e' = clamp_ 0 1 (input_img e) :: forwarded e /\
     Forall clamped (clamp_ 0 1 (input_img e)) /\
     input_img e' = clamp_ 0 1 (input_img e) /\
     loss_attrs e' = snd (forward model (clamp_ 0 1 (input_img e)) (loss_attrs e))) /\
  (forall e,
     run_style_transfer_with content_layers style_layers fuel cnn
       normalization_mean normalization_std content_img style_img input
       num_steps style_weight content_weight = Some (Ok e) ->
     Forall (Forall clamped) (forwarded e) /\
     Z.of_nat (List.length (forwarded e)) = run e /\
     Forall clamped (input_img e) /\
     exists last, input_img e = clamp_ 0 1 last) /\
  (conv_names content_layers = true ->
   conv_names style_layers = true ->
   forallb recognized cnn = true ->
   hits content_layers (layer_names 0 cnn) = true ->
   hits style_layers (layer_names 0 cnn) = true ->
   (Z.to_nat (num_steps + 1) < fuel)%nat ->
   exists e,
     run_style_transfer_with content_layers style_layers fuel cnn
       normalization_mean normalization_std content_img style_img input
       num_steps style_weight content_weight = Some (Ok e) /\
     Forall clamped (input_img e)).
Proof.
  destruct (clamped_when_returned content_layers style_layers fuel cnn
              normalization_mean normalization_std content_img style_img input
              num_steps style_weight content_weight) as [Each Returned].
  split; [exact clamp_pixelwise|]. split; [exact Each|]. split; [exact Returned|].
  intros Cc Cs R Hc Hs F.
  destruct (run_style_transfer_returns content_layers style_layers fuel cnn
              normalization_mean normalization_std content_img style_img input
              num_steps style_weight content_weight Cc Cs R Hc Hs F) as [e E].
  exists e. split; [exact E|]. apply (Returned e E).
Qed.

End Returning_runs.

(** ** Names that clash *)

Section Name_clashes.

Context {torch : Torch}.

(** C1.  The node count of the specification is the one of the graph as
    long as no two modules are registered under one name
    ([node_count_without_name_clash]); two children that get the same name
    share one place in the graph.  With the content layers [conv_1] and
    [relu_1] on a convolution followed by an activation, the second content
    probe is named [content_loss_1] like the first and takes its place: two
    probes were created, the graph that is returned has three nodes, and
    the count of the specification is five.  With the shipped names on an
    extractor with two poolings in a row, both named [pool_1], the graph
    has six nodes where the count is seven. *)
Theorem node_count_under_name_clash
    (normalization_mean normalization_std style_img content_img : Tensor) :
  (exists b,
     get_style_model_and_losses [conv; relu] normalization_mean normalization_std
       style_img content_img ["conv_1"; "relu_1"] [] = Ok b /\
     layer_names 0 [conv; relu] = ["conv_1"; "relu_1"] /\
     map fst (graph b) = ["0"; "conv_1"; "content_loss_1"] /\
     List.length (content_probes b) = 2 /\
     List.length (graph b) = 3 /\
     specified_node_count ["conv_1"; "relu_1"] [] (layer_names 0 [conv; relu]) = 5 /\
     List.length (graph b) <>
       specified_node_count ["conv_1"; "relu_1"] [] (layer_names 0 [conv; relu])) /\
  (exists b,
     get_style_model_and_losses [conv; pool; pool; conv]
       normalization_mean normalization_std
       style_img content_img content_layers_default style_layers_default = Ok b /\
     layer_names 0 [conv; pool; pool; conv] = ["conv_1"; "pool_1"; "pool_1"; "conv_2"] /\
     map fst (graph b) =
       ["0"; "conv_1"; "style_loss_1"; "pool_1"; "conv_2"; "style_loss_2"] /\
     List.length (graph b) = 6 /\
     specified_node_count content_layers_default style_layers_default
       (layer_names 0 [conv; pool; pool; conv]) = 7).
Proof.
  split.
  - destruct (get_style_model_and_losses [conv; relu] normalization_mean normalization_std
                style_img content_img ["conv_1"; "relu_1"] []) as [b|x] eqn:E;
      vm_compute in E; [injection E as <- | discriminate E].
    eexists. split; [reflexivity|]. vm_compute.
    repeat split. intros D. discriminate D.
  - destruct (get_style_model_and_losses [conv; pool; pool; conv]
                normalization_mean normalization_std
                style_img content_img content_layers_default style_layers_default)
      as [b|x] eqn:E;
      vm_compute in E; [injection E as <- | discriminate E].
    eexists. split; [reflexivity|]. vm_compute. repeat split.
Qed.

(** C9.  A layer named in both sets gets its content probe and then its
    style probe right after it when their names are new
    ([probes_follow_layer_without_name_clash]).  With [conv_1] and [relu_1]
    both content and style layers, the two probes made for [relu_1], whose
    targets are the features after the activation, are named
    [content_loss_1] and [style_loss_1] like those made for [conv_1] and
    take their places: they stand before [relu_1] in the graph, right after
    [conv_1], and the graph that is returned ends before [relu_1]. *)
Theorem probes_of_second_layer_replace_first
    (normalization_mean normalization_std style_img content_img : Tensor) :
  let names := ["conv_1"; "relu_1"] in
  let after_relu img :=
    layer_forward ReLU_out_of_place
      (layer_forward conv (normalize normalization_mean normalization_std img)) in
  (exists b,
     walk style_img content_img names names [conv; relu]
          (start normalization_mean normalization_std) = Ok b /\
     model b =
       [("0", Normalization normalization_mean normalization_std);
        ("conv_1", Net conv);
        ("content_loss_1", ContentLoss 2 (after_relu content_img));
        ("style_loss_1", StyleLoss 3 (gram_matrix (after_relu style_img)));
        ("relu_1", Net ReLU_out_of_place)] /\
     index_of (model b) "relu_1" = Some 4 /\
     index_of (model b) "content_loss_1" = Some 2 /\
     index_of (model b) "style_loss_1" = Some 3 /\
     List.length (content_losses b) = 2 /\
     List.length (style_losses b) = 2) /\
  (exists r,
     get_style_model_and_losses [conv; relu] normalization_mean normalization_std
       style_img content_img names names = Ok r /\
     map fst (graph r) = ["0"; "conv_1"; "content_loss_1"; "style_loss_1"]).
Proof.
  intros names after_relu. split.
  - destruct (walk style_img content_img names names [conv; relu]
                (start normalization_mean normalization_std)) as [b|x] eqn:E;
      vm_compute in E; [injection E as <- | discriminate E].
    eexists. split; [reflexivity|]. vm_compute. repeat split.
  - destruct (get_style_model_and_losses [conv; relu] normalization_mean normalization_std
                style_img content_img names names) as [b|x] eqn:E;
      vm_compute in E; [injection E as <- | discriminate E].
    eexists. split; [reflexivity|]. vm_compute. repeat split.
Qed.

End Name_clashes.

(** ** What the walk keeps, whatever the names *)

Section Walk_invariants.

Context {torch : Torch}.

Variables (style_img content_img : Tensor).
Variables (content_layers style_layers : list string).

Lemma attach_content_eq (b : builder) :
  attach_content content_img b =
    let r := forward (model b) content_img (attrs b) in
    let p := ContentLoss (fresh b) (fst r) in
    {| model := add_module (model b) ("content_loss_" ++ format_int (counter b)) p;
       content_losses := (content_losses b ++ [p])%list;
       style_losses := style_losses b;
       counter := counter b;
       attrs := snd r |}.
Proof.
  unfold attach_content.
  destruct (forward (model b) content_img (attrs b)) as [t h]. reflexivity.
Qed.

Lemma attach_style_eq (b : builder) :
  attach_style style_img b =
    let r := forward (model b) style_img (attrs b) in
    let p := StyleLoss (fresh b) (gram_matrix (fst r)) in
    {| model := add_module (model b) ("style_loss_" ++ format_int (counter b)) p;
       content_losses := content_losses b;
       style_losses := (style_losses b ++ [p])%list;
       counter := counter b;
       attrs := snd r |}.
Proof.
  unfold attach_style.
  destruct (forward (model b) style_img (attrs b)) as [t h]. reflexivity.
Qed.

(** A property of the locals that the three steps of a visit keep is kept
    by the walk of layers of the extractor [cnn0]. *)
Lemma walk_keeps (cnn0 : list layer) (P : builder -> Prop) :
  (forall b l i name l',
     P b -> In l cnn0 -> name_layer (counter b) l = Ok (i, name, l') ->
     P {| model := add_module (model b) name (Net l');
          content_losses := content_losses b;
          style_losses := style_losses b;
          counter := i;
          attrs := attrs b |}) ->
  (forall b, P b -> P (attach_content content_img b)) ->
  (forall b, P b -> P (attach_style style_img b)) ->
  forall cnn b b',
    incl cnn cnn0 -> P b ->
    walk style_img content_img content_layers style_layers cnn b = Ok b' -> P b'.
Proof.
  intros Layer Content Style.
  induction cnn as [|l rest IH]; intros b b' Sub Pb W; simpl in W.
  - injection W as <-. exact Pb.
  - destruct (visit style_img content_img content_layers style_layers b l)
      as [b1|x] eqn:V; simpl in W; [|discriminate W].
    apply (IH b1 b'); [intros y I; apply Sub; right; exact I | | exact W].
    unfold visit in V.
    destruct (name_layer (counter b) l) as [[[i name] l']|x] eqn:N; simpl in V;
      [|discriminate V].
    injection V as <-.
    assert (P0 := Layer b l i name l' Pb (Sub l (or_introl eq_refl)) N).
    destruct (mem name content_layers); destruct (mem name style_layers); auto.
Qed.

Lemma name_layer_inv (i i' : nat) (l l' : layer) (name : string) :
  name_layer i l = Ok (i', name, l') ->
  recognized l = true /\
  i' = (if is_conv l then S i else i) /\
  name = kind_prefix (cls l) ++ format_int i' /\
  Net l' = installed l /\
  cls l' = cls l /\
  (l' = ReLU_out_of_place \/ (l' = l /\ cls l <> ReLU)).
Proof.
  unfold name_layer, recognized, is_conv, installed.
  destruct (cls l) eqn:C; intros E; try discriminate E; injection E as <- <- <-;
    (split; [reflexivity|]); (split; [reflexivity|]); (split; [reflexivity|]);
    (split; [reflexivity|]); (split; [first [exact C | reflexivity]|]);
    first [left; reflexivity | right; split; [reflexivity | discriminate]].
Qed.

Lemma forallb_add_module (f : string * module -> bool) (s : sequential)
    (key : string) (m : module) :
  (forall k, f (k, m) = true) -> forallb f s = true ->
  forallb f (add_module s key m) = true.
Proof.
  intros M. induction s as [|[k old] rest IH]; simpl; intros F.
  - rewrite M. reflexivity.
  - apply andb_true_iff in F. destruct F as [F1 F2].
    destruct (String.eqb k key); simpl.
    + rewrite M, F2. reflexivity.
    + rewrite F1, (IH F2). reflexivity.
Qed.

Lemma keys_add_module_inv (s : sequential) (key k : string) (m : module) :
  In k (map fst (add_module s key m)) -> k = key \/ In k (map fst s).
Proof.
  intros I. apply in_map_iff in I. destruct I as ([k' m'] & <- & I).
  apply In_add_module_inv in I. destruct I as [I|I].
  - injection I as -> _. auto.
  - right. apply in_map_iff. exists (k', m'). auto.
Qed.

Lemma NoDup_add_module (s : sequential) (key : string) (m : module) :
  NoDup (map fst s) -> NoDup (map fst (add_module s key m)).
Proof.
  induction s as [|[k old] rest IH]; simpl; intros D.
  - constructor; [intros [] | constructor].
  - inversion D as [|k0 ks N D']; subst.
    destruct (String.eqb k key) eqn:E; simpl.
    + exact D.
    + constructor; [|apply IH, D'].
      intros I. apply keys_add_module_inv in I. destruct I as [->|I]; [|contradiction].
      rewrite String.eqb_refl in E. discriminate E.
Qed.

Lemma In_firstn (A : Type) (n : nat) (l : list A) (x : A) :
  In x (firstn n l) -> In x l.
Proof.
  intros I. rewrite <- (firstn_skipn n l). apply in_or_app. left. exact I.
Qed.

Lemma NoDup_firstn (A : Type) (n : nat) (l : list A) :
  NoDup l -> NoDup (firstn n l).
Proof.
  intros D. rewrite <- (firstn_skipn n l) in D. apply NoDup_app_remove_r in D. exact D.
Qed.

Lemma walk_keeps_head (normalization_mean normalization_std : Tensor)
    (cnn : list layer) (b b' : builder) :
  (exists tail,
     model b = ("0", Normalization normalization_mean normalization_std) :: tail /\
     forallb (fun km : string * module => negb (is_normalization (snd km))) tail = true /\
     NoDup (map fst (model b))) ->
  walk style_img content_img content_layers style_layers cnn b = Ok b' ->
  exists tail,
    model b' = ("0", Normalization normalization_mean normalization_std) :: tail /\
    forallb (fun km : string * module => negb (is_normalization (snd km))) tail = true /\
    NoDup (map fst (model b')).
Proof.
  intros Pb W.
  assert (Step : forall (s : sequential) (key : string) (m : module),
             String.eqb "0" key = false -> is_normalization m = false ->
             (exists tail,
                s = ("0", Normalization normalization_mean normalization_std) :: tail /\
                forallb (fun km : string * module => negb (is_normalization (snd km)))
                        tail = true /\
                NoDup (map fst s)) ->
             exists tail,
               add_module s key m =
                 ("0", Normalization normalization_mean normalization_std) :: tail /\
               forallb (fun km : string * module => negb (is_normalization (snd km)))
                       tail = true /\
               NoDup (map fst (add_module s key m))).
  { intros s key m K M (tail & E & F & D).
    exists (add_module tail key m). split; [|split].
    - rewrite E. cbn [add_module]. rewrite K. reflexivity.
    - apply forallb_add_module; [|exact F]. intros k. simpl. rewrite M. reflexivity.
    - apply NoDup_add_module, D. }
  refine (walk_keeps cnn
            (fun b => exists tail,
               model b =
                 ("0", Normalization normalization_mean normalization_std) :: tail /\
               forallb (fun km : string * module => negb (is_normalization (snd km)))
                       tail = true /\
               NoDup (map fst (model b)))
            _ _ _ cnn b b' (incl_refl cnn) Pb W).
  - intros b0 l i name l' P0 _ N. cbn [model].
    destruct (name_layer_inv _ _ _ _ _ N) as (R & _ & -> & _).
    apply Step; [|reflexivity|exact P0].
    unfold recognized in R. destruct (cls l); try reflexivity. discriminate R.
  - intros b0 P0. rewrite attach_content_eq. cbn [model]. cbv zeta.
    apply Step; [reflexivity|reflexivity|exact P0].
  - intros b0 P0. rewrite attach_style_eq. cbn [model]. cbv zeta.
    apply Step; [reflexivity|reflexivity|exact P0].
Qed.

Lemma walk_keeps_layers (cnn : list layer) (b b' : builder) :
  (forall k l,
     In (k, Net l) (model b) ->
     (l = ReLU_out_of_place \/ (In l cnn /\ cls l <> ReLU)) /\
     exists n, n <= counter b /\ k = kind_prefix (cls l) ++ format_int n) ->
  walk style_img content_img content_layers style_layers cnn b = Ok b' ->
  forall k l,
    In (k, Net l) (model b') ->
    (l = ReLU_out_of_place \/ (In l cnn /\ cls l <> ReLU)) /\
    exists n, n <= counter b' /\ k = kind_prefix (cls l) ++ format_int n.
Proof.
  intros Pb W.
  refine (walk_keeps cnn
            (fun b => forall k l,
               In (k, Net l) (model b) ->
               (l = ReLU_out_of_place \/ (In l cnn /\ cls l <> ReLU)) /\
               exists n, n <= counter b /\ k = kind_prefix (cls l) ++ format_int n)
            _ _ _ cnn b b' (incl_refl cnn) Pb W).
  - intros b0 l i name l' P0 I N k l0 I0. cbn [model counter] in *.
    destruct (name_layer_inv _ _ _ _ _ N) as (R & Ci & Nm & _ & Cl & Or).
    assert (Le : counter b0 <= i) by (subst i; destruct (is_conv l); lia).
    apply In_add_module_inv in I0. destruct I0 as [I0|I0].
    + injection I0 as Ek El. subst k l0. split.
      * destruct Or as [E|[E Nr]]; [left; exact E|]. right. subst l'. auto.
      * exists i. split; [lia|]. rewrite Cl. exact Nm.
    + destruct (P0 k l0 I0) as (A & n & Ln & K). split; [exact A|].
      exists n. split; [lia | exact K].
  - intros b0 P0 k l I. rewrite attach_content_eq in *. cbn [model counter] in *.
    cbv zeta in I. apply In_add_module_inv in I. destruct I as [I|I].
    + discriminate I.
    + exact (P0 k l I).
  - intros b0 P0 k l I. rewrite attach_style_eq in *. cbn [model counter] in *.
    cbv zeta in I. apply In_add_module_inv in I. destruct I as [I|I].
    + discriminate I.
    + exact (P0 k l I).
Qed.

Lemma walk_keeps_listed (cnn : list layer) (b b' : builder) :
  ((forall k p, In (k, p) (model b) -> is_loss p = true ->
                In p (content_losses b ++ style_losses b)) /\
   forallb is_content_loss (content_losses b) = true /\
   forallb is_style_loss (style_losses b) = true) ->
  walk style_img content_img content_layers style_layers cnn b = Ok b' ->
  (forall k p, In (k, p) (model b') -> is_loss p = true ->
               In p (content_losses b' ++ style_losses b')) /\
  forallb is_content_loss (content_losses b') = true /\
  forallb is_style_loss (style_losses b') = true.
Proof.
  intros Pb W.
  refine (walk_keeps cnn
            (fun b =>
               (forall k p, In (k, p) (model b) -> is_loss p = true ->
                            In p (content_losses b ++ style_losses b)) /\
               forallb is_content_loss (content_losses b) = true /\
               forallb is_style_loss (style_losses b) = true)
            _ _ _ cnn b b' (incl_refl cnn) Pb W).
  - intros b0 l i name l' (A & B & C) _ _. cbn [model content_losses style_losses].
    split; [|auto]. intros k p I L. apply In_add_module_inv in I.
    destruct I as [I|I]; [injection I as _ E; subst p; discriminate L | exact (A k p I L)].
  - intros b0 (A & B & C). rewrite attach_content_eq.
    cbn [model content_losses style_losses]. cbv zeta.
    split; [|split; [|exact C]].
    + intros k p I L. apply In_add_module_inv in I. destruct I as [I|I].
      * injection I as _ <-. apply in_or_app. left. apply in_or_app. right. left.
        reflexivity.
      * specialize (A k p I L). apply in_app_or in A. apply in_or_app.
        destruct A; [left; apply in_or_app|]; auto.
    + rewrite forallb_app, B. reflexivity.
  - intros b0 (A & B & C). rewrite attach_style_eq.
    cbn [model content_losses style_losses]. cbv zeta.
    split; [|split; [exact B|]].
    + intros k p I L. apply In_add_module_inv in I. destruct I as [I|I].
      * injection I as _ <-. apply in_or_app. right. apply in_or_app. right. left.
        reflexivity.
      * specialize (A k p I L). apply in_app_or in A. apply in_or_app.
        destruct A; [|right; apply in_or_app]; auto.
    + rewrite forallb_app, C. reflexivity.
Qed.

(** The loss modules of the graph go by the names of probes, and the
    graph holds a loss module once a probe was made. *)
Lemma walk_keeps_some_probe (cnn : list layer) (b b' : builder) :
  ((forall k p, In (k, p) (model b) -> is_loss p = true -> exists n, probe_key k n) /\
   ((exists k p, In (k, p) (model b) /\ is_loss p = true) \/
    (content_losses b = [] /\ style_losses b = []))) ->
  walk style_img content_img content_layers style_layers cnn b = Ok b' ->
  (forall k p, In (k, p) (model b') -> is_loss p = true -> exists n, probe_key k n) /\
  ((exists k p, In (k, p) (model b') /\ is_loss p = true) \/
   (content_losses b' = [] /\ style_losses b' = [])).
Proof.
  intros Pb W.
  refine (walk_keeps cnn
            (fun b =>
               (forall k p, In (k, p) (model b) -> is_loss p = true ->
                            exists n, probe_key k n) /\
               ((exists k p, In (k, p) (model b) /\ is_loss p = true) \/
                (content_losses b = [] /\ style_losses b = [])))
            _ _ _ cnn b b' (incl_refl cnn) Pb W).
  - intros b0 l i name l' (K & A) _ N.
    cbn [model content_losses style_losses attrs].
    destruct (name_layer_inv _ _ _ _ _ N) as (R & _ & Nm & _).
    split.
    + intros k p I L. apply In_add_module_inv in I.
      destruct I as [I|I]; [injection I as _ E; subst p; discriminate L|].
      exact (K k p I L).
    + destruct A as [(k & p & I & L)|E]; [left|right; exact E].
      exists k, p. split; [|exact L].
      apply In_add_module_other; [exact I|].
      destruct (K k p I L) as (n & Kn). rewrite Nm.
      apply probe_key_not_layer with (n := n); assumption.
  - intros b0 (K & _). rewrite attach_content_eq.
    cbn [model content_losses style_losses attrs]. cbv zeta.
    split.
    + intros k p I L. apply In_add_module_inv in I. destruct I as [I|I].
      * injection I as -> _. exists (counter b0). left. reflexivity.
      * exact (K k p I L).
    + left. do 2 eexists. split; [apply In_add_module_new|reflexivity].
  - intros b0 (K & _). rewrite attach_style_eq.
    cbn [model content_losses style_losses attrs]. cbv zeta.
    split.
    + intros k p I L. apply In_add_module_inv in I. destruct I as [I|I].
      * injection I as -> _. exists (counter b0). right. reflexivity.
      * exact (K k p I L).
    + left. do 2 eexists. split; [apply In_add_module_new|reflexivity].
Qed.

(** The two lists get one probe for each layer whose name is configured. *)
Lemma walk_counts (cnn : list layer) :
  forall b b',
    walk style_img content_img content_layers style_layers cnn b = Ok b' ->
    List.length (content_losses b') =
      List.length (content_losses b) +
      List.length (filter (fun name => mem name content_layers)
                          (layer_names (counter b) cnn)) /\
    List.length (style_losses b') =
      List.length (style_losses b) +
      List.length (filter (fun name => mem name style_layers)
                          (layer_names (counter b) cnn)).
Proof.
  induction cnn as [|l rest IH]; intros b b' W; simpl in W.
  - injection W as <-. simpl. lia.
  - destruct (visit style_img content_img content_layers style_layers b l)
      as [b1|x] eqn:V; simpl in W; [|discriminate W].
    destruct (IH b1 b' W) as [Hc Hs]. rewrite Hc, Hs. clear Hc Hs IH W.
    unfold visit in V. cbn [layer_names].
    destruct (name_layer (counter b) l) as [[[i name] l']|x] eqn:N; simpl in V;
      [|discriminate V].
    injection V as <-. cbn [filter].
    rewrite ?attach_content_eq, ?attach_style_eq.
    destruct (mem name content_layers); destruct (mem name style_layers);
      rewrite ?attach_content_eq, ?attach_style_eq;
      cbn [content_losses style_losses counter List.length]; cbv zeta;
      rewrite ?attach_content_eq;
      cbn [content_losses style_losses counter List.length];
      rewrite ?length_app; cbn [List.length]; lia.
Qed.

End Walk_invariants.

(** ** The graph that is returned *)

Section Returned_graph.

Context {torch : Torch}.

Variables (style_img content_img : Tensor).
Variables (content_layers style_layers : list string).

Lemma built_of_walk (cnn : list layer) (normalization_mean normalization_std : Tensor)
    (r : built) :
  get_style_model_and_losses cnn normalization_mean normalization_std
    style_img content_img content_layers style_layers = Ok r ->
  exists b,
    walk style_img content_img content_layers style_layers cnn
      (start normalization_mean normalization_std) = Ok b /\
    graph r = slice_to (model b) (trim_index (model b) (counter b) + 1) /\
    style_probes r = style_losses b /\
    content_probes r = content_losses b.
Proof.
  unfold get_style_model_and_losses.
  destruct (walk style_img content_img content_layers style_layers cnn
              (start normalization_mean normalization_std)) as [b|x];
    simpl; intros E; [|discriminate E].
  injection E as <-. exists b. auto.
Qed.

Lemma walk_ok_recognized (cnn : list layer) :
  forall b b',
    walk style_img content_img content_layers style_layers cnn b = Ok b' ->
    forallb recognized cnn = true.
Proof.
  induction cnn as [|l rest IH]; simpl; intros b b' W; [reflexivity|].
  destruct (visit style_img content_img content_layers style_layers b l)
    as [b1|x] eqn:V; simpl in W; [|discriminate W].
  rewrite (IH _ _ W), andb_true_r.
  unfold visit in V.
  destruct (name_layer (counter b) l) as [[[i name] l']|x] eqn:N; simpl in V;
    [|discriminate V].
  destruct (name_layer_inv _ _ _ _ _ N) as (R & _). exact R.
Qed.

Lemma no_probe_after_cut (s : sequential) (n : nat) :
  cut (flags s) <= n -> no_probe (skipn n s) = true.
Proof.
  intros C. unfold no_probe. apply forallb_forall. intros [k m] I.
  apply In_nth_error in I. destruct I as [j E]. rewrite nth_error_skipn in E.
  cbn [snd]. destruct (is_loss m) eqn:L; [|reflexivity].
  assert (F : nth_error (flags s) (n + j) = Some true).
  { unfold flags. rewrite nth_error_map, E. simpl. rewrite L. reflexivity. }
  apply true_before_cut in F. lia.
Qed.

Lemma firstn_snoc (A : Type) (l : list A) :
  forall n x, nth_error l n = Some x -> firstn (S n) l = (firstn n l ++ [x])%list.
Proof.
  induction l as [|a l IH]; intros [|n] x E; simpl in E; try discriminate E.
  - injection E as ->. reflexivity.
  - change (a :: firstn (S n) l = a :: (firstn n l ++ [x])%list).
    f_equal. apply IH, E.
Qed.

Lemma forallb_firstn (A : Type) (f : A -> bool) (n : nat) (l : list A) :
  forallb f l = true -> forallb f (firstn n l) = true.
Proof.
  intros F. apply forallb_forall. intros x I.
  apply (proj1 (forallb_forall f l) F). exact (In_firstn _ _ _ _ I).
Qed.

Lemma start_head (normalization_mean normalization_std : Tensor) :
  exists tail,
    model (start normalization_mean normalization_std) =
      ("0", Normalization normalization_mean normalization_std) :: tail /\
    forallb (fun km : string * module => negb (is_normalization (snd km))) tail = true /\
    NoDup (map fst (model (start normalization_mean normalization_std))).
Proof.
  exists []. split; [reflexivity|]. split; [reflexivity|].
  simpl. constructor; [intros []|constructor].
Qed.

(** X1.  Lines 76-80: the graph that is returned is the graph the walk
    built, cut right after its last loss module.  Nothing that is cut off
    is a loss module; the graph ends with a loss module, or else it is the
    normalisation stage alone and no probe was made.  This holds for every
    configuration, also when names clash. *)
Theorem graph_cut_after_last_probe
    (cnn : list layer) (normalization_mean normalization_std : Tensor) (r : built) :
  get_style_model_and_losses cnn normalization_mean normalization_std
    style_img content_img content_layers style_layers = Ok r ->
  exists b,
    walk style_img content_img content_layers style_layers cnn
      (start normalization_mean normalization_std) = Ok b /\
    graph r = firstn (List.length (graph r)) (model b) /\
    no_probe (skipn (List.length (graph r)) (model b)) = true /\
    ((exists pre k m, graph r = (pre ++ [(k, m)])%list /\ is_loss m = true) \/
     (graph r = [("0", Normalization normalization_mean normalization_std)] /\
      content_probes r = [] /\ style_probes r = [])).
Proof.
  intros G. destruct (built_of_walk _ _ _ _ G) as (b & W & Gr & Sp & Cp).
  exists b. split; [exact W|].
  destruct (walk_keeps_head _ _ _ _ _ _ _ _ _ (start_head _ _) W)
    as (tail & M & _ & _).
  assert (NE : model b <> []) by (rewrite M; discriminate).
  pose proof (trim_index_cut (model b) (counter b) NE) as T.
  pose proof (cut_le (flags (model b))) as Le. rewrite length_flags in Le.
  assert (L1 : 1 <= List.length (model b)) by (rewrite M; simpl; lia).
  assert (Len : List.length (graph r) = trim_index (model b) (counter b) + 1).
  { rewrite Gr. unfold slice_to. apply firstn_length_le. lia. }
  rewrite Len. split; [exact Gr|]. split; [apply no_probe_after_cut; lia|].
  rewrite Gr, Sp, Cp. unfold slice_to.
  destruct (cut (flags (model b))) as [|c] eqn:C.
  - right. replace (trim_index (model b) (counter b) + 1) with 1 by lia.
    rewrite M. split; [reflexivity|].
    destruct (walk_keeps_some_probe style_img content_img content_layers style_layers cnn
                (start normalization_mean normalization_std) b) as (_ & [P|E]).
    + split.
      * intros k p [I|[]] L. injection I as _ <-. discriminate L.
      * right. split; reflexivity.
    + exact W.
    + destruct P as (k & p & I & L). exfalso.
      apply In_nth_error in I. destruct I as [t E].
      assert (F : nth_error (flags (model b)) t = Some true).
      { unfold flags. rewrite nth_error_map, E. simpl. rewrite L. reflexivity. }
      apply true_before_cut in F. lia.
    + exact E.
  - left. replace (trim_index (model b) (counter b) + 1) with (S c) by lia.
    pose proof (cut_true _ _ C) as Ct. unfold flags in Ct.
    rewrite nth_error_map in Ct.
    destruct (nth_error (model b) c) as [[k m]|] eqn:E; [|discriminate Ct].
    simpl in Ct. injection Ct as Ct.
    exists (firstn c (model b)), k, m. split; [|exact Ct].
    apply firstn_snoc. exact E.
Qed.

(** X2.  Lines 36-43 and 59: the first child of the returned graph is the
    normalisation stage made from the given mean and deviation, under the
    name ["0"]; no other child is a normalisation, and no two children
    have one name. *)
Theorem graph_starts_with_normalization
    (cnn : list layer) (normalization_mean normalization_std : Tensor) (r : built) :
  get_style_model_and_losses cnn normalization_mean normalization_std
    style_img content_img content_layers style_layers = Ok r ->
  exists rest,
    graph r = ("0", Normalization normalization_mean normalization_std) :: rest /\
    forallb (fun km : string * module => negb (is_normalization (snd km))) rest = true /\
    NoDup (map fst (graph r)).
Proof.
  intros G. destruct (built_of_walk _ _ _ _ G) as (b & W & Gr & _).
  destruct (walk_keeps_head _ _ _ _ _ _ _ _ _ (start_head _ _) W)
    as (tail & M & F & D).
  rewrite Gr. unfold slice_to.
  replace (trim_index (model b) (counter b) + 1)
    with (S (trim_index (model b) (counter b))) by lia.
  set (t := trim_index (model b) (counter b)). clearbody t.
  exists (firstn t tail).
  split; [rewrite M; reflexivity|]. split; [apply forallb_firstn, F|].
  rewrite <- firstn_map. apply NoDup_firstn, D.
Qed.

(** X3.  Lines 45-59: a layer of the returned graph is either a new
    out-of-place activation, or a layer of the extractor itself that is
    not an activation, so that no in-place activation of the extractor
    goes into the graph; its name is made of its kind and of a number
    that is at most the number of convolutions of the extractor. *)
Theorem graph_layers_from_extractor
    (cnn : list layer) (normalization_mean normalization_std : Tensor) (r : built) :
  get_style_model_and_losses cnn normalization_mean normalization_std
    style_img content_img content_layers style_layers = Ok r ->
  forall k l,
    In (k, Net l) (graph r) ->
    (l = ReLU_out_of_place \/ (In l cnn /\ cls l <> ReLU)) /\
    exists n, n <= count_conv cnn /\ k = kind_prefix (cls l) ++ format_int n.
Proof.
  intros G k l I. destruct (built_of_walk _ _ _ _ G) as (b & W & Gr & _).
  rewrite Gr in I. apply In_firstn in I.
  pose proof (walk_counter _ _ _ _ _ _ _ W) as C. simpl in C. rewrite <- C.
  apply (walk_keeps_layers style_img content_img content_layers style_layers cnn (start normalization_mean normalization_std) b);
    [|exact W|exact I].
  intros k0 l0 [I0|[]]. discriminate I0.
Qed.

(** X4.  Lines 61-73: the list of content probes that is returned has one
    [ContentLoss] for each layer of the extractor whose generated name is
    in the content set, the list of style probes one [StyleLoss] for each
    layer whose name is in the style set, whether or not names clash in
    the graph. *)
Theorem probe_lists_by_configured_names
    (cnn : list layer) (normalization_mean normalization_std : Tensor) (r : built) :
  get_style_model_and_losses cnn normalization_mean normalization_std
    style_img content_img content_layers style_layers = Ok r ->
  List.length (content_probes r) =
    List.length (filter (fun name => mem name content_layers) (layer_names 0 cnn)) /\
  List.length (style_probes r) =
    List.length (filter (fun name => mem name style_layers) (layer_names 0 cnn)) /\
  forallb is_content_loss (content_probes r) = true /\
  forallb is_style_loss (style_probes r) = true.
Proof.
  intros G. destruct (built_of_walk _ _ _ _ G) as (b & W & _ & Sp & Cp).
  rewrite Sp, Cp.
  destruct (walk_counts _ _ _ _ _ _ _ W) as [Lc Ls].
  destruct (walk_keeps_listed style_img content_img content_layers style_layers cnn (start normalization_mean normalization_std) b)
    as (_ & Fc & Fs); [|exact W|].
  { split; [|split; reflexivity].
    intros k p [I|[]] L. injection I as _ <-. discriminate L. }
  simpl in Lc, Ls. auto.
Qed.

(** X5.  Lines 61-73 and 76-80: every loss module of the returned graph
    is one of the probes of the two lists that are returned with it; and
    with convolutions only as configured layers, as with the shipped
    names, every probe of the two lists is a child of the returned graph,
    so that the loss modules of the graph are exactly the probes the
    optimisation reads. *)
Theorem graph_probes_are_the_listed_probes
    (cnn : list layer) (normalization_mean normalization_std : Tensor) (r : built) :
  get_style_model_and_losses cnn normalization_mean normalization_std
    style_img content_img content_layers style_layers = Ok r ->
  (forall p, is_loss p = true -> In p (map snd (graph r)) ->
             In p (content_probes r ++ style_probes r)) /\
  (conv_names content_layers = true ->
   conv_names style_layers = true ->
   forall p, In p (content_probes r ++ style_probes r) ->
             is_loss p = true /\ In p (map snd (graph r))).
Proof.
  intros G. destruct (built_of_walk _ _ _ _ G) as (b & W & Gr & Sp & Cp).
  split.
  - intros p L I. apply in_map_iff in I. destruct I as ([k p'] & E & I).
    simpl in E. subst p'.
    rewrite Gr in I. apply In_firstn in I. rewrite Sp, Cp.
    destruct (walk_keeps_listed style_img content_img content_layers style_layers cnn
                (start normalization_mean normalization_std) b)
      as (A & _); [|exact W|exact (A k p I L)].
    split; [|split; reflexivity].
    intros k0 p0 [I0|[]] L0. injection I0 as _ <-. discriminate L0.
  - intros Cc Cs p I.
    destruct (probes_of_convolutions_in_graph style_img content_img
                content_layers style_layers Cc Cs cnn
                normalization_mean normalization_std
                (walk_ok_recognized _ _ _ W)) as (r' & G' & A & _).
    rewrite G in G'. injection G' as <-.
    apply A. apply in_app_or in I. apply in_or_app. tauto.
Qed.

End Returned_graph.

(** ** Invariants of the optimisation loop *)

Section Loop_invariant.

Context {torch : Torch}.

(** What every evaluation of the closure keeps, and what the optimiser
    cannot touch, holds when the loop is left. *)
Variable cl : env -> result (env * pyval).
Variable J : env -> Prop.

Hypothesis J_cl : forall e e' v, J e -> cl e = Ok (e', v) -> J e'.
Hypothesis J_set_input : forall e x, J e -> J (set_input e x).
Hypothesis J_count_step : forall e, J e -> J (count_step e).

Lemma follow_keeps (p : plan lbfgs_state) :
  forall e e' o, J e -> follow cl p e = Ok (e', o) -> J e'.
Proof.
  induction p as [x0 o0|x k IH]; simpl; intros e e' o Je E.
  - injection E as <- _. apply J_set_input, Je.
  - destruct (cl (set_input e x)) as [[e1 loss]|] eqn:C; simpl in E; [|discriminate E].
    apply (IH _ _ _ _ _ (J_cl _ _ _ (J_set_input _ x Je) C) E).
Qed.

Lemma while_loop_keeps (num_steps : Z) (fuel : nat) :
  forall o e e', J e -> while_loop fuel cl num_steps o e = Some (Ok e') -> J e'.
Proof.
  induction fuel as [|fuel IH]; simpl; intros o e e' Je W; [discriminate W|].
  destruct (run e <=? num_steps)%Z.
  - unfold LBFGS_step in W.
    destruct (cl (count_step e)) as [[e1 loss]|] eqn:C; simpl in W; [|discriminate W].
    destruct (follow cl (lbfgs o (input_img e1) (py_float loss) (flat_grad e1)) e1)
      as [[e2 o2]|] eqn:F; [|discriminate W].
    apply (IH _ _ _ (follow_keeps _ _ _ _ (J_cl _ _ _ (J_count_step _ Je) C) F) W).
  - injection W as <-. exact Je.
Qed.

End Loop_invariant.

(** ** The console *)

Section Progress_reports.

Context {torch : Torch}.

Lemma report_runs_app (a b : list line) :
  report_runs (a ++ b) = (report_runs a ++ report_runs b)%list.
Proof.
  induction a as [|[s|r s c] a IH]; simpl; [reflexivity|exact IH|].
  rewrite IH. reflexivity.
Qed.

Lemma fifties_next (r : Z) :
  (0 <= r)%Z ->
  fifties (r + 1) =
    if ((r + 1) mod 50 =? 0)%Z then (fifties r ++ [(r + 1)%Z])%list else fifties r.
Proof.
  intros R. unfold fifties.
  pose proof (Z.div_mod r 50) as D. pose proof (Z.div_mod (r + 1) 50) as D'.
  pose proof (Z.mod_pos_bound r 50) as B. pose proof (Z.mod_pos_bound (r + 1) 50) as B'.
  assert (P : (0 <= r / 50)%Z) by (apply Z.div_pos; lia).
  destruct ((r + 1) mod 50 =? 0)%Z eqn:E.
  - apply Z.eqb_eq in E.
    assert (Q1 : ((r + 1) / 50 = r / 50 + 1)%Z) by lia.
    rewrite Q1. replace (Z.to_nat (r / 50 + 1)) with (S (Z.to_nat (r / 50))) by lia.
    rewrite seq_S, map_app. cbn [map]. do 2 f_equal. lia.
  - apply Z.eqb_neq in E.
    assert (Q1 : ((r + 1) / 50 = r / 50)%Z) by lia.
    rewrite Q1. reflexivity.
Qed.

(** What an evaluation of the closure prints. *)
Lemma py_item_tensor (v : pyval) (w : pynum) (x : float) :
  py_item (py_mul v w) = Ok x -> is_tensor v = true /\ x = py_float (py_mul v w).
Proof.
  destruct v, w; simpl; intros E; try discriminate E; injection E as <-; auto.
Qed.

Lemma closure_prints (model : sequential) (style_losses content_losses : list module)
    (style_weight content_weight : pynum) (e e' : env) (v : pyval) :
  closure model style_losses content_losses style_weight content_weight e = Ok (e', v) ->
  run e' = (run e + 1)%Z /\
  if ((run e + 1) mod 50 =? 0)%Z
  then exists s c,
         stdout e' = (stdout e ++ [Report (run e + 1) s c])%list /\
         feq s (fmul (num_value style_weight)
                     (total_discrepancy (loss_attrs e') style_losses)) /\
         feq c (fmul (num_value content_weight)
                     (total_discrepancy (loss_attrs e') content_losses)) /\
         style_losses <> [] /\ content_losses <> []
  else stdout e' = stdout e.
Proof.
  unfold closure.
  destruct (forward model (clamp_ 0 1 (input_img e)) (loss_attrs e)) as [y h].
  destruct (accumulate h style_losses (PyInt 0)) as [s|] eqn:As; simpl; [|discriminate].
  destruct (accumulate h content_losses (PyInt 0)) as [c|] eqn:Ac; simpl; [|discriminate].
  destruct (weighted_sum _ _ _ style_weight content_weight _ _ As Ac) as (Ws & Wc & _).
  destruct (accumulate_total _ _ _ _ As) as [_ Ts].
  destruct (accumulate_total _ _ _ _ Ac) as [_ Tc].
  destruct (backward model style_losses content_losses style_weight content_weight
              (py_add (py_mul s style_weight) (py_mul c content_weight)) _)
    as [[g pg]|x]; [|simpl; discriminate].
  unfold bind at 1. cbv beta iota.
  destruct (((run e + 1) mod 50 =? 0)%Z).
  - destruct (py_item (py_mul s style_weight)) as [si|] eqn:Is; simpl; [|discriminate].
    destruct (py_item (py_mul c content_weight)) as [ci|] eqn:Ic; simpl; [|discriminate].
    destruct (py_item_tensor _ _ _ Is) as [Ts' ->].
    destruct (py_item_tensor _ _ _ Ic) as [Tc' ->].
    intros E. injection E as <- _. simpl. split; [reflexivity|].
    do 2 eexists. split; [reflexivity|]. split; [exact Ws|]. split; [exact Wc|].
    rewrite Ts' in Ts. rewrite Tc' in Tc.
    split; intros ->; simpl in *; discriminate.
  - simpl. intros E. injection E as <- _. simpl. split; reflexivity.
Qed.

(** X6.  Lines 157-162: an evaluation of the closure prints a progress
    report exactly when the count of evaluations it has just incremented
    is a multiple of 50; the report shows the weighted style and content
    scores of that evaluation, and only a closure with probes of both
    categories ever prints one.  So the console of a run that returns
    holds, after the two opening lines, one report for each of the counts
    50, 100, ... up to the final count, in this order, and nothing else. *)
Theorem reports_every_fiftieth_evaluation
    (content_layers style_layers : list string) (fuel : nat) (cnn : list layer)
    (normalization_mean normalization_std content_img style_img input : Tensor)
    (num_steps : Z) (style_weight content_weight : pynum) :
  (forall model style_losses content_losses e e' v,
     closure model style_losses content_losses style_weight content_weight e = Ok (e', v) ->
     if ((run e + 1) mod 50 =? 0)%Z
     then exists s c,
            stdout e' = (stdout e ++ [Report (run e + 1) s c])%list /\
            feq s (fmul (num_value style_weight)
                        (total_discrepancy (loss_attrs e') style_losses)) /\
            feq c (fmul (num_value content_weight)
                        (total_discrepancy (loss_attrs e') content_losses)) /\
            style_losses <> [] /\ content_losses <> []
     else stdout e' = stdout e) /\
  (forall e,
     run_style_transfer_with content_layers style_layers fuel cnn
       normalization_mean normalization_std content_img style_img input
       num_steps style_weight content_weight = Some (Ok e) ->
     exists reports,
       stdout e = Text "Building the style transfer model.." :: Text "Optimizing.."
                  :: reports /\
       report_runs reports = fifties (run e) /\
       List.length reports = List.length (fifties (run e))).
Proof.
  split.
  - intros model style_losses content_losses e e' v C.
    apply (closure_prints _ _ _ _ _ _ _ _ C).
  - intros e. unfold run_style_transfer_with.
    destruct (get_style_model_and_losses cnn normalization_mean normalization_std
                style_img content_img content_layers style_layers) as [b|x];
      [|discriminate].
    unfold optimize.
    match goal with
    | |- context [while_loop fuel ?c num_steps ?opt ?e0] =>
        destruct (while_loop fuel c num_steps opt e0) as [[e1|x]|] eqn:W;
          try discriminate;
          pose proof (while_loop_keeps c
                        (fun e => (0 <= run e)%Z /\
                                  exists reports,
                                    stdout e = Text "Building the style transfer model.."
                                               :: Text "Optimizing.." :: reports /\
                                    report_runs reports = fifties (run e) /\
                                    List.length reports = List.length (fifties (run e))))
            as K;
          specialize (fun A B C => K A B C num_steps fuel opt e0 e1)
    end.
    intros E. injection E as <-. cbn [stdout set_input run].
    apply K; [| | | |exact W].
    + intros e2 e3 v (R & reports & S0 & Rr & Ln) C.
      destruct (closure_prints _ _ _ _ _ _ _ _ C) as (Rn & Pr).
      split; [lia|]. rewrite Rn, (fifties_next _ R).
      destruct (((run e2 + 1) mod 50 =? 0)%Z).
      * destruct Pr as (s & c & St & _). exists (reports ++ [Report (run e2 + 1) s c])%list.
        split; [rewrite St, S0; reflexivity|].
        rewrite report_runs_app, Rr, !length_app, Ln. split; reflexivity.
      * exists reports. rewrite Pr. auto.
    + intros e2 t A. exact A.
    + intros e2 A. exact A.
    + split; [simpl; lia|]. exists []. split; [reflexivity|]. split; reflexivity.
Qed.

End Progress_reports.

(** ** Runs on the edge *)

Section Edge_runs.

Context {torch : Torch}.

Lemma filter_without_hit (configured names : list string) :
  hits configured names = false ->
  filter (fun name => mem name configured) names = [].
Proof.
  unfold hits. induction names as [|name rest IH]; simpl; intros H; [reflexivity|].
  apply orb_false_iff in H. destruct H as [H1 H2]. rewrite H1. apply IH, H2.
Qed.

Lemma probes_without_hit
    (content_layers style_layers : list string) (cnn : list layer)
    (normalization_mean normalization_std style_img content_img : Tensor) (r : built) :
  get_style_model_and_losses cnn normalization_mean normalization_std
    style_img content_img content_layers style_layers = Ok r ->
  (hits content_layers (layer_names 0 cnn) = false -> content_probes r = []) /\
  (hits style_layers (layer_names 0 cnn) = false -> style_probes r = []).
Proof.
  intros G. destruct (built_of_walk _ _ _ _ _ _ _ _ G) as (b & W & _ & Sp & Cp).
  destruct (walk_counts _ _ _ _ _ _ _ W) as [Lc Ls]. simpl in Lc, Ls.
  rewrite Sp, Cp. split; intros H; rewrite (filter_without_hit _ _ H) in *.
  - destruct (content_losses b); [reflexivity|discriminate Lc].
  - destruct (style_losses b); [reflexivity|discriminate Ls].
Qed.

(** X7.  Line 133: with a negative step budget the loop body never runs.
    On a recognised extractor the run returns the input image clamped to
    [0,1], without any evaluation of the closure, any step of the
    optimiser or any report, whatever the configured names, also when no
    probe exists. *)
Theorem negative_budget_returns_clamped_input
    (content_layers style_layers : list string) (fuel : nat) (cnn : list layer)
    (normalization_mean normalization_std content_img style_img input : Tensor)
    (num_steps : Z) (style_weight content_weight : pynum) :
  forallb recognized cnn = true ->
  (num_steps < 0)%Z ->
  exists e,
    run_style_transfer_with content_layers style_layers (S fuel) cnn
      normalization_mean normalization_std content_img style_img input
      num_steps style_weight content_weight = Some (Ok e) /\
    input_img e = clamp_ 0 1 input /\
    run e = 0%Z /\ outer_steps e = 0 /\ forwarded e = [] /\
    input_grad e = None /\
    stdout e = [Text "Building the style transfer model.."; Text "Optimizing.."].
Proof.
  intros R N. unfold run_style_transfer_with, get_style_model_and_losses.
  destruct (walk_recognized style_img content_img content_layers style_layers cnn R
              (start normalization_mean normalization_std)) as [b W].
  rewrite W. unfold bind, optimize. cbn [while_loop run].
  destruct (0 <=? num_steps)%Z eqn:Le; [apply Z.leb_le in Le; lia|].
  eexists. split; [reflexivity|]. cbn. repeat split.
Qed.

(** X8.  Lines 141-155: when none of the names generated for a recognised
    extractor is configured, in either set, the first evaluation of the
    closure adds nothing to the two scores, and the total loss is the
    Python number [0 * style_weight + 0 * content_weight], an [int] when
    both weights are [int]s and a [float] otherwise: the run ends at
    [loss.backward()] with the attribute error of that type, for every
    step budget that lets the loop start. *)
Theorem run_without_hit_raises_at_backward
    (content_layers style_layers : list string) (fuel : nat) (cnn : list layer)
    (normalization_mean normalization_std content_img style_img input : Tensor)
    (num_steps : Z) (style_weight content_weight : pynum) :
  forallb recognized cnn = true ->
  hits content_layers (layer_names 0 cnn) = false ->
  hits style_layers (layer_names 0 cnn) = false ->
  (0 <= num_steps)%Z ->
  run_style_transfer_with content_layers style_layers (S fuel) cnn
    normalization_mean normalization_std content_img style_img input
    num_steps style_weight content_weight =
    Some (Raise (AttributeError
                   (if is_int style_weight && is_int content_weight
                    then "'int' object has no attribute 'backward'"
                    else "'float' object has no attribute 'backward'"))).
Proof.
  intros R Hc Hs N. unfold run_style_transfer_with.
  destruct (get_style_model_and_losses cnn normalization_mean normalization_std
              style_img content_img content_layers style_layers) as [r|x] eqn:G.
  - destruct (probes_without_hit _ _ _ _ _ _ _ _ G) as [Ec Es].
    rewrite optimize_without_probes; auto.
    destruct (is_int style_weight && is_int content_weight); reflexivity.
  - exfalso. unfold get_style_model_and_losses in G.
    destruct (walk_recognized style_img content_img content_layers style_layers cnn R
                (start normalization_mean normalization_std)) as [b W].
    rewrite W in G. discriminate G.
Qed.

(** X9.  Lines 141-151 and 157-162: with convolutions only as configured
    layers, when a name of one set is generated for a recognised extractor
    and no name of the other set is, the score of the category without
    probe is still the Python number [0 * w] for its weight [w], an [int]
    for an [int] weight and a [float] for a [float] one, when the fiftieth
    evaluation of the closure reports it through [item]: every run whose
    budget reaches 49 ends there with the attribute error of that type,
    whatever the optimiser does. *)
Theorem run_with_one_hit_raises_at_fiftieth
    (content_layers style_layers : list string) (fuel : nat) (cnn : list layer)
    (normalization_mean normalization_std content_img style_img input : Tensor)
    (num_steps : Z) (style_weight content_weight : pynum) :
  conv_names content_layers = true ->
  conv_names style_layers = true ->
  forallb recognized cnn = true ->
  hits content_layers (layer_names 0 cnn) <> hits style_layers (layer_names 0 cnn) ->
  (49 <= num_steps)%Z ->
  (50 <= fuel)%nat ->
  run_style_transfer_with content_layers style_layers fuel cnn
    normalization_mean normalization_std content_img style_img input
    num_steps style_weight content_weight =
    Some (Raise (AttributeError
                   (if is_int (if hits style_layers (layer_names 0 cnn)
                               then content_weight else style_weight)
                    then "'int' object has no attribute 'item'"
                    else "'float' object has no attribute 'item'"))).
Proof.
  intros Cc Cs R H N F. unfold run_style_transfer_with.
  destruct (probes_of_convolutions_in_graph style_img content_img
              content_layers style_layers Cc Cs cnn
              normalization_mean normalization_std R)
    as (r & G & P & Nc & Ns).
  rewrite G. destruct (probes_without_hit _ _ _ _ _ _ _ _ G) as [Ec Es].
  rewrite optimize_one_category; auto.
  - destruct (hits style_layers (layer_names 0 cnn)).
    + destruct (style_probes r); [exfalso; apply Ns; reflexivity|].
      destruct content_weight; reflexivity.
    + rewrite (Es eq_refl). destruct style_weight; reflexivity.
  - destruct (hits content_layers (layer_names 0 cnn));
      destruct (hits style_layers (layer_names 0 cnn)); try contradiction; auto.
Qed.

End Edge_runs.

(** ** Layers after the last configured one *)

Section Trailing_layers.

Context {torch : Torch}.

Variables (style_img content_img : Tensor).
Variables (content_layers style_layers : list string).

Lemma visit_keys (b b1 : builder) (l l' : layer) (i : nat) (name : string) :
  name_layer (counter b) l = Ok (i, name, l') ->
  visit style_img content_img content_layers style_layers b l = Ok b1 ->
  forall k, In k (map fst (model b1)) ->
            In k (map fst (model b)) \/ k = name \/ exists n, probe_key k n.
Proof.
  intros N V k I. unfold visit in V. rewrite N in V. unfold bind in V.
  cbv beta iota in V. injection V as <-.
  destruct (mem name content_layers); destruct (mem name style_layers);
    rewrite ?attach_style_eq in I; cbn [model counter] in I; cbv zeta in I;
    rewrite ?attach_content_eq in I; cbn [model counter] in I; cbv zeta in I;
    repeat match type of I with
           | In _ (map fst (add_module _ _ _)) =>
               apply keys_add_module_inv in I; destruct I as [I|I]
           end;
    auto;
    right; right; exists i; unfold probe_key; auto.
Qed.

Lemma walk_keys (cnn : list layer) :
  forall b b',
    walk style_img content_img content_layers style_layers cnn b = Ok b' ->
    forall k, In k (map fst (model b')) ->
              In k (map fst (model b)) \/ In k (layer_names (counter b) cnn) \/
              exists n, probe_key k n.
Proof.
  induction cnn as [|l rest IH]; simpl; intros b b' W k I.
  - injection W as <-. auto.
  - destruct (visit style_img content_img content_layers style_layers b l)
      as [b1|x] eqn:V; simpl in W; [|discriminate W].
    pose proof (visit_counter _ _ _ _ _ _ _ V) as C.
    destruct (name_layer (counter b) l) as [[[i name] l']|x] eqn:N;
      [|unfold visit in V; rewrite N in V; discriminate V].
    destruct (name_layer_inv _ _ _ _ _ N) as (_ & Ei & _).
    destruct (IH _ _ W k I) as [I1|[I1|I1]]; auto.
    + destruct (visit_keys _ _ _ _ _ _ N V k I1) as [I0|[I0|I0]]; auto.
      right. left. left. auto.
    + right. left. right. rewrite Ei, <- C. exact I1.
Qed.

Lemma layer_names_shape (ls : list layer) :
  forall i name,
    In name (layer_names i ls) ->
    exists l x, recognized l = true /\ name = kind_prefix (cls l) ++ x.
Proof.
  induction ls as [|l rest IH]; simpl; intros i name I; [contradiction|].
  destruct (name_layer i l) as [[[i' nm] l']|x] eqn:N; [|contradiction].
  destruct (name_layer_inv _ _ _ _ _ N) as (R & _ & Nm & _).
  destruct I as [<-|I]; [|apply (IH _ _ I)].
  exists l, (format_int i'). auto.
Qed.

(** Layers whose names are new and not configured go to the end of the
    graph, and nothing else changes. *)
Lemma walk_appends_layers (post : list layer) :
  forall b,
    forallb recognized post = true ->
    absent (layer_names (counter b) post) content_layers = true ->
    absent (layer_names (counter b) post) style_layers = true ->
    NoDup (layer_names (counter b) post) ->
    (forall name, In name (layer_names (counter b) post) ->
                  ~ In name (map fst (model b))) ->
    exists b' tail,
      walk style_img content_img content_layers style_layers post b = Ok b' /\
      model b' = (model b ++ tail)%list /\
      no_probe tail = true /\
      content_losses b' = content_losses b /\
      style_losses b' = style_losses b /\
      attrs b' = attrs b.
Proof.
  induction post as [|l rest IH]; intros b R Ac As D Fr.
  - exists b, []. rewrite app_nil_r. simpl. auto 10.
  - cbn [forallb] in R. apply andb_true_iff in R. destruct R as [Rl Rrest].
    cbn [layer_names walk] in *. unfold visit.
    rewrite (name_layer_recognized _ _ Rl) in *.
    unfold bind. cbv beta iota.
    set (i := if is_conv l then S (counter b) else counter b) in *.
    set (name := kind_prefix (cls l) ++ format_int i) in *.
    cbn [absent forallb] in Ac, As.
    apply andb_true_iff in Ac. destruct Ac as [Ac1 Ac2].
    apply andb_true_iff in As. destruct As as [As1 As2].
    apply negb_true_iff in Ac1. apply negb_true_iff in As1.
    rewrite Ac1, As1.
    assert (N0 : ~ In name (map fst (model b))) by (apply Fr; left; reflexivity).
    rewrite (add_module_fresh _ _ _ N0).
    inversion D as [|? ? Dn Dr]; subst.
    match goal with
    | |- context [walk _ _ _ _ rest ?b0] =>
        destruct (IH b0 Rrest Ac2 As2 Dr) as (b' & tail & W & M & T & Cl & Sl & At)
    end.
    { cbn [model counter]. intros nm I J. rewrite map_app in J.
      apply in_app_or in J. destruct J as [J|[J|[]]].
      - apply (Fr nm); [right; exact I|exact J].
      - simpl in J. subst nm. contradiction. }
    exists b'. eexists. split; [exact W|].
    cbn [model content_losses style_losses attrs] in M, Cl, Sl, At.
    rewrite <- app_assoc in M. split; [exact M|].
    split; [|auto]. unfold no_probe in *. cbn [forallb app snd].
    unfold installed. destruct (cls l); exact T.
Qed.

Lemma cut_no_probe (s : sequential) : no_probe s = true -> cut (flags s) = 0.
Proof.
  intros NP. destruct (cut (flags s)) as [|c] eqn:C; [reflexivity|exfalso].
  apply cut_true in C. unfold flags in C. rewrite nth_error_map in C.
  destruct (nth_error s c) as [[k m]|] eqn:E; [|discriminate C].
  simpl in C. injection C as C. apply nth_error_In in E.
  unfold no_probe in NP. rewrite forallb_forall in NP.
  specialize (NP _ E). simpl in NP. rewrite C in NP. discriminate NP.
Qed.

Lemma slice_app_no_probe (s tail : sequential) (i j : nat) :
  s <> [] -> no_probe tail = true ->
  slice_to (s ++ tail)%list (trim_index (s ++ tail)%list i + 1) =
    slice_to s (trim_index s j + 1).
Proof.
  intros NE NP.
  assert (NE' : (s ++ tail)%list <> []).
  { intros E. apply app_eq_nil in E. destruct E as [E _]. contradiction. }
  rewrite (trim_index_cut _ i NE'), (trim_index_cut _ j NE).
  unfold flags. rewrite map_app. fold (flags s). fold (flags tail).
  rewrite cut_app, (cut_no_probe _ NP).
  pose proof (cut_le (flags s)) as Le. rewrite length_flags in Le.
  assert (L1 : 1 <= List.length s) by (destruct s; [contradiction|simpl; lia]).
  unfold slice_to. rewrite firstn_app.
  replace (Nat.max 1 (cut (flags s)) - List.length s) with 0 by lia.
  cbn [firstn]. apply app_nil_r.
Qed.

(** X11.  Lines 45-80: what follows the last configured layer does not
    reach the result.  When the layers [post] that come after the layers
    [cnn] are recognised, get names that are not configured, not among
    the names generated for [cnn] and distinct from one another, the
    construction on [cnn ++ post] returns what it returns on [cnn]: the
    same graph and the same probes. *)
Theorem trailing_layers_are_dropped
    (cnn post : list layer) (normalization_mean normalization_std : Tensor) :
  forallb recognized (cnn ++ post) = true ->
  absent (layer_names (count_conv cnn) post) content_layers = true ->
  absent (layer_names (count_conv cnn) post) style_layers = true ->
  NoDup (layer_names (count_conv cnn) post) ->
  (forall name, In name (layer_names (count_conv cnn) post) ->
                ~ In name (layer_names 0 cnn)) ->
  get_style_model_and_losses (cnn ++ post) normalization_mean normalization_std
    style_img content_img content_layers style_layers =
  get_style_model_and_losses cnn normalization_mean normalization_std
    style_img content_img content_layers style_layers.
Proof.
  intros R Ac As D Fr. rewrite forallb_app in R.
  apply andb_true_iff in R. destruct R as [Rc Rp].
  unfold get_style_model_and_losses. rewrite walk_app.
  destruct (walk_recognized style_img content_img content_layers style_layers cnn Rc
              (start normalization_mean normalization_std)) as [b W].
  rewrite W. unfold bind at 2. unfold bind at 2.
  pose proof (walk_counter _ _ _ _ _ _ _ W) as C. simpl in C. rewrite <- C in *.
  destruct (walk_keeps_head style_img content_img content_layers style_layers
              _ _ _ _ _ (start_head _ _) W) as (tl & M0 & _ & _).
  assert (NE : model b <> []) by (rewrite M0; discriminate).
  destruct (walk_appends_layers post b Rp Ac As D)
    as (b' & tail & W' & M & T & Cl & Sl & At).
  { intros name I J.
    destruct (walk_keys _ _ _ W name J) as [K|[K|(n & K)]].
    - destruct (layer_names_shape _ _ _ I) as (l & x & Rl & ->).
      destruct K as [K|[]]. unfold recognized in Rl.
      destruct (cls l); try discriminate K; discriminate Rl.
    - apply (Fr name I K).
    - destruct (layer_names_shape _ _ _ I) as (l & x & Rl & E).
      apply (probe_key_not_layer _ x _ _ K Rl E). }
  rewrite W'. unfold bind. rewrite Cl, Sl, At, M.
  rewrite (slice_app_no_probe (model b) tail (counter b') (counter b) NE T).
  reflexivity.
Qed.

End Trailing_layers.

(** ** The names of the graph when none clashes *)

Section Names_in_order.

Context {torch : Torch}.

Variables (style_img content_img : Tensor).
Variables (content_layers style_layers : list string).

Lemma distinct_NoDup (names : list string) : distinct names = true -> NoDup names.
Proof.
  induction names as [|name rest IH]; simpl; intros D; [constructor|].
  apply andb_true_iff in D. destruct D as [M D]. constructor; [|apply IH, D].
  intros I. apply negb_true_iff in M.
  assert (T : mem name rest = true).
  { unfold mem. apply existsb_exists. exists name. split; [exact I|apply String.eqb_refl]. }
  congruence.
Qed.

(** X10.  Lines 45-80: on a recognised extractor for which the walk
    registers no two modules under one name, the children of the returned
    graph are, in this order, the normalisation stage ["0"] and then, for
    each layer up to the last one whose name is configured, the layer under
    its generated name, followed by its content probe and by its style
    probe when its name is in the content set and in the style set. *)
Theorem graph_names_without_name_clash
    (cnn : list layer) (normalization_mean normalization_std : Tensor) :
  forallb recognized cnn = true ->
  NoDup (module_names content_layers style_layers 0 cnn) ->
  exists r,
    get_style_model_and_losses cnn normalization_mean normalization_std
      style_img content_img content_layers style_layers = Ok r /\
    map fst (graph r) =
      firstn (specified_node_count content_layers style_layers (layer_names 0 cnn))
             ("0" :: module_names content_layers style_layers 0 cnn) /\
    flags (graph r) =
      firstn (specified_node_count content_layers style_layers (layer_names 0 cnn))
             (false :: flat_map (entry_flags content_layers style_layers)
                                (layer_names 0 cnn)).
Proof.
  intros R D.
  destruct (node_count_without_name_clash style_img content_img
              content_layers style_layers cnn normalization_mean normalization_std R D)
    as (r & G & Len & _).
  exists r. split; [exact G|].
  destruct (built_of_walk _ _ _ _ _ _ _ _ G) as (b & W & Gr & _).
  destruct (walk_fresh style_img content_img content_layers style_layers cnn
              (start normalization_mean normalization_std) R)
    as (b' & W' & K & F).
  { simpl. constructor; [apply no_module_named_0 | exact D]. }
  rewrite W in W'. injection W' as <-.
  rewrite <- Len.
  assert (E : graph r = firstn (List.length (graph r)) (model b)).
  { rewrite Gr. unfold slice_to. rewrite length_firstn.
    destruct (Nat.le_gt_cases (trim_index (model b) (counter b) + 1)
                (List.length (model b))) as [Le|Gt].
    - rewrite Nat.min_l by exact Le. reflexivity.
    - rewrite Nat.min_r by lia. rewrite firstn_all, firstn_all2 by lia. reflexivity. }
  split.
  - rewrite E at 1. rewrite <- firstn_map, K. reflexivity.
  - unfold flags in *. rewrite E at 1. rewrite <- firstn_map, F. reflexivity.
Qed.

End Names_in_order.

(** ** The targets of the probes *)

Section Probe_targets.

Context {torch : Torch}.

Variables (style_img content_img : Tensor).
Variables (content_layers style_layers : list string).

Hypothesis content_conv : conv_names content_layers = true.
Hypothesis style_conv : conv_names style_layers = true.

Lemma forward_fst (s : sequential) :
  forall x h h', fst (forward s x h) = fst (forward s x h').
Proof.
  induction s as [|[k m] rest IH]; simpl; intros x h h'; [reflexivity|].
  destruct m as [mean std|l|o t|o t]; simpl; apply IH.
Qed.

Lemma targets_app_no_probe (s tail : sequential) :
  targets_in_place content_img style_img s -> no_probe tail = true ->
  targets_in_place content_img style_img (s ++ tail)%list.
Proof.
  intros T NP j k o t.
  assert (A : forall p, is_loss p = true ->
                        nth_error (s ++ tail)%list j = Some (k, p) ->
                        nth_error s j = Some (k, p) /\
                        firstn j (s ++ tail)%list = firstn j s).
  { intros p L E. destruct (Nat.lt_ge_cases j (List.length s)) as [Lt|Ge].
    - rewrite nth_error_app1 in E by exact Lt. split; [exact E|].
      rewrite firstn_app. replace (j - List.length s) with 0 by lia.
      cbn [firstn]. apply app_nil_r.
    - rewrite nth_error_app2 in E by exact Ge. apply nth_error_In in E.
      unfold no_probe in NP. rewrite forallb_forall in NP.
      specialize (NP _ E). simpl in NP. rewrite L in NP. discriminate NP. }
  split; intros E.
  - destruct (A (ContentLoss o t) eq_refl E) as [E' ->]. apply (T j k o t), E'.
  - destruct (A (StyleLoss o t) eq_refl E) as [E' ->]. apply (T j k o t), E'.
Qed.

Lemma targets_snoc (s : sequential) (key : string) (p : module) :
  targets_in_place content_img style_img s ->
  (forall o t, p = ContentLoss o t -> t = fst (forward s content_img [])) ->
  (forall o t, p = StyleLoss o t -> t = gram_matrix (fst (forward s style_img []))) ->
  targets_in_place content_img style_img (s ++ [(key, p)])%list.
Proof.
  intros T Pc Ps j k o t.
  destruct (Nat.lt_ge_cases j (List.length s)) as [Lt|Ge].
  - rewrite nth_error_app1 by exact Lt.
    rewrite firstn_app. replace (j - List.length s) with 0 by lia.
    cbn [firstn]. rewrite app_nil_r. apply T.
  - rewrite nth_error_app2 by exact Ge.
    destruct (j - List.length s) as [|d] eqn:D.
    + replace j with (List.length s) by lia.
      rewrite firstn_app, Nat.sub_diag, firstn_all. cbn [firstn]. rewrite app_nil_r.
      cbn [nth_error]. split; intros E; injection E as _ E.
      * apply (Pc o t E).
      * apply (Ps o t E).
    + cbn [nth_error]. split; intros E; destruct d; discriminate E.
Qed.

Lemma targets_firstn (s : sequential) (n : nat) :
  targets_in_place content_img style_img s ->
  targets_in_place content_img style_img (firstn n s).
Proof.
  intros T j k o t.
  assert (A : forall x, nth_error (firstn n s) j = Some x ->
                        nth_error s j = Some x /\ firstn j (firstn n s) = firstn j s).
  { intros x E. rewrite nth_error_firstn in E.
    destruct (j <? n)%nat eqn:Lt; [|discriminate E]. apply Nat.ltb_lt in Lt.
    split; [exact E|]. rewrite firstn_firstn. f_equal. lia. }
  split; intros E; destruct (A _ E) as [E' ->]; apply (T j k o t); exact E'.
Qed.

Lemma add_module_app_fresh (s tail : sequential) (key : string) (m : module) :
  ~ In key (map fst s) ->
  add_module (s ++ tail)%list key m = (s ++ add_module tail key m)%list.
Proof.
  induction s as [|[k old] rest IH]; simpl; intros N; [reflexivity|].
  destruct (String.eqb k key) eqn:E.
  - apply String.eqb_eq in E. tauto.
  - rewrite IH; tauto.
Qed.

Lemma settled_key_mono (i : nat) (k : string) :
  settled_key i k -> settled_key (S i) k.
Proof.
  intros [Z|[(n & Le & P)|[(n & Le & C)|(n & Lt & C)]]]; unfold settled_key.
  - auto.
  - right. left. exists n. split; [lia|exact P].
  - right. right. left. exists n. split; [lia|exact C].
  - right. right. right. exists n. split; [lia|exact C].
Qed.

Lemma kind_prefix_inj (l l0 : layer) (a b : string) :
  recognized l = true -> recognized l0 = true ->
  kind_prefix (cls l) ++ a = kind_prefix (cls l0) ++ b ->
  a = b /\ is_conv l = is_conv l0.
Proof.
  unfold recognized, is_conv.
  destruct (cls l); destruct (cls l0); simpl; intros R R0 E;
    try discriminate R; try discriminate R0; try discriminate E;
    (split; [|reflexivity]);
    repeat (injection E as E); exact E.
Qed.

(** A layer that is no convolution, visited while the counter is [i],
    takes no settled name. *)
Lemma current_key_not_settled (i : nat) (k : string) :
  current_key i k -> ~ settled_key i k.
Proof.
  intros (l & R & C & ->) [Z|[(n & Le & P)|[(n & Le & E)|(n & Lt & l0 & R0 & C0 & E)]]].
  - unfold recognized in R. destruct (cls l); try discriminate Z; discriminate R.
  - apply (probe_key_not_layer _ (format_int i) _ _ P R). reflexivity.
  - unfold recognized, is_conv in *.
    destruct (cls l); try discriminate E; try discriminate R; discriminate C.
  - apply kind_prefix_inj in E; [|assumption..]. destruct E as [E _].
    apply format_int_inj in E. lia.
Qed.

(** The names of a convolution and of its probes, made when the counter
    becomes [S i], are new. *)
Lemma conv_key_new (i : nat) (k : string) :
  settled_key i k \/ current_key i k -> k <> "conv_" ++ format_int (S i).
Proof.
  intros H ->.
  destruct H as [[Z|[(n & Le & P)|[(n & Le & E)|(n & Lt & l0 & R0 & C0 & E)]]]
                |(l0 & R0 & C0 & E)].
  - discriminate Z.
  - destruct P as [P|P]; discriminate P.
  - apply append_inj, format_int_inj in E. lia.
  - unfold recognized, is_conv in *.
    destruct (cls l0); try discriminate E; try discriminate R0; discriminate C0.
  - unfold recognized, is_conv in *.
    destruct (cls l0); try discriminate E; try discriminate R0; discriminate C0.
Qed.

Lemma probe_key_new (i : nat) (k key : string) :
  settled_key i k \/ current_key i k \/ k = "conv_" ++ format_int (S i) ->
  probe_key key (S i) -> k <> key.
Proof.
  intros H K <-.
  destruct H as [[Z|[(n & Le & P)|[(n & Le & E)|(n & Lt & l0 & R0 & C0 & E)]]]
                |[(l0 & R0 & C0 & E)|E]].
  - subst k. destruct K as [K|K]; discriminate K.
  - assert (Lt : n < S i) by lia.
    apply (probe_key_fresh _ _ _ _ P Lt K eq_refl).
  - subst k. destruct K as [K|K]; discriminate K.
  - apply (probe_key_not_layer _ _ _ _ K R0 E).
  - apply (probe_key_not_layer _ _ _ _ K R0 E).
  - subst k. destruct K as [K|K]; discriminate K.
Qed.

Lemma content_added_settled (i : nat) (k : string) :
  content_added_key i k -> settled_key (S i) k.
Proof.
  intros [[S0|[C|E]]|E].
  - apply settled_key_mono, S0.
  - right. right. right. exists i. split; [lia|exact C].
  - right. right. left. exists (S i). split; [lia|exact E].
  - right. left. exists (S i). split; [lia|]. left. exact E.
Qed.

Lemma attach_content_settled (b : builder) (i : nat) :
  counter b = S i ->
  (forall k, In k (map fst (model b)) -> layer_added_key i k) ->
  targets_in_place content_img style_img (model b) ->
  counter (attach_content content_img b) = S i /\
  (forall k, In k (map fst (model (attach_content content_img b))) ->
             content_added_key i k) /\
  targets_in_place content_img style_img (model (attach_content content_img b)).
Proof.
  intros C K T. rewrite attach_content_eq. cbv zeta. cbn [model counter]. rewrite C.
  assert (N : ~ In ("content_loss_" ++ format_int (S i)) (map fst (model b))).
  { intros I. apply (probe_key_new i _ ("content_loss_" ++ format_int (S i)) (K _ I));
      [left|]; reflexivity. }
  rewrite (add_module_fresh _ _ _ N). split; [reflexivity|]. split.
  - intros k I. rewrite map_app in I. apply in_app_or in I.
    destruct I as [I|[I|[]]]; [left; apply K, I|right; symmetry; exact I].
  - apply targets_snoc; [exact T| |discriminate].
    intros o t E. injection E as _ <-. apply forward_fst.
Qed.

Lemma attach_style_settled (b : builder) (i : nat) :
  counter b = S i ->
  (forall k, In k (map fst (model b)) -> content_added_key i k) ->
  targets_in_place content_img style_img (model b) ->
  counter (attach_style style_img b) = S i /\
  (forall k, In k (map fst (model (attach_style style_img b))) ->
             settled_key (S i) k) /\
  targets_in_place content_img style_img (model (attach_style style_img b)).
Proof.
  intros C K T. rewrite attach_style_eq. cbv zeta. cbn [model counter]. rewrite C.
  assert (N : ~ In ("style_loss_" ++ format_int (S i)) (map fst (model b))).
  { intros I. destruct (K _ I) as [A|E]; [|discriminate E].
    apply (probe_key_new i _ ("style_loss_" ++ format_int (S i)) A);
      [right|]; reflexivity. }
  rewrite (add_module_fresh _ _ _ N). split; [reflexivity|]. split.
  - intros k I. rewrite map_app in I. apply in_app_or in I.
    destruct I as [I|[I|[]]]; [apply content_added_settled, K, I|].
    right. left. exists (S i). split; [lia|]. right. symmetry. exact I.
  - apply targets_snoc; [exact T|discriminate|].
    intros o t E. unfold StyleLoss_new in E. injection E as _ <-.
    f_equal. apply forward_fst.
Qed.

Lemma visit_settled (b b' : builder) (l : layer) :
  visit style_img content_img content_layers style_layers b l = Ok b' ->
  probes_settled content_img style_img b -> probes_settled content_img style_img b'.
Proof.
  intros V (front & back & M & Kf & Kb & T). unfold visit in V.
  destruct (name_layer (counter b) l) as [[[i name] l']|x] eqn:N; simpl in V;
    [|discriminate V].
  destruct (name_layer_inv _ _ _ _ _ N) as (R & Ei & Nm & _).
  assert (NP : no_probe back = true).
  { unfold no_probe. apply forallb_forall. intros [k m] I.
    destruct (Kb k m I) as [L _]. simpl. rewrite L. reflexivity. }
  destruct (is_conv l) eqn:C.
  - assert (Nc : name = "conv_" ++ format_int (S (counter b))).
    { rewrite Nm, Ei. unfold is_conv in C. destruct (cls l); try discriminate C.
      reflexivity. }
    assert (K0 : forall k, In k (map fst (model b)) ->
                           settled_key (counter b) k \/ current_key (counter b) k).
    { intros k I. rewrite M, map_app in I. apply in_app_or in I. destruct I as [I|I].
      - left. apply Kf, I.
      - right. apply in_map_iff in I. destruct I as ([k0 m] & <- & I).
        apply (Kb k0 m I). }
    assert (N0 : ~ In name (map fst (model b))).
    { intros I. rewrite Nc in I. apply (conv_key_new (counter b) _ (K0 _ I)). reflexivity. }
    rewrite (add_module_fresh _ _ _ N0) in V. subst i.
    set (b0 := {| model := (model b ++ [(name, Net l')])%list;
                  content_losses := content_losses b;
                  style_losses := style_losses b;
                  counter := S (counter b);
                  attrs := attrs b |}) in V.
    set (b1 := if mem name content_layers then attach_content content_img b0 else b0) in V.
    assert (S0 : counter b0 = S (counter b) /\
                 (forall k, In k (map fst (model b0)) -> layer_added_key (counter b) k) /\
                 targets_in_place content_img style_img (model b0)).
    { unfold b0. cbn [model counter]. split; [reflexivity|]. split.
      - intros k I. rewrite map_app in I. apply in_app_or in I.
        destruct I as [I|[I|[]]].
        + destruct (K0 _ I) as [A|A]; [left; exact A|right; left; exact A].
        + right. right. rewrite <- Nc. symmetry. exact I.
      - apply targets_snoc; [|discriminate|discriminate].
        rewrite M. apply targets_app_no_probe; assumption. }
    destruct S0 as (C0 & K0' & T0).
    assert (S1 : counter b1 = S (counter b) /\
                 (forall k, In k (map fst (model b1)) -> content_added_key (counter b) k) /\
                 targets_in_place content_img style_img (model b1)).
    { unfold b1. destruct (mem name content_layers).
      - apply attach_content_settled; assumption.
      - split; [exact C0|]. split; [|exact T0]. intros k I. left. apply K0', I. }
    destruct S1 as (C1 & K1 & T1). clearbody b1. clear b0 C0 K0' T0.
    assert (S2 : counter b' = S (counter b) /\
                 (forall k, In k (map fst (model b')) -> settled_key (S (counter b)) k) /\
                 targets_in_place content_img style_img (model b')).
    { injection V as <-. destruct (mem name style_layers).
      - apply attach_style_settled; assumption.
      - split; [exact C1|]. split; [|exact T1].
        intros k I. apply content_added_settled, K1, I. }
    destruct S2 as (C2 & K2 & T2).
    exists (model b'), []. rewrite app_nil_r, C2. split; [reflexivity|].
    split; [exact K2|]. split; [intros k m []|exact T2].
  - subst i.
    assert (Ck : current_key (counter b) name) by (exists l; auto).
    rewrite Nm in V.
    rewrite (mem_conv_names _ _ _ content_conv R C),
            (mem_conv_names _ _ _ style_conv R C) in V.
    rewrite <- Nm in V. injection V as <-. cbn [model counter].
    assert (N0 : ~ In name (map fst front)).
    { intros I. apply (current_key_not_settled _ _ Ck), Kf, I. }
    rewrite M, (add_module_app_fresh _ _ _ _ N0).
    exists front, (add_module back name (Net l')).
    split; [reflexivity|]. split; [exact Kf|]. split; [|exact T].
    intros k m I. apply In_add_module_inv in I. destruct I as [I|I].
    + injection I as -> ->. split; [reflexivity|exact Ck].
    + apply (Kb k m I).
Qed.

Lemma walk_settled (cnn : list layer) :
  forall b b',
    walk style_img content_img content_layers style_layers cnn b = Ok b' ->
    probes_settled content_img style_img b -> probes_settled content_img style_img b'.
Proof.
  induction cnn as [|l rest IH]; simpl; intros b b' W P.
  - injection W as <-. exact P.
  - destruct (visit style_img content_img content_layers style_layers b l)
      as [b1|x] eqn:V; simpl in W; [|discriminate W].
    apply (IH _ _ W), (visit_settled _ _ _ V), P.
Qed.

(** X12.  Lines 61-73 and 76-80: with convolutions only as configured
    layers, as with the shipped names, each probe of the returned graph
    holds as its target the statistic of its own image at the place where
    the probe sits: for a content probe the features that the children
    before it compute from the content image, for a style probe the Gram
    matrix of the features they compute from the style image.  No later
    step of the construction changes what comes before a probe. *)
Theorem probe_targets_at_their_position
    (cnn : list layer) (normalization_mean normalization_std : Tensor) (r : built) :
  get_style_model_and_losses cnn normalization_mean normalization_std
    style_img content_img content_layers style_layers = Ok r ->
  forall j k o t h,
    (nth_error (graph r) j = Some (k, ContentLoss o t) ->
     t = fst (forward (firstn j (graph r)) content_img h)) /\
    (nth_error (graph r) j = Some (k, StyleLoss o t) ->
     t = gram_matrix (fst (forward (firstn j (graph r)) style_img h))).
Proof.
  intros G j k o t h.
  destruct (built_of_walk _ _ _ _ _ _ _ _ G) as (b & W & Gr & _).
  assert (P : probes_settled content_img style_img b).
  { apply (walk_settled _ _ _ W).
    exists [("0", Normalization normalization_mean normalization_std)], [].
    split; [reflexivity|]. split; [|split].
    - intros k0 [<-|[]]. left. reflexivity.
    - intros k0 m [].
    - intros [|j0] k0 o0 t0; split; intros E; try discriminate E;
        destruct j0; discriminate E. }
  destruct P as (front & back & M & _ & Kb & T).
  assert (NP : no_probe back = true).
  { unfold no_probe. apply forallb_forall. intros [k0 m] I.
    destruct (Kb k0 m I) as [L _]. simpl. rewrite L. reflexivity. }
  pose proof (targets_firstn _ (trim_index (model b) (counter b) + 1)
                (targets_app_no_probe _ _ T NP)) as Tg.
  rewrite <- M in Tg. fold (slice_to (model b) (trim_index (model b) (counter b) + 1)) in Tg.
  rewrite <- Gr in Tg.
  rewrite (forward_fst _ content_img h []), (forward_fst _ style_img h []).
  apply Tg.
Qed.

End Probe_targets.

(** ** The gradients of a run *)

Section Gradients.

Context {torch : Torch}.

(** C2.  Every evaluation of the closure that returns hands the optimiser
    a scalar tensor equal to the style weight times the sum of the
    discrepancies of the style probes plus the content weight times the
    sum of those of the content probes, as the forward pass on the clamped
    image has just set them.  The driver runs its closure on the graph it
    has frozen and on an image that requires gradient: with convolutions
    only as configured layers, as with the shipped names, in a run that
    returns every evaluation left in [input_img.grad] the derivative of
    this loss in the image it read, and no parameter of the graph received
    gradient in any evaluation.  Such runs exist. *)
Theorem closure_loss_is_weighted_sum
    (content_layers style_layers : list string) (fuel : nat) (cnn : list layer)
    (normalization_mean normalization_std content_img style_img input : Tensor)
    (num_steps : Z) (style_weight content_weight : pynum) :
  (forall model style_losses content_losses e e' v,
     closure model style_losses content_losses style_weight content_weight e = Ok (e', v) ->
     (exists q,
        v = PyTensor q /\
        feq q (fadd (fmul (num_value style_weight)
                          (total_discrepancy (loss_attrs e') style_losses))
                    (fmul (num_value content_weight)
                          (total_discrepancy (loss_attrs e') content_losses)))) /\
     loss_attrs e' = snd (forward model (input_img e') (loss_attrs e)) /\
     input_grads e' = input_grad e' :: input_grads e) /\
  (conv_names content_layers = true ->
   conv_names style_layers = true ->
   forall e,
     run_style_transfer_with content_layers style_layers fuel cnn
       normalization_mean normalization_std content_img style_img input
       num_steps style_weight content_weight = Some (Ok e) ->
     exists b,
       get_style_model_and_losses cnn normalization_mean normalization_std
         style_img content_img content_layers style_layers = Ok b /\
       input_grads e =
         map (fun x => Some (autograd (requires_grad_ false (graph b))
                                      (style_probes b) (content_probes b)
                                      (num_value style_weight) (num_value content_weight)
                                      x))
             (forwarded e) /\
       param_grads e = [] /\
       Z.of_nat (List.length (forwarded e)) = run e) /\
  (conv_names content_layers = true ->
   conv_names style_layers = true ->
   forallb recognized cnn = true ->
   hits content_layers (layer_names 0 cnn) = true ->
   hits style_layers (layer_names 0 cnn) = true ->
   (Z.to_nat (num_steps + 1) < fuel)%nat ->
   exists e,
     run_style_transfer_with content_layers style_layers fuel cnn
       normalization_mean normalization_std content_img style_img input
       num_steps style_weight content_weight = Some (Ok e)).
Proof.
  split; [|split].
  - intros model style_losses content_losses e e' v E.
    destruct (closure_returns _ _ _ _ _ _ _ _ E)
      as (I & _ & _ & _ & _ & A & V & _ & _ & Igs).
    split; [exact V|]. split; [rewrite I; exact A|exact Igs].
  - intros Cc Cs e. unfold run_style_transfer_with.
    destruct (get_style_model_and_losses cnn normalization_mean normalization_std
                style_img content_img content_layers style_layers) as [b|x] eqn:G;
      [|discriminate].
    destruct (built_of_walk _ _ _ _ _ _ _ _ G) as (bw & W & _).
    pose proof (walk_ok_recognized _ _ _ _ _ _ _ W) as R.
    destruct (probes_of_convolutions_in_graph style_img content_img
                content_layers style_layers Cc Cs cnn
                normalization_mean normalization_std R) as (r' & G' & P & _).
    rewrite G in G'. injection G' as <-.
    assert (St : stale (requires_grad_ false (graph b))
                       (style_probes b ++ content_probes b) = []).
    { apply no_stale. intros p I. destruct (P p I) as [L M]. split; [exact L|].
      apply requires_grad_keeps_probe; assumption. }
    unfold optimize.
    match goal with
    | |- context [while_loop fuel ?c num_steps ?opt ?e0] =>
        destruct (while_loop fuel c num_steps opt e0) as [[e1|x]|] eqn:Wl;
          try discriminate;
          pose proof (while_loop_keeps c
                        (fun e =>
                           input_requires_grad e = true /\
                           input_grads e =
                             map (fun x =>
                                    Some (autograd (requires_grad_ false (graph b))
                                            (style_probes b) (content_probes b)
                                            (num_value style_weight)
                                            (num_value content_weight) x))
                                 (forwarded e) /\
                           param_grads e = [] /\
                           Z.of_nat (List.length (forwarded e)) = run e))
            as K;
          specialize (fun A B C => K A B C num_steps fuel opt e0 e1)
    end.
    intros E. injection E as <-. exists b. split; [reflexivity|].
    cbn [input_grads param_grads forwarded run set_input].
    apply K; [| | | |exact Wl].
    + intros e2 e3 v (Rq & Ig & Pg & Len) C.
      destruct (closure_returns _ _ _ _ _ _ _ _ C)
        as (I & F & Rn & _ & Rq' & _ & _ & Gi & Pg' & Igs).
      split; [congruence|]. split; [|split].
      * rewrite Igs, (Gi Rq), F, I, Ig. reflexivity.
      * rewrite (Pg' St), Pg, trainable_frozen. reflexivity.
      * rewrite F, Rn. cbn [List.length]. lia.
    + intros e2 t A. exact A.
    + intros e2 A. exact A.
    + split; [reflexivity|]. split; [reflexivity|]. split; reflexivity.
  - intros Cc Cs R Hc Hs F.
    apply run_style_transfer_returns; assumption.
Qed.

End Gradients.

(** ** The theorems at work on the small instance *)

Lemma unrecognized_layer_aborts_witness :
  forallb recognized [conv; dropout; relu] = false /\
  exists pre l post c b,
    [conv; dropout; relu] = (pre ++ l :: post)%list /\
    forallb recognized pre = true /\
    cls l = Other c /\
    walk (torch := toy) [Finite 2] [Finite 1] content_layers_default style_layers_default pre
         (start [] []) = Ok b /\
    visit (torch := toy) [Finite 2] [Finite 1] content_layers_default style_layers_default b l =
      Raise (RuntimeError ("Unrecognized layer: " ++ c)) /\
    get_style_model_and_losses (torch := toy) [conv; dropout; relu] [] []
        [Finite 2] [Finite 1] content_layers_default style_layers_default =
      Raise (RuntimeError ("Unrecognized layer: " ++ c)).
Proof.
  split; [reflexivity|].
  apply (@unrecognized_layer_aborts toy [Finite 2] [Finite 1]
           content_layers_default style_layers_default
           [conv; dropout; relu] [] []).
  reflexivity.
Defined.

Lemma layers_named_by_convolution_count_witness :
  forallb recognized ([conv; relu] ++ conv :: [relu; pool]) = true /\
  exists b b',
    walk (torch := toy) [Finite 2] [Finite 1] content_layers_default style_layers_default
         [conv; relu] (start [] []) = Ok b /\
    visit (torch := toy) [Finite 2] [Finite 1] content_layers_default style_layers_default b conv =
      Ok b' /\
    counter b = count_conv [conv; relu] /\
    counter b' = (if is_conv conv then S (counter b) else counter b) /\
    counter b' = count_conv ([conv; relu] ++ [conv]) /\
    get (model b') (kind_prefix (cls conv) ++ format_int (counter b')) =
      Some (installed conv).
Proof.
  split; [reflexivity|].
  apply (@layers_named_by_convolution_count toy [Finite 2] [Finite 1]
           content_layers_default style_layers_default
           [conv; relu] conv [relu; pool] [] []).
  reflexivity.
Defined.

Lemma graph_without_probes_is_normalization_witness :
  forallb recognized [relu; pool; relu] = true /\
  absent (layer_names 0 [relu; pool; relu]) content_layers_default = true /\
  absent (layer_names 0 [relu; pool; relu]) style_layers_default = true /\
  get_style_model_and_losses (torch := toy) [relu; pool; relu] [] []
      [Finite 2] [Finite 1] content_layers_default style_layers_default =
    Ok {| graph := [("0", Normalization [] [])];
          style_probes := []; content_probes := []; probe_attrs := [] |}.
Proof.
  split; [reflexivity|]. split; [reflexivity|]. split; [reflexivity|].
  apply (@graph_without_probes_is_normalization toy [Finite 2] [Finite 1]
           content_layers_default style_layers_default [relu; pool; relu] [] []);
    reflexivity.
Defined.

Lemma closure_loss_is_weighted_sum_witness :
  conv_names content_layers_default = true /\
  conv_names style_layers_default = true /\
  exists e b,
    run_style_transfer_with (torch := toy_search)
      content_layers_default style_layers_default
      6 [conv; relu; conv; conv; pool; conv] [] [] [Finite 1] [Finite 2]
      [Finite (3 # 2); Finite (-1 # 2)] 2 (PInt 100000) (PInt 5) = Some (Ok e) /\
    get_style_model_and_losses (torch := toy_search)
      [conv; relu; conv; conv; pool; conv] [] [] [Finite 2] [Finite 1]
      content_layers_default style_layers_default = Ok b /\
    input_grads e =
      map (fun x => Some (autograd (Torch := toy_search) (requires_grad_ false (graph b))
                                   (style_probes b) (content_probes b)
                                   (num_value (PInt 100000)) (num_value (PInt 5)) x))
          (forwarded e) /\
    param_grads e = [] /\
    Z.of_nat (List.length (forwarded e)) = run e.
Proof.
  split; [reflexivity|]. split; [reflexivity|].
  destruct (@closure_loss_is_weighted_sum toy_search
              content_layers_default style_layers_default
              6 [conv; relu; conv; conv; pool; conv] [] [] [Finite 1] [Finite 2]
              [Finite (3 # 2); Finite (-1 # 2)] 2%Z (PInt 100000) (PInt 5))
    as (_ & Driver & Returns).
  destruct Returns as (e & E); try reflexivity.
  - vm_compute. lia.
  - destruct (Driver eq_refl eq_refl e E) as (b & G & Facts).
    exists e, b. split; [exact E|]. split; [exact G|exact Facts].
Defined.

Lemma pixels_clamped_to_unit_interval_witness :
  conv_names content_layers_default = true /\
  conv_names style_layers_default = true /\
  forallb recognized [conv; relu; conv; conv; pool; conv] = true /\
  hits content_layers_default (layer_names 0 [conv; relu; conv; conv; pool; conv]) = true /\
  hits style_layers_default (layer_names 0 [conv; relu; conv; conv; pool; conv]) = true /\
  (Z.to_nat (2 + 1) < 6)%nat /\
  exists e,
    run_style_transfer_with (torch := toy_search)
      content_layers_default style_layers_default
      6 [conv; relu; conv; conv; pool; conv] [] [] [Finite 1] [Finite 2]
      [Finite (3 # 2); NaN] 2 (PInt 100000) (PInt 5) = Some (Ok e) /\
    Forall (Forall clamped) (forwarded e) /\
    Z.of_nat (List.length (forwarded e)) = run e /\
    Forall clamped (input_img e) /\
    exists last, input_img e = clamp_ 0 1 last.
Proof.
  do 5 (split; [reflexivity|]). split; [vm_compute; lia|].
  destruct (@pixels_clamped_to_unit_interval toy_search
              content_layers_default style_layers_default
              6 [conv; relu; conv; conv; pool; conv] [] [] [Finite 1] [Finite 2]
              [Finite (3 # 2); NaN] 2%Z (PInt 100000) (PInt 5))
    as (_ & _ & Returned & Returns).
  destruct Returns as (e & E & _); try reflexivity.
  - vm_compute. lia.
  - exists e. split; [exact E|]. apply Returned, E.
Defined.

(** Against C5 as the specification states it: a pixel that is NaN stays
    NaN through every clamp, so that the forward passes read a pixel that
    is not in [0,1], and the image that is returned holds it. *)
Lemma nan_pixel_is_read_and_returned :
  exists e,
    run_style_transfer (torch := toy_search)
      6 [conv; relu; conv; conv; pool; conv] [] [] [Finite 1] [Finite 2]
      [Finite (3 # 2); NaN] 2 (PInt 100000) (PInt 5) = Some (Ok e) /\
    input_img e = [Finite 1; NaN] /\
    ~ Forall (Forall unit_interval) (forwarded e) /\
    ~ Forall unit_interval (input_img e).
Proof.
  eexists. split; [vm_compute; reflexivity|]. split; [reflexivity|]. split.
  - intros F. inversion F as [|t ts Ht Hts]. inversion Ht as [|p ps Hp Hps].
    inversion Hps as [|p' ps' Hp' Hps']. exact Hp'.
  - intros F. inversion F as [|p ps Hp Hps]. inversion Hps as [|p' ps' Hp' Hps'].
    exact Hp'.
Qed.

Lemma loop_ends_within_step_budget_witness :
  (0 <= 2)%Z /\
  (Z.to_nat 2 + 2 <= 4)%nat /\
  exists r,
    run_style_transfer_with (torch := toy_search) content_layers_default style_layers_default
      4 [conv; relu; conv; conv; pool; conv] [] [] [Finite 1] [Finite 2] [Finite (3 # 2); Finite (-1 # 2)]
      2 (PInt 100000) (PInt 5) = Some r /\
    forall e,
      r = Ok e ->
      (outer_steps e <= Z.to_nat 2 + 1)%nat /\
      (2 + 1 <= run e)%Z /\
      (Z.of_nat (outer_steps e) <= run e)%Z /\
      ((forall o x l g, exists x' o', lbfgs (Torch := toy_search) o x l g = Return x' o') ->
       outer_steps e = (Z.to_nat 2 + 1)%nat /\
       run e = (2 + 1)%Z).
Proof.
  split; [discriminate|]. split; [apply le_n|].
  apply (@loop_ends_within_step_budget toy_search
           content_layers_default style_layers_default
           4 [conv; relu; conv; conv; pool; conv] [] [] [Finite 1] [Finite 2]
           [Finite (3 # 2); Finite (-1 # 2)] 2%Z (PInt 100000) (PInt 5)).
  - discriminate.
  - apply le_n.
Defined.

(** The run of the lemma above: two steps of two evaluations each. *)
Example two_steps_of_two_evaluations :
  exists e,
    run_style_transfer_with (torch := toy_search) content_layers_default style_layers_default
      4 [conv; relu; conv; conv; pool; conv] [] [] [Finite 1] [Finite 2] [Finite (3 # 2); Finite (-1 # 2)]
      2 (PInt 100000) (PInt 5) = Some (Ok e) /\
    outer_steps e = 2 /\ run e = 4%Z /\ input_img e = [Finite 1; Finite 1].
Proof.
  eexists. split; [vm_compute; reflexivity|]. repeat split.
Qed.

(** With an optimiser of one evaluation a step: three steps, three
    evaluations, for the budget 2. *)
Example three_steps_of_one_evaluation :
  exists e,
    run_style_transfer_with (torch := toy) content_layers_default style_layers_default
      4 [conv; relu; conv; conv; pool; conv] [] [] [Finite 1] [Finite 2] [Finite (3 # 2); Finite (-1 # 2)]
      2 (PInt 100000) (PInt 5) = Some (Ok e) /\
    outer_steps e = 3 /\ run e = 3%Z /\ input_img e = [Finite 1; Finite 0].
Proof.
  eexists. split; [vm_compute; reflexivity|]. repeat split.
Qed.

Lemma node_count_without_name_clash_witness :
  exists r,
    get_style_model_and_losses (torch := toy)
      [conv; relu; conv; relu; pool; conv; relu; conv; relu; pool] [] []
      [Finite 2] [Finite 1] content_layers_default style_layers_default = Ok r /\
    List.length (graph r) = 14 /\
    exists m, item (graph r) 13 = Some m /\ is_loss m = true.
Proof.
  destruct (@node_count_without_name_clash toy [Finite 2] [Finite 1]
              content_layers_default style_layers_default
              [conv; relu; conv; relu; pool; conv; relu; conv; relu; pool] [] [])
    as (r & E & L & P).
  - reflexivity.
  - vm_compute.
    repeat (constructor;
            [simpl; intros I; repeat (destruct I as [I|I]; [discriminate I|]); exact I|]).
    constructor.
  - exists r. split; [exact E|]. split; [exact L|].
    rewrite L in P. apply P. reflexivity.
Qed.

(** ** The further properties on the small instance *)

Lemma graph_cut_after_last_probe_witness :
  exists r,
    get_style_model_and_losses (torch := toy) [conv; pool; pool; conv; relu] [] []
      [Finite 2] [Finite 1] content_layers_default style_layers_default = Ok r /\
    exists b,
      walk (torch := toy) [Finite 2] [Finite 1] content_layers_default style_layers_default
        [conv; pool; pool; conv; relu] (start [] []) = Ok b /\
      graph r = firstn (List.length (graph r)) (model b) /\
      no_probe (skipn (List.length (graph r)) (model b)) = true /\
      ((exists pre k m, graph r = (pre ++ [(k, m)])%list /\ is_loss m = true) \/
       (graph r = [("0", Normalization [] [])] /\
        content_probes r = [] /\ style_probes r = [])).
Proof.
  destruct (get_style_model_and_losses (torch := toy) [conv; pool; pool; conv; relu] [] []
              [Finite 2] [Finite 1] content_layers_default style_layers_default) as [r|x] eqn:E;
    [|vm_compute in E; discriminate E].
  exists r. split; [reflexivity|].
  exact (@graph_cut_after_last_probe toy [Finite 2] [Finite 1]
           content_layers_default style_layers_default
           [conv; pool; pool; conv; relu] [] [] r E).
Defined.

Lemma graph_starts_with_normalization_witness :
  exists r,
    get_style_model_and_losses (torch := toy) [conv; pool; pool; conv; relu] [] []
      [Finite 2] [Finite 1] content_layers_default style_layers_default = Ok r /\
    exists rest,
      graph r = ("0", Normalization [] []) :: rest /\
      forallb (fun km : string * module => negb (is_normalization (snd km))) rest = true /\
      NoDup (map fst (graph r)).
Proof.
  destruct (get_style_model_and_losses (torch := toy) [conv; pool; pool; conv; relu] [] []
              [Finite 2] [Finite 1] content_layers_default style_layers_default) as [r|x] eqn:E;
    [|vm_compute in E; discriminate E].
  exists r. split; [reflexivity|].
  exact (@graph_starts_with_normalization toy [Finite 2] [Finite 1]
           content_layers_default style_layers_default
           [conv; pool; pool; conv; relu] [] [] r E).
Defined.

Lemma graph_layers_from_extractor_witness :
  exists r,
    get_style_model_and_losses (torch := toy) [conv; relu; pool; conv; relu] [] []
      [Finite 2] [Finite 1] content_layers_default style_layers_default = Ok r /\
    forall k l,
      In (k, Net l) (graph r) ->
      (l = ReLU_out_of_place \/ (In l [conv; relu; pool; conv; relu] /\ cls l <> ReLU)) /\
      exists n, n <= count_conv [conv; relu; pool; conv; relu] /\
                k = kind_prefix (cls l) ++ format_int n.
Proof.
  destruct (get_style_model_and_losses (torch := toy) [conv; relu; pool; conv; relu] [] []
              [Finite 2] [Finite 1] content_layers_default style_layers_default) as [r|x] eqn:E;
    [|vm_compute in E; discriminate E].
  exists r. split; [reflexivity|].
  exact (@graph_layers_from_extractor toy [Finite 2] [Finite 1]
           content_layers_default style_layers_default
           [conv; relu; pool; conv; relu] [] [] r E).
Defined.

Lemma probe_lists_by_configured_names_witness :
  exists r,
    get_style_model_and_losses (torch := toy) [conv; relu] [] []
      [Finite 2] [Finite 1] ["conv_1"; "relu_1"] ["relu_1"] = Ok r /\
    List.length (content_probes r) =
      List.length (filter (fun name => mem name ["conv_1"; "relu_1"])
                          (layer_names 0 [conv; relu])) /\
    List.length (style_probes r) =
      List.length (filter (fun name => mem name ["relu_1"]) (layer_names 0 [conv; relu])) /\
    forallb is_content_loss (content_probes r) = true /\
    forallb is_style_loss (style_probes r) = true.
Proof.
  destruct (get_style_model_and_losses (torch := toy) [conv; relu] [] []
              [Finite 2] [Finite 1] ["conv_1"; "relu_1"] ["relu_1"]) as [r|x] eqn:E;
    [|vm_compute in E; discriminate E].
  exists r. split; [reflexivity|].
  exact (@probe_lists_by_configured_names toy [Finite 2] [Finite 1]
           ["conv_1"; "relu_1"] ["relu_1"] [conv; relu] [] [] r E).
Defined.

Lemma graph_probes_are_the_listed_probes_witness :
  exists r,
    get_style_model_and_losses (torch := toy) [conv; relu; conv; conv; pool; conv] [] []
      [Finite 2] [Finite 1] content_layers_default style_layers_default = Ok r /\
    (forall p, is_loss p = true -> In p (map snd (graph r)) ->
               In p (content_probes r ++ style_probes r)) /\
    (conv_names content_layers_default = true ->
     conv_names style_layers_default = true ->
     forall p, In p (content_probes r ++ style_probes r) ->
               is_loss p = true /\ In p (map snd (graph r))).
Proof.
  destruct (get_style_model_and_losses (torch := toy)
              [conv; relu; conv; conv; pool; conv] [] []
              [Finite 2] [Finite 1] content_layers_default style_layers_default) as [r|x] eqn:E;
    [|vm_compute in E; discriminate E].
  exists r. split; [reflexivity|].
  exact (@graph_probes_are_the_listed_probes toy [Finite 2] [Finite 1]
           content_layers_default style_layers_default
           [conv; relu; conv; conv; pool; conv] [] [] r E).
Defined.

Lemma reports_every_fiftieth_evaluation_witness :
  exists e,
    run_style_transfer_with (torch := toy) content_layers_default style_layers_default
      130 [conv; relu; conv; conv; pool; conv] [] [] [Finite 1] [Finite 2] [Finite (3 # 2); Finite (-1 # 2)]
      120 (PInt 100000) (PInt 5) = Some (Ok e) /\
    exists reports,
      stdout e = Text "Building the style transfer model.." :: Text "Optimizing.."
                 :: reports /\
      report_runs reports = fifties (run e) /\
      List.length reports = List.length (fifties (run e)).
Proof.
  destruct (run_style_transfer_with (torch := toy)
              content_layers_default style_layers_default
              130 [conv; relu; conv; conv; pool; conv] [] [] [Finite 1] [Finite 2]
              [Finite (3 # 2); Finite (-1 # 2)] 120 (PInt 100000) (PInt 5)) as [[e|x]|] eqn:E;
    [|vm_compute in E; discriminate E|vm_compute in E; discriminate E].
  exists e. split; [reflexivity|].
  exact (proj2 (@reports_every_fiftieth_evaluation toy
                  content_layers_default style_layers_default
                  130 [conv; relu; conv; conv; pool; conv] [] [] [Finite 1] [Finite 2]
                  [Finite (3 # 2); Finite (-1 # 2)] 120%Z (PInt 100000) (PInt 5)) e E).
Defined.

Lemma negative_budget_returns_clamped_input_witness :
  forallb recognized [relu; pool] = true /\
  (-1 < 0)%Z /\
  exists e,
    run_style_transfer_with (torch := toy) content_layers_default style_layers_default
      1 [relu; pool] [] [] [Finite 1] [Finite 2] [Finite (3 # 2); Finite (-1 # 2)]
      (-1) (PInt 100000) (PInt 5) = Some (Ok e) /\
    input_img e = clamp_ 0 1 [Finite (3 # 2); Finite (-1 # 2)] /\
    run e = 0%Z /\ outer_steps e = 0 /\ forwarded e = [] /\
    input_grad e = None /\
    stdout e = [Text "Building the style transfer model.."; Text "Optimizing.."].
Proof.
  split; [reflexivity|]. split; [reflexivity|].
  apply (@negative_budget_returns_clamped_input toy
           content_layers_default style_layers_default
           0 [relu; pool] [] [] [Finite 1] [Finite 2] [Finite (3 # 2); Finite (-1 # 2)]
           (-1)%Z (PInt 100000) (PInt 5)); reflexivity.
Defined.

Lemma run_without_hit_raises_at_backward_witness :
  forallb recognized [conv; relu; pool] = true /\
  hits ["conv_2"] (layer_names 0 [conv; relu; pool]) = false /\
  hits ["conv_3"; "relu_2"] (layer_names 0 [conv; relu; pool]) = false /\
  (0 <= 150)%Z /\
  run_style_transfer_with (torch := toy) ["conv_2"] ["conv_3"; "relu_2"]
    1 [conv; relu; pool] [] [] [Finite 1] [Finite 2] [Finite (3 # 2); Finite (-1 # 2)]
    150 (PFloat (Finite (1 # 2))) (PInt 5) =
    Some (Raise (AttributeError "'float' object has no attribute 'backward'")).
Proof.
  split; [reflexivity|]. split; [reflexivity|]. split; [reflexivity|].
  split; [discriminate|].
  apply (@run_without_hit_raises_at_backward toy ["conv_2"] ["conv_3"; "relu_2"]
           0 [conv; relu; pool] [] [] [Finite 1] [Finite 2] [Finite (3 # 2); Finite (-1 # 2)]
           150%Z (PFloat (Finite (1 # 2))) (PInt 5));
    [reflexivity|reflexivity|reflexivity|discriminate].
Defined.

Lemma run_with_one_hit_raises_at_fiftieth_witness :
  conv_names content_layers_default = true /\
  conv_names style_layers_default = true /\
  forallb recognized [conv; relu; conv; pool] = true /\
  hits content_layers_default (layer_names 0 [conv; relu; conv; pool]) <>
    hits style_layers_default (layer_names 0 [conv; relu; conv; pool]) /\
  (49 <= 150)%Z /\
  (50 <= 152)%nat /\
  run_style_transfer_with (torch := toy_search) content_layers_default style_layers_default
    152 [conv; relu; conv; pool] [] [] [Finite 1] [Finite 2] [Finite (3 # 2); Finite (-1 # 2)]
    150 (PInt 100000) (PInt 5) =
    Some (Raise (AttributeError "'int' object has no attribute 'item'")).
Proof.
  split; [reflexivity|]. split; [reflexivity|]. split; [reflexivity|].
  split; [vm_compute; discriminate|]. split; [discriminate|]. split; [lia|].
  apply (@run_with_one_hit_raises_at_fiftieth toy_search
           content_layers_default style_layers_default
           152 [conv; relu; conv; pool] [] [] [Finite 1] [Finite 2] [Finite (3 # 2); Finite (-1 # 2)]
           150%Z (PInt 100000) (PInt 5));
    [reflexivity|reflexivity|reflexivity|vm_compute; discriminate|discriminate|lia].
Defined.

Lemma graph_names_without_name_clash_witness :
  forallb recognized [conv; relu; conv; relu; pool; conv; relu; conv; relu; pool] = true /\
  NoDup (module_names content_layers_default style_layers_default 0
           [conv; relu; conv; relu; pool; conv; relu; conv; relu; pool]) /\
  exists r,
    get_style_model_and_losses (torch := toy)
      [conv; relu; conv; relu; pool; conv; relu; conv; relu; pool] [] []
      [Finite 2] [Finite 1] content_layers_default style_layers_default = Ok r /\
    map fst (graph r) =
      firstn (specified_node_count content_layers_default style_layers_default
                (layer_names 0 [conv; relu; conv; relu; pool; conv; relu; conv; relu; pool]))
             ("0" :: module_names content_layers_default style_layers_default 0
                       [conv; relu; conv; relu; pool; conv; relu; conv; relu; pool]) /\
    flags (graph r) =
      firstn (specified_node_count content_layers_default style_layers_default
                (layer_names 0 [conv; relu; conv; relu; pool; conv; relu; conv; relu; pool]))
             (false :: flat_map (entry_flags content_layers_default style_layers_default)
                                (layer_names 0 [conv; relu; conv; relu; pool;
                                                conv; relu; conv; relu; pool])).
Proof.
  split; [reflexivity|]. split; [apply distinct_NoDup; reflexivity|].
  apply (@graph_names_without_name_clash toy [Finite 2] [Finite 1]
           content_layers_default style_layers_default
           [conv; relu; conv; relu; pool; conv; relu; conv; relu; pool] [] []);
    [reflexivity|apply distinct_NoDup; reflexivity].
Defined.

Lemma trailing_layers_are_dropped_witness :
  forallb recognized ([conv; relu; conv; conv; conv; conv] ++ [relu; pool; conv; relu]) = true /\
  absent (layer_names (count_conv [conv; relu; conv; conv; conv; conv])
                      [relu; pool; conv; relu]) content_layers_default = true /\
  absent (layer_names (count_conv [conv; relu; conv; conv; conv; conv])
                      [relu; pool; conv; relu]) style_layers_default = true /\
  NoDup (layer_names (count_conv [conv; relu; conv; conv; conv; conv])
                     [relu; pool; conv; relu]) /\
  (forall name,
     In name (layer_names (count_conv [conv; relu; conv; conv; conv; conv])
                          [relu; pool; conv; relu]) ->
     ~ In name (layer_names 0 [conv; relu; conv; conv; conv; conv])) /\
  get_style_model_and_losses (torch := toy)
    ([conv; relu; conv; conv; conv; conv] ++ [relu; pool; conv; relu]) [] []
    [Finite 2] [Finite 1] content_layers_default style_layers_default =
  get_style_model_and_losses (torch := toy)
    [conv; relu; conv; conv; conv; conv] [] []
    [Finite 2] [Finite 1] content_layers_default style_layers_default.
Proof.
  assert (Fr : forall name,
             In name (layer_names (count_conv [conv; relu; conv; conv; conv; conv])
                                  [relu; pool; conv; relu]) ->
             ~ In name (layer_names 0 [conv; relu; conv; conv; conv; conv])).
  { intros name I J. vm_compute in I, J.
    repeat (destruct I as [I|I]; [subst name;
      repeat (destruct J as [J|J]; [discriminate J|]); exact J|]).
    exact I. }
  split; [reflexivity|]. split; [reflexivity|]. split; [reflexivity|].
  split; [apply distinct_NoDup; reflexivity|]. split; [exact Fr|].
  apply (@trailing_layers_are_dropped toy [Finite 2] [Finite 1]
           content_layers_default style_layers_default
           [conv; relu; conv; conv; conv; conv] [relu; pool; conv; relu] [] []);
    [reflexivity|reflexivity|reflexivity|apply distinct_NoDup; reflexivity|exact Fr].
Defined.

Lemma probe_targets_at_their_position_witness :
  conv_names content_layers_default = true /\
  conv_names style_layers_default = true /\
  exists r,
    get_style_model_and_losses (torch := toy) [conv; pool; pool; conv; relu] [] []
      [Finite 2] [Finite 1] content_layers_default style_layers_default = Ok r /\
    forall j k o t h,
      (nth_error (graph r) j = Some (k, ContentLoss o t) ->
       t = fst (forward (torch := toy) (firstn j (graph r)) [Finite 1] h)) /\
      (nth_error (graph r) j = Some (k, StyleLoss o t) ->
       t = gram_matrix (Torch := toy)
             (fst (forward (torch := toy) (firstn j (graph r)) [Finite 2] h))).
Proof.
  split; [reflexivity|]. split; [reflexivity|].
  destruct (get_style_model_and_losses (torch := toy) [conv; pool; pool; conv; relu] [] []
              [Finite 2] [Finite 1] content_layers_default style_layers_default) as [r|x] eqn:E;
    [|vm_compute in E; discriminate E].
  exists r. split; [reflexivity|].
  exact (@probe_targets_at_their_position toy [Finite 2] [Finite 1]
           content_layers_default style_layers_default eq_refl eq_refl
           [conv; pool; pool; conv; relu] [] [] r E).
Defined.
